(** * benchmark-e2e.py: job orchestration and process lifecycle

    A shallow embedding of [src/benchmark-e2e/benchmark-e2e.py] and the
    properties of its readiness probe ([wait_for_server]), of [run_cmd],
    of the two jobs ([VLLMJob.run], [SGLangJob.run]), of the sequential
    runner ([run_jobs]) and of the start-up code ([parse_args] on its
    defaults, [ensure_uv], [global_setup], [main]).

    The script is effectful: it reads the clock, sleeps, issues HTTP
    requests, runs and spawns processes, signals process groups and writes
    log lines.  All of that is threaded through an explicit [World];
    Python exceptions are the [Raise] results of a small state-and-error
    monad [M].

    What the world does in answer is fixed by an [Oracle]: how long each
    request takes and what it yields, how each command exits or why it
    cannot be started, whether the shell of a [Popen] starts and whether
    the server it runs stays up, and which way the one floating-point sum
    of the script is rounded.  The clock is virtual: it counts whole
    milliseconds (the script's seconds multiplied by 1000) and only moves
    while a request or a sleep is under way.  The process table follows
    POSIX: a process that has exited or was killed stays, as a zombie,
    until it is waited for, and a pid that was reaped no longer exists.
    Log files are not modelled; log calls are events of the trace. *)

From Stdlib Require Import ZArith Lia Ascii.
From stdpp Require Import base strings gmap list pretty.

(** ** Python exceptions *)

(** The [requests.exceptions] raised by a failing [requests.get]. *)
Inductive request_error : Type :=
| ConnectionRefused   (* requests.exceptions.ConnectionError *)
| ConnectTimeout
| ReadTimeout.

(** The exception classes the script can meet.  All of them derive from
    [Exception] except [KeyboardInterrupt], which derives from
    [BaseException] only. *)
Inductive exn : Type :=
| TimeoutError (msg : string)
| CalledProcessError (returncode : Z) (cmd : list string)
| FileNotFoundError (filename : string)
| PermissionError (filename : string)
| OSError
| ProcessLookupError
| ValueError
| NotImplementedError
| RequestException (kind : request_error)
| KeyboardInterrupt.

(** [isinstance(e, Exception)]: what an [except Exception] clause catches. *)
Definition is_Exception (e : exn) : bool :=
  match e with
  | KeyboardInterrupt => false
  | _ => true
  end.

(** ** The world outside the script *)

(** What one [requests.get] yields: a response (status code and decoded
    body, [r.text]), or an exception. *)
Inductive http_result : Type :=
| Response (status : Z) (text : string)
| RequestRaises (e : exn).

(** Why the operating system did not start a child: the [OSError] that
    [subprocess.run] lets through.  [filename] is the file the failing
    call names: the executable ([argv[0]]) or the working directory. *)
Inductive os_error : Type :=
| ENOENT (filename : string)      (* FileNotFoundError *)
| EACCES (filename : string)      (* PermissionError *)
| EOTHER.                         (* any other OSError *)

Definition OSError_of (err : os_error) : exn :=
  match err with
  | ENOENT f => FileNotFoundError f
  | EACCES f => PermissionError f
  | EOTHER => OSError
  end.

(** What one [subprocess.run] yields: the exit status of the child, or
    no child at all. *)
Inductive run_outcome : Type :=
| Exited (rc : Z)
| NotStarted (err : os_error).

(** An entry of the process table: its process group, and whether it still
    runs or has exited and awaits reaping. *)
Inductive proc_state : Type :=
| Running
| Zombie (status : Z).

(** The behaviour of the collaborators, fixed for a whole run:
    - [endpoint k] is the duration (ms) and the outcome of the [k]-th
      [requests.get] the script issues;
    - [command argv] is the outcome of [subprocess.run(argv)];
    - [shell_spawns cmdline] is the outcome of
      [Popen(cmdline, shell=True)]: [None] when the shell cannot be
      started, otherwise what becomes of the child before anyone signals
      it or waits for it: [Running] when it stays up, [Zombie st] when it
      exits by itself with status [st] (a server that crashes, a shell
      that finds no virtual environment).  The script never looks at the
      child between the spawn and the tear-down, so the moment of the exit
      is immaterial and the state is entered at the spawn;
    - [rounds_up t0 timeout] tells whether the binary64 sum
      [t0 + timeout] of line 33 lies above the exact sum. *)
Record Oracle : Type := mkOracle {
  endpoint : nat → N * http_result;
  command : list string → run_outcome;
  shell_spawns : string → option proc_state;
  rounds_up : Z → Z → bool
}.

Record process : Type := mkProcess {
  pgid : positive;
  pstate : proc_state
}.

Inductive Level : Type := INFO | ERROR.

(** A log record.  The one message that formats an exception
    ([f"✗ {job.name} failed: {e}"]) keeps the exception itself. *)
Inductive LogMsg : Type :=
| Text (s : string)
| JobFailed (name : string) (e : exn).

(** The observable actions of the script, newest first in [trace]. *)
Inductive Event : Type :=
| EvLog (logger : string) (level : Level) (msg : LogMsg)
| EvRun (argv : list string) (cwd : option string) (rc : Z)
| EvPopen (cmdline : string) (cwd : string) (env : gmap string string)
          (pid : positive)
| EvGet (url : string)
| EvSleep (ms : Z)
| EvKillpg (pg : positive)
| EvReap (pid : positive).

Record World : Type := mkWorld {
  oracle : Oracle;
  environ : gmap string string;      (* os.environ *)
  now : Z;                           (* time.time(), in ms *)
  requests : nat;                    (* requests.get calls issued so far *)
  procs : gmap positive process;     (* the process table *)
  trace : list Event
}.

Definition push (ev : Event) (w : World) : World :=
  mkWorld (oracle w) (environ w) (now w) (requests w) (procs w)
          (ev :: trace w).

Definition elapse (ms : Z) (w : World) : World :=
  mkWorld (oracle w) (environ w) (now w + ms)%Z (requests w) (procs w)
          (trace w).

Definition count_request (w : World) : World :=
  mkWorld (oracle w) (environ w) (now w) (S (requests w)) (procs w)
          (trace w).

Definition set_procs (ps : gmap positive process) (w : World) : World :=
  mkWorld (oracle w) (environ w) (now w) (requests w) ps (trace w).

(** ** The monad of the script *)

Inductive result (A : Type) : Type :=
| Return (a : A)
| Raise (e : exn).
Arguments Return {A} a.
Arguments Raise {A} e.

(** A computation maps a world to the world it leaves and how it ended;
    [None] stands for a computation that does not end (a loop out of fuel,
    a [wait] on a process that never exits). *)
Definition M (A : Type) : Type := World → option (World * result A).

Definition ret {A} (a : A) : M A := λ w, Some (w, Return a).

Definition raise {A} (e : exn) : M A := λ w, Some (w, Raise e).

Definition bind {A B} (m : M A) (k : A → M B) : M B := λ w,
  match m w with
  | None => None
  | Some (w1, Return a) => k a w1
  | Some (w1, Raise e) => Some (w1, Raise e)
  end.

Notation "x <- m ;; k" := (bind m (λ x, k))
  (at level 100, m at next level, right associativity).
Notation "m ;; k" := (bind m (λ _, k))
  (at level 100, right associativity).

(** [try: body  except Exception as e: handler e]. *)
Definition try_except_Exception {A} (body : M A) (handler : exn → M A)
  : M A := λ w,
  match body w with
  | Some (w1, Raise e) =>
      if is_Exception e then handler e w1 else Some (w1, Raise e)
  | r => r
  end.

Definition emit (ev : Event) : M unit := λ w, Some (push ev w, Return tt).

Definition logger_info (logger : string) (s : string) : M unit :=
  emit (EvLog logger INFO (Text s)).

(** ** Strings *)

(** Python's [needle in hay] on [str]: [needle] occurs as a substring. *)
Fixpoint str_in (needle hay : string) : bool :=
  String.prefix needle hay ||
  match hay with
  | EmptyString => false
  | String _ rest => str_in needle rest
  end.

(** [sep.join(parts)]. *)
Definition join (sep : string) (parts : list string) : string :=
  String.concat sep parts.

(** [str(n)] for an [int]. *)
Definition str_int (n : Z) : string := pretty n.

(** ** Primitives: clock, HTTP, subprocesses *)

Definition time_time : M Z := λ w, Some (w, Return (now w)).

(** [time.sleep(secs)] raises [ValueError] on a negative length. *)
Definition time_sleep (ms : Z) : M unit := λ w,
  if (ms <? 0)%Z then Some (w, Raise ValueError)
  else Some (push (EvSleep ms) (elapse ms w), Return tt).

(** [requests.get(url, timeout=1)]: takes the time the oracle says and
    yields the response text or raises. *)
Definition requests_get (url : string) : M string := λ w,
  let '(d, out) := endpoint (oracle w) (requests w) in
  let w1 := push (EvGet url) (count_request (elapse (Z.of_N d) w)) in
  match out with
  | Response _ text => Some (w1, Return text)
  | RequestRaises e => Some (w1, Raise e)
  end.

(** ** wait_for_server (lines 31-42)

    The [logger] parameter is not used by the function and is left out. *)

Definition models_url (host : string) (port : Z) : string :=
  "http://" +:+ host +:+ ":" +:+ str_int port +:+ "/v1/models".

(** The [while] loop; [fuel] bounds the number of iterations. *)
Fixpoint wait_loop (fuel : nat) (url : string) (deadline interval : Z)
  : M unit :=
  match fuel with
  | O => λ _, None
  | S fuel' =>
      t <- time_time ;;
      if (t <? deadline)%Z then
        ready <- try_except_Exception
                   (text <- requests_get url ;; ret (str_in "data" text))
                   (λ _, ret false) ;;
        if ready : bool then ret tt
        else time_sleep interval ;; wait_loop fuel' url deadline interval
      else raise (TimeoutError ("Timeout waiting for server at " +:+ url))
  end.

(** [t0 + timeout_s] on line 33 is a binary64 sum, and line 34 compares
    clock values with it.  The sum is the exact one rounded, so a clock
    value that differs from the exact sum (by a millisecond or more, at
    the resolution of this clock) lies on the same side of both; the
    clock value equal to the exact sum is below the deadline when the sum
    was rounded up (in Python [0.3 < 0.1 + 0.2]) and not otherwise.  On
    whole milliseconds that is the comparison with the exact sum plus one.
    Adding [0.0] is exact. *)
Definition float_sum (o : Oracle) (t0 timeout : Z) : Z :=
  if rounds_up o t0 timeout && negb (timeout =? 0)%Z
  then (t0 + timeout + 1)%Z
  else (t0 + timeout)%Z.

Definition float_add (t0 timeout : Z) : M Z := λ w,
  Some (w, Return (float_sum (oracle w) t0 timeout)).

Definition wait_for_server (fuel : nat) (host : string) (port : Z)
    (timeout interval : Z) : M unit :=
  let url := models_url host port in
  t0 <- time_time ;;
  deadline <- float_add t0 timeout ;;
  wait_loop fuel url deadline interval.

(** The defaults [timeout_s=120, interval_s=2], in ms. *)
Definition default_timeout : Z := 120000.
Definition default_interval : Z := 2000.

(** [subprocess.run(argv, cwd=cwd, check=check)], giving the return code
    of the [CompletedProcess].  When the child cannot be started the
    [OSError] of the operating system comes out, whatever [check] is.
    What the child does to the machine (the packages it installs, the
    processes a [pkill] reaches) is outside the model; only its exit
    status comes back. *)
Definition subprocess_run (argv : list string) (cwd : option string)
    (check : bool) : M Z := λ w,
  match command (oracle w) argv with
  | NotStarted err => Some (w, Raise (OSError_of err))
  | Exited rc =>
      let w1 := push (EvRun argv cwd rc) w in
      if check && negb (rc =? 0)%Z
      then Some (w1, Raise (CalledProcessError rc argv))
      else Some (w1, Return rc)
  end.

(** ** run_cmd (lines 24-28) *)

Definition run_cmd (cmd : list string) (cwd : option string)
    (logger : option string) : M unit :=
  match logger with
  | Some l => logger_info l ("▶ " +:+ join " " cmd)
  | None => ret tt
  end ;;
  rc <- subprocess_run cmd cwd false ;;
  (* proc.check_returncode() *)
  if (rc =? 0)%Z then ret tt else raise (CalledProcessError rc cmd).

(** ** Process supervision *)

(** A [subprocess.Popen] object: the child's pid and the [returncode]
    attribute, [None] until the child has been waited for. *)
Record Popen : Type := mkPopen {
  pid : positive;
  returncode : option Z
}.

(** [subprocess.Popen(cmdline, cwd=cwd, env=env, preexec_fn=os.setsid,
    shell=True)]: the child gets a pid that is not in use and, through
    [os.setsid], a process group of its own.  [Popen] does not wait: the
    child stays in the process table, running or (once it has exited by
    itself) as a zombie, until somebody waits for it. *)
Definition subprocess_Popen (cmdline cwd : string)
    (env : gmap string string) : M Popen := λ w,
  match shell_spawns (oracle w) cmdline with
  | Some st =>
      let p := fresh (dom (procs w)) in
      Some (push (EvPopen cmdline cwd env p)
              (set_procs (<[p := mkProcess p st]> (procs w)) w),
            Return (mkPopen p None))
  | None => Some (w, Raise OSError)
  end.

(** [os.getpgid(pid)]: fails with ESRCH when no such process exists. *)
Definition os_getpgid (p : positive) : M positive := λ w,
  match procs w !! p with
  | Some pr => Some (w, Return (pgid pr))
  | None => Some (w, Raise ProcessLookupError)
  end.

Definition in_group (pg : positive) (pr : process) : bool :=
  Pos.eqb (pgid pr) pg.

(** SIGKILL cannot be caught: a running member of the group dies with
    status -9 and stays in the table until it is reaped. *)
Definition sigkill (pg : positive) (pr : process) : process :=
  if in_group pg pr then
    match pstate pr with
    | Running => mkProcess (pgid pr) (Zombie (-9))
    | Zombie _ => pr
    end
  else pr.

(** [os.killpg(pg, signal.SIGKILL)]: fails with ESRCH when the group has
    no member. *)
Definition os_killpg (pg : positive) : M unit := λ w,
  if existsb (λ kv, in_group pg (snd kv)) (map_to_list (procs w)) then
    Some (push (EvKillpg pg) (set_procs (sigkill pg <$> procs w) w),
          Return tt)
  else Some (w, Raise ProcessLookupError).

(** [proc.wait()]: returns at once when [returncode] is set; otherwise
    blocks until the child has exited, reaps it and sets [returncode].
    When the child is gone from the table (ECHILD) the status is lost and
    [returncode] becomes 0. *)
Definition Popen_wait (h : Popen) : M Popen := λ w,
  match returncode h with
  | Some _ => Some (w, Return h)
  | None =>
      match procs w !! pid h with
      | Some pr =>
          match pstate pr with
          | Zombie st =>
              Some (push (EvReap (pid h))
                      (set_procs (delete (pid h) (procs w)) w),
                    Return (mkPopen (pid h) (Some st)))
          | Running => None
          end
      | None => Some (w, Return (mkPopen (pid h) (Some 0%Z)))
      end
  end.

(** The tear-down of a server (lines 176-177 and 238-239):
    [os.killpg(os.getpgid(proc.pid), signal.SIGKILL); proc.wait()]. *)
Definition terminate (proc : Popen) : M Popen :=
  pg <- os_getpgid (pid proc) ;;
  os_killpg pg ;;
  Popen_wait proc.

(** ** BaseJob (lines 79-94) *)

Record Config : Type := mkConfig {
  cfg_port : Z;
  cfg_model : string;
  cfg_cuda_device : string
}.

Record BaseJob : Type := mkBaseJob {
  name : string;
  port : Z;
  model : string;
  cuda_dev : string;
  root_dir : string;
  logpath : string
}.

(** [a / b] on [pathlib] paths, each path written as its [str()].  [a]
    is a path in normal form, as [Path.cwd()] and the results of [/] are;
    [b] is a relative or absolute path in normal form.  No separator is
    added after a root ([Path(root) / name] is the root followed by the
    name), the current directory [.] vanishes, and an absolute [b]
    replaces [a]. *)
Fixpoint ends_with_slash (s : string) : bool :=
  match s with
  | EmptyString => false
  | String c EmptyString => Ascii.eqb c "/"
  | String _ rest => ends_with_slash rest
  end.

Definition is_absolute (s : string) : bool :=
  match s with
  | String c _ => Ascii.eqb c "/"
  | EmptyString => false
  end.

Definition path_join (a b : string) : string :=
  if is_absolute b then b
  else if String.eqb b "" || String.eqb b "." then a
  else if String.eqb a "." then b
  else if ends_with_slash a then a +:+ b
  else a +:+ "/" +:+ b.

Definition BaseJob_init (name : string) (cfg : Config)
    (root_dir logs_dir : string) : BaseJob :=
  mkBaseJob name (cfg_port cfg) (cfg_model cfg) (cfg_cuda_device cfg)
            root_dir (path_join logs_dir (name +:+ ".log")).

Definition BaseJob_run (self : BaseJob) : M unit :=
  raise NotImplementedError.

(** [self.logger.info(s)]: the job's logger is [logging.getLogger(name)]. *)
Definition self_info (self : BaseJob) (s : string) : M unit :=
  logger_info (name self) s.

(** Truth value of a [str]: non-empty. *)
Definition truthy (s : string) : bool :=
  match s with
  | EmptyString => false
  | String _ _ => true
  end.

(** The environment handed to the server (lines 123-125 and 199-201):
    [env = os.environ.copy(); if self.cuda_dev: env[...] = self.cuda_dev].
    [server_env] is the second statement, on the copy [env]. *)
Definition server_env (self : BaseJob) (env : gmap string string)
  : gmap string string :=
  if truthy (cuda_dev self)
  then <["CUDA_VISIBLE_DEVICES" := cuda_dev self]> env
  else env.

Definition spawn_env (self : BaseJob) : M (gmap string string) := λ w,
  Some (w, Return (server_env self (environ w))).

(** ** VLLMJob.run (lines 111-178)

    The method is one straight sequence; it is cut here at the comments
    that head its parts in the source. *)

Definition vllm_venv_cmd : list string :=
  ["uv"; "venv"; "venv-vllm"; "--python"; "3.12"].

Definition vllm_install_cmd : list string :=
  ["bash"; "-c";
   "source venv-vllm/bin/activate && uv pip install vllm==0.8.3"].

(** "create venv & install vllm via uv" (lines 115-120). *)
Definition vllm_provision (self : BaseJob) : M unit :=
  run_cmd vllm_venv_cmd (Some (root_dir self)) (Some (name self)) ;;
  run_cmd vllm_install_cmd (Some (root_dir self)) (Some (name self)) ;;
  self_info self "vllm package installed in venv-vllm".

Definition vllm_serve_cmd (self : BaseJob) : list string :=
  ["vllm"; "serve"; model self; "--disable-log-requests"; "--port";
   str_int (port self)].

(** "launch vllm serve" (lines 122-134). *)
Definition vllm_launch (self : BaseJob) : M Popen :=
  env <- spawn_env self ;;
  self_info self ("▶ source venv-vllm/bin/activate && "
                  +:+ join " " (vllm_serve_cmd self)) ;;
  proc <- subprocess_Popen
            ("bash -c 'source venv-vllm/bin/activate && "
             +:+ join " " (vllm_serve_cmd self) +:+ "'")
            (root_dir self) env ;;
  self_info self ("Started vllm serve (pid="
                  +:+ pretty (pid proc) +:+ ")") ;;
  ret proc.

(** "wait for ready" (lines 136-139). *)
Definition vllm_wait_ready (fuel : nat) (self : BaseJob) : M unit :=
  self_info self "Waiting for vllm to load…" ;;
  wait_for_server fuel "localhost" (port self)
                  default_timeout default_interval ;;
  self_info self ("vllm inference server ready at http://localhost:"
                  +:+ str_int (port self) +:+ "/v1/models").

Definition vllm_deps_cmd : string :=
  "source venv-vllm-src/bin/activate && " +:+
  "export VLLM_USE_PRECOMPILED=1 && " +:+
  "uv pip install -e . && " +:+
  "uv pip install numpy pandas datasets".

(** "4) setup vllm-src & deps via uv with precompiled" (lines 141-155). *)
Definition vllm_setup_src (self : BaseJob) : M unit :=
  let vllm_src :=
    path_join (path_join (root_dir self) "benchmark-compare") "vllm" in
  self_info self ("Creating venv-vllm-src in " +:+ vllm_src) ;;
  run_cmd ["uv"; "venv"; "venv-vllm-src"; "--python"; "3.12"]
          (Some vllm_src) (Some (name self)) ;;
  self_info self ("▶ " +:+ vllm_deps_cmd) ;;
  run_cmd ["bash"; "-c"; vllm_deps_cmd] (Some vllm_src)
          (Some (name self)) ;;
  self_info self "vllm-src dependencies installed (precompiled)".

Definition bench_cmd (self : BaseJob) (framework : string) : string :=
  "source vllm/venv-vllm-src/bin/activate && " +:+
  "VLLM_USE_PRECOMPILED=1 MODEL=" +:+ model self +:+
  " FRAMEWORK=" +:+ framework +:+ " " +:+
  "bash ./benchmark_1000_in_100_out.sh".

(** "run benchmark script" (lines 157-172); the [with open(bench_log)]
    around it opens a file under the logs directory that [main] made. *)
Definition vllm_benchmark (self : BaseJob) : M unit :=
  let bench_dir := path_join (root_dir self) "benchmark-compare" in
  self_info self ">>> Starting vllm benchmark; output → bench-vllm.log" ;;
  self_info self ("▶ " +:+ bench_cmd self "vllm") ;;
  subprocess_run ["bash"; "-c"; bench_cmd self "vllm"]
                 (Some bench_dir) true ;;
  self_info self "vllm benchmark script completed".

(** "6) tear down" (lines 174-178). *)
Definition vllm_teardown (self : BaseJob) (proc : Popen) : M unit :=
  self_info self ("Stopping vllm server (pid="
                  +:+ pretty (pid proc) +:+ ")") ;;
  terminate proc ;;
  self_info self "=== vllm benchmark done ===".

Definition VLLMJob_run (fuel : nat) (self : BaseJob) : M unit :=
  self_info self "=== vllm benchmark start ===" ;;
  vllm_provision self ;;
  proc <- vllm_launch self ;;
  vllm_wait_ready fuel self ;;
  vllm_setup_src self ;;
  vllm_benchmark self ;;
  vllm_teardown self proc.

(** ** SGLangJob.run (lines 181-240) *)

(** The double quote character, for the quoted package name of line 190. *)
Definition dquote : string := String "034"%char EmptyString.

Definition sglang_install_cmd : string :=
  "source venv-sgl/bin/activate && " +:+
  "uv pip install " +:+ dquote +:+ "sglang[all]==0.4.4.post1" +:+ dquote
  +:+ " " +:+
  "--find-links https://flashinfer.ai/whl/cu124/torch2.5/flashinfer-python".

Definition sglang_venv_cmd : list string :=
  ["uv"; "venv"; "venv-sgl"; "--python"; "3.12"].

(** "create venv & install sglang via uv" (lines 185-196). *)
Definition sglang_provision (self : BaseJob) : M unit :=
  run_cmd sglang_venv_cmd (Some (root_dir self)) (Some (name self)) ;;
  self_info self ("▶ " +:+ sglang_install_cmd) ;;
  run_cmd ["bash"; "-c"; sglang_install_cmd]
          (Some (root_dir self)) (Some (name self)) ;;
  self_info self "sglang package installed in venv-sgl".

Definition sglang_serve_cmd (self : BaseJob) : list string :=
  ["python3"; "-m"; "sglang.launch_server"; "--model-path"; model self;
   "--host"; "0.0.0.0"; "--port"; str_int (port self)].

(** "launch sglang serve" (lines 198-212). *)
Definition sglang_launch (self : BaseJob) : M Popen :=
  env <- spawn_env self ;;
  self_info self ("▶ source venv-sgl/bin/activate && "
                  +:+ join " " (sglang_serve_cmd self)) ;;
  proc <- subprocess_Popen
            ("bash -c 'source venv-sgl/bin/activate && "
             +:+ join " " (sglang_serve_cmd self) +:+ "'")
            (root_dir self) env ;;
  self_info self ("Started sglang serve (pid="
                  +:+ pretty (pid proc) +:+ ")") ;;
  ret proc.

(** "wait for ready" (lines 214-217). *)
Definition sglang_wait_ready (fuel : nat) (self : BaseJob) : M unit :=
  self_info self "Waiting for sglang to load…" ;;
  wait_for_server fuel "localhost" (port self)
                  default_timeout default_interval ;;
  self_info self ("sglang inference server ready at http://localhost:"
                  +:+ str_int (port self) +:+ "/v1/models").

(** "4) run benchmark script" (lines 219-234). *)
Definition sglang_benchmark (self : BaseJob) : M unit :=
  let bench_dir := path_join (root_dir self) "benchmark-compare" in
  self_info self
    ">>> Starting sglang benchmark; output → bench-sglang.log" ;;
  self_info self ("▶ " +:+ bench_cmd self "sgl") ;;
  subprocess_run ["bash"; "-c"; bench_cmd self "sgl"]
                 (Some bench_dir) true ;;
  self_info self "sglang benchmark script completed".

(** "tear down" (lines 236-240). *)
Definition sglang_teardown (self : BaseJob) (proc : Popen) : M unit :=
  self_info self ("Stopping sglang server (pid="
                  +:+ pretty (pid proc) +:+ ")") ;;
  terminate proc ;;
  self_info self "=== sglang benchmark done ===".

Definition SGLangJob_run (fuel : nat) (self : BaseJob) : M unit :=
  self_info self "=== sglang benchmark start ===" ;;
  sglang_provision self ;;
  proc <- sglang_launch self ;;
  sglang_wait_ready fuel self ;;
  sglang_benchmark self ;;
  sglang_teardown self proc.

(** ** run_jobs (lines 97-108) *)

(** What [run_jobs] uses of a job object: its [name] attribute and its
    bound [run] method. *)
Record Job : Type := mkJob {
  job_name : string;
  job_run : M unit
}.

Definition VLLMJob (fuel : nat) (name : string) (cfg : Config)
    (root_dir logs_dir : string) : Job :=
  mkJob name (VLLMJob_run fuel (BaseJob_init name cfg root_dir logs_dir)).

Definition SGLangJob (fuel : nat) (name : string) (cfg : Config)
    (root_dir logs_dir : string) : Job :=
  mkJob name (SGLangJob_run fuel (BaseJob_init name cfg root_dir logs_dir)).

(** How one turn of the [for] loop ends: it falls through to the next job,
    or executes [return]. *)
Inductive flow : Type := Next | Returned.

Definition pkill_cmd : list string := ["pkill"; "-f"; "vllm serve"].

(** The body of the loop, for one job. *)
Definition run_jobs_body (logger : string) (job : Job) : M flow :=
  logger_info logger ("▶ Running " +:+ job_name job) ;;
  outcome <- try_except_Exception
               (job_run job ;;
                logger_info logger ("✓ " +:+ job_name job +:+ " completed") ;;
                ret Next)
               (λ e,
                emit (EvLog logger ERROR (JobFailed (job_name job) e)) ;;
                ret Returned) ;;
  match outcome with
  | Returned => ret Returned
  | Next =>
      if String.eqb (job_name job) "vllm" then
        logger_info logger "Killing vllm serve process group" ;;
        subprocess_run pkill_cmd None false ;;
        ret Next
      else ret Next
  end.

(** The loop over the jobs, up to the first [return]. *)
Fixpoint run_jobs_loop (logger : string) (jobs : list Job) : M flow :=
  match jobs with
  | [] => ret Next
  | job :: rest =>
      outcome <- run_jobs_body logger job ;;
      match outcome with
      | Returned => ret Returned
      | Next => run_jobs_loop logger rest
      end
  end.

Definition run_jobs (jobs : list Job) (logger : string) : M unit :=
  run_jobs_loop logger jobs ;; ret tt.

(** * Observations on traces *)

Inductive kind : Type :=
  KLog | KRun | KPopen | KGet | KSleep | KKillpg | KReap.

#[global] Instance kind_eq_dec : EqDecision kind.
Proof. solve_decision. Defined.

Definition kind_of (ev : Event) : kind :=
  match ev with
  | EvLog _ _ _ => KLog
  | EvRun _ _ _ => KRun
  | EvPopen _ _ _ _ => KPopen
  | EvGet _ => KGet
  | EvSleep _ => KSleep
  | EvKillpg _ => KKillpg
  | EvReap _ => KReap
  end.

(** How many events of kind [k] a trace holds. *)
Fixpoint count_kind (k : kind) (t : list Event) : nat :=
  match t with
  | [] => 0
  | ev :: t' =>
      (if bool_decide (kind_of ev = k) then 1 else 0) + count_kind k t'
  end.

Definition only (ok : kind → bool) (evs : list Event) : Prop :=
  Forall (λ ev, ok (kind_of ev) = true) evs.

(** [w'] is [w] after some more events, all of kinds allowed by [ok]; the
    oracle and [os.environ] are the same, and so is the process table
    unless [ok] allows an event that touches it. *)
Record extends (ok : kind → bool) (w w' : World) : Prop := mkExtends {
  ext_oracle : oracle w' = oracle w;
  ext_environ : environ w' = environ w;
  ext_trace : ∃ evs, trace w' = evs ++ trace w ∧ only ok evs;
  ext_procs :
    ok KPopen = false → ok KKillpg = false → ok KReap = false →
    procs w' = procs w
}.

(** [m] only emits events allowed by [ok] and only raises exceptions
    allowed by [ex]. *)
Definition behaves {A} (ok : kind → bool) (ex : exn → bool) (m : M A)
  : Prop :=
  ∀ w w' r, m w = Some (w', r) →
    extends ok w w' ∧ (∀ e, r = Raise e → ex e = true).


(** [m] started in [w] comes to an end, by returning or by raising. *)
Definition ends {A} (m : M A) (w : World) : Prop :=
  ∃ w' r, m w = Some (w', r).

(** Fuel for the polls of a readiness wait with the default timeout and
    interval: 120 s / 2 s turns, the turn that finds the deadline passed,
    and one to spare. *)
Definition enough_fuel : nat := 62.

(** * Vocabulary of the properties *)

(** The allowed events and exceptions of the parts. *)
Definition commands_only (k : kind) : bool :=
  match k with KLog | KRun => true | _ => false end.

Definition polls_only (k : kind) : bool :=
  match k with KLog | KGet | KSleep => true | _ => false end.

Definition no_spawn (k : kind) : bool :=
  match k with KPopen => false | _ => true end.

Definition any_exn (e : exn) : bool := true.


(** The message of the [TimeoutError] of [wait_for_server]. *)
Definition timeout_message (host : string) (port : Z) : string :=
  "Timeout waiting for server at " +:+ models_url host port.

(** One poll that does not end the loop: a response whose text lacks
    "data", or an exception that [except Exception] catches. *)
Definition not_ready (out : http_result) : bool :=
  match out with
  | Response _ text => negb (str_in "data" text)
  | RequestRaises e => is_Exception e
  end.

(** A service that never responds successfully, each request taking at
    most [D] ms. *)
Definition never_ready (o : Oracle) (D : N) : Prop :=
  ∀ k, (fst (endpoint o k) ≤ D)%N ∧ not_ready (snd (endpoint o k)) = true.

(** The world after the [k]-th request has been issued and has taken
    [d] ms. *)
Definition after_request (url : string) (d : N) (w : World) : World :=
  push (EvGet url) (count_request (elapse (Z.of_N d) w)).

(** ** The two jobs, part by part *)

Inductive framework : Type := Vllm | Sglang.

Definition run_of (fw : framework) : nat → BaseJob → M unit :=
  match fw with
  | Vllm => VLLMJob_run
  | Sglang => SGLangJob_run
  end.

Definition banner_of (fw : framework) : string :=
  match fw with
  | Vllm => "=== vllm benchmark start ==="
  | Sglang => "=== sglang benchmark start ==="
  end.

(** The line a job logs before it probes its server (lines 137 and
    215), and the world in which the probe then starts, [w] being the
    world the launch has left. *)
Definition waiting_line (fw : framework) : string :=
  match fw with
  | Vllm => "Waiting for vllm to load…"
  | Sglang => "Waiting for sglang to load…"
  end.

Definition probing (fw : framework) (self : BaseJob) (w : World) : World :=
  push (EvLog (name self) INFO (Text (waiting_line fw))) w.

Definition provision_of (fw : framework) : BaseJob → M unit :=
  match fw with
  | Vllm => vllm_provision
  | Sglang => sglang_provision
  end.

Definition launch_of (fw : framework) : BaseJob → M Popen :=
  match fw with
  | Vllm => vllm_launch
  | Sglang => sglang_launch
  end.

Definition wait_ready_of (fw : framework) : nat → BaseJob → M unit :=
  match fw with
  | Vllm => vllm_wait_ready
  | Sglang => sglang_wait_ready
  end.

(** What follows the readiness wait, down to the tear-down. *)
Definition finish_of (fw : framework) (self : BaseJob) (proc : Popen)
  : M unit :=
  match fw with
  | Vllm =>
      vllm_setup_src self ;; vllm_benchmark self ;; vllm_teardown self proc
  | Sglang => sglang_benchmark self ;; sglang_teardown self proc
  end.

(** The commands of the provisioning part, in the order they run. *)
Definition provision_cmds (fw : framework) : list (list string) :=
  match fw with
  | Vllm => [vllm_venv_cmd; vllm_install_cmd]
  | Sglang => [sglang_venv_cmd; ["bash"; "-c"; sglang_install_cmd]]
  end.

(** Provisioning fails: one of its commands does not exit with status 0
    (or cannot be started at all). *)
Definition provisioning_fails (fw : framework) (o : Oracle) : Prop :=
  ∃ c, c ∈ provision_cmds fw ∧ command o c ≠ Exited 0.

(** The exception of a failed provisioning command: the
    [CalledProcessError] of its exit status, or the [OSError] of a child
    that could not be started. *)
Definition provisioning_error (fw : framework) (e : exn) : Prop :=
  ∃ c, c ∈ provision_cmds fw ∧
    ((∃ rc, rc ≠ 0%Z ∧ e = CalledProcessError rc c) ∨
     (∃ err, e = OSError_of err)).

(** The log lines of [run_jobs] around a job. *)
Definition running_line (logger : string) (job : Job) : Event :=
  EvLog logger INFO (Text ("▶ Running " +:+ job_name job)).

Definition completed_line (logger : string) (job : Job) : Event :=
  EvLog logger INFO (Text ("✓ " +:+ job_name job +:+ " completed")).

Definition failed_line (logger : string) (job : Job) (e : exn) : Event :=
  EvLog logger ERROR (JobFailed (job_name job) e).

Definition killing_line (logger : string) : Event :=
  EvLog logger INFO (Text "Killing vllm serve process group").

(** The external cleanup passes in a trace: the runs of [pkill]. *)
Definition is_cleanup (ev : Event) : bool :=
  match ev with
  | EvRun ("pkill" :: _) _ _ => true
  | _ => false
  end.

Definition cleanup_passes (t : list Event) : nat :=
  length (List.filter is_cleanup t).

(** * The spec's reading of a ready response

    The spec takes a response as ready only if its body "can be parsed and
    contains the expected structural marker (a non-empty listing of served
    resources)".  The endpoint [/v1/models] answers in JSON, with the
    listing under the key "data".  [Json] is a JSON reader, and
    [spec_ready] that reading; neither is part of the script, which only
    searches the text for a substring. *)

Module Json.

#[local] Unset Elimination Schemes.
Inductive json : Type :=
| JNull
| JBool (b : bool)
| JNumber (literal : string)
| JString (s : string)
| JArray (items : list json)
| JObject (members : list (string * json)).
#[local] Set Elimination Schemes.

Definition quote : ascii := "034"%char.
Definition backslash : ascii := "092"%char.

Definition is_ws (c : ascii) : bool :=
  match nat_of_ascii c with
  | 32 | 9 | 10 | 13 => true
  | _ => false
  end.

Fixpoint skip_ws (s : string) : string :=
  match s with
  | String c rest => if is_ws c then skip_ws rest else s
  | EmptyString => s
  end.

Definition is_digit (c : ascii) : bool :=
  (48 <=? nat_of_ascii c) && (nat_of_ascii c <=? 57).

Fixpoint take_digits (s : string) : string * string :=
  match s with
  | String c rest =>
      if is_digit c
      then let '(ds, r) := take_digits rest in (String c ds, r)
      else ("", s)
  | EmptyString => ("", "")
  end.

(** [int]: one or more digits, with no leading zero. *)
Definition parse_int (s : string) : option (string * string) :=
  let '(ds, r) := take_digits s in
  match ds with
  | EmptyString => None
  | String c (String _ _) =>
      if Ascii.eqb c "0" then None else Some (ds, r)
  | _ => Some (ds, r)
  end.

(** [frac]: nothing, or a dot and one or more digits. *)
Definition parse_frac (s : string) : option (string * string) :=
  match s with
  | String c rest =>
      if Ascii.eqb c "." then
        let '(ds, r) := take_digits rest in
        match ds with
        | EmptyString => None
        | _ => Some (String c ds, r)
        end
      else Some ("", s)
  | EmptyString => Some ("", s)
  end.

(** [exp]: nothing, or e/E, an optional sign and one or more digits. *)
Definition parse_exp (s : string) : option (string * string) :=
  match s with
  | String c rest =>
      if Ascii.eqb c "e" || Ascii.eqb c "E" then
        let '(sign, rest') :=
          match rest with
          | String d r =>
              if Ascii.eqb d "+" || Ascii.eqb d "-"
              then (String d "", r) else ("", rest)
          | EmptyString => ("", rest)
          end in
        let '(ds, r) := take_digits rest' in
        match ds with
        | EmptyString => None
        | _ => Some (String c (sign +:+ ds), r)
        end
      else Some ("", s)
  | EmptyString => Some ("", s)
  end.

Definition parse_number (s : string) : option (json * string) :=
  let '(sign, s1) :=
    match s with
    | String c r => if Ascii.eqb c "-" then ("-", r) else ("", s)
    | EmptyString => ("", s)
    end in
  '(i, s2) ← parse_int s1;
  '(f, s3) ← parse_frac s2;
  '(e, s4) ← parse_exp s3;
  Some (JNumber (sign +:+ i +:+ f +:+ e), s4).

Definition hex_digit (c : ascii) : option N :=
  let n := N_of_ascii c in
  if (48 <=? n)%N && (n <=? 57)%N then Some (n - 48)%N
  else if (97 <=? n)%N && (n <=? 102)%N then Some (n - 87)%N
  else if (65 <=? n)%N && (n <=? 70)%N then Some (n - 55)%N
  else None.

(** UTF-8 of a code point of the basic plane. *)
Definition utf8 (n : N) : string :=
  if (n <? 128)%N then String (ascii_of_N n) ""
  else if (n <? 2048)%N then
    String (ascii_of_N (192 + n / 64))
      (String (ascii_of_N (128 + n mod 64)) "")
  else
    String (ascii_of_N (224 + n / 4096))
      (String (ascii_of_N (128 + (n / 64) mod 64))
         (String (ascii_of_N (128 + n mod 64)) "")).

Definition simple_escape (c : ascii) : option ascii :=
  match nat_of_ascii c with
  | 34 => Some "034"%char       (* quote *)
  | 92 => Some "092"%char       (* backslash *)
  | 47 => Some "/"%char
  | 98 => Some "008"%char       (* b *)
  | 102 => Some "012"%char      (* f *)
  | 110 => Some "010"%char      (* n *)
  | 114 => Some "013"%char      (* r *)
  | 116 => Some "009"%char      (* t *)
  | _ => None
  end.

(** The characters of a string, after its opening quote, up to and
    including the closing quote; escapes are decoded. *)
Fixpoint parse_chars (s : string) : option (string * string) :=
  match s with
  | EmptyString => None
  | String c rest =>
      if Ascii.eqb c quote then Some ("", rest)
      else if Ascii.eqb c backslash then
        match rest with
        | String e rest1 =>
            match simple_escape e with
            | Some ch =>
                '(str, r) ← parse_chars rest1; Some (String ch str, r)
            | None =>
                if Ascii.eqb e "u" then
                  match rest1 with
                  | String h1 (String h2 (String h3 (String h4 rest2))) =>
                      d1 ← hex_digit h1; d2 ← hex_digit h2;
                      d3 ← hex_digit h3; d4 ← hex_digit h4;
                      '(str, r) ← parse_chars rest2;
                      Some (utf8 (((d1 * 16 + d2) * 16 + d3) * 16 + d4)%N
                            +:+ str, r)
                  | _ => None
                  end
                else None
            end
        | EmptyString => None
        end
      else if nat_of_ascii c <? 32 then None
      else '(str, r) ← parse_chars rest; Some (String c str, r)
  end.

Section Containers.
Variable parse_value : string → option (json * string).

(** The values of an array, from the first one to the closing
    bracket. *)
Fixpoint parse_elements (n : nat) (s : string)
  : option (list json * string) :=
  match n with
  | O => None
  | S n' =>
      '(v, r) ← parse_value s;
      match skip_ws r with
      | String c r' =>
          if Ascii.eqb c "," then
            '(vs, r'') ← parse_elements n' r'; Some (v :: vs, r'')
          else if Ascii.eqb c "]" then Some ([v], r')
          else None
      | EmptyString => None
      end
  end.

(** The members of an object, from the first key to the closing
    brace. *)
Fixpoint parse_members (n : nat) (s : string)
  : option (list (string * json) * string) :=
  match n with
  | O => None
  | S n' =>
      match skip_ws s with
      | String q r =>
          if Ascii.eqb q quote then
            '(k, r1) ← parse_chars r;
            match skip_ws r1 with
            | String c r2 =>
                if Ascii.eqb c ":" then
                  '(v, r3) ← parse_value r2;
                  match skip_ws r3 with
                  | String c' r4 =>
                      if Ascii.eqb c' "," then
                        '(ms, r5) ← parse_members n' r4;
                        Some ((k, v) :: ms, r5)
                      else if Ascii.eqb c' "}" then Some ([(k, v)], r4)
                      else None
                  | EmptyString => None
                  end
                else None
            | EmptyString => None
            end
          else None
      | EmptyString => None
      end
  end.
End Containers.

Definition parse_word (word : string) (v : json) (s : string)
  : option (json * string) :=
  if String.prefix word s
  then Some (v, String.substring (String.length word)
                  (String.length s - String.length word) s)
  else None.

Fixpoint parse_value (fuel : nat) (s : string) : option (json * string) :=
  match fuel with
  | O => None
  | S fuel' =>
      match skip_ws s with
      | EmptyString => None
      | String c rest =>
          if Ascii.eqb c "{" then
            match skip_ws rest with
            | String c' r =>
                if Ascii.eqb c' "}" then Some (JObject [], r)
                else '(ms, r') ← parse_members (parse_value fuel') fuel'
                                    rest;
                     Some (JObject ms, r')
            | EmptyString => None
            end
          else if Ascii.eqb c "[" then
            match skip_ws rest with
            | String c' r =>
                if Ascii.eqb c' "]" then Some (JArray [], r)
                else '(vs, r') ← parse_elements (parse_value fuel') fuel'
                                    rest;
                     Some (JArray vs, r')
            | EmptyString => None
            end
          else if Ascii.eqb c quote then
            '(str, r) ← parse_chars rest; Some (JString str, r)
          else if Ascii.eqb c "t" then parse_word "true" (JBool true)
                                                  (String c rest)
          else if Ascii.eqb c "f" then parse_word "false" (JBool false)
                                                  (String c rest)
          else if Ascii.eqb c "n" then parse_word "null" JNull
                                                  (String c rest)
          else parse_number (String c rest)
      end
  end.

(** A whole text: one value, and white space around it.  Each level of
    nesting and each member uses up at least one character, so the
    length of the text is fuel enough. *)
Definition parse (text : string) : option json :=
  match parse_value (S (String.length text)) text with
  | Some (v, rest) =>
      match skip_ws rest with
      | EmptyString => Some v
      | String _ _ => None
      end
  | None => None
  end.

(** [obj[key]]; of two members with the same key the last one counts. *)
Fixpoint member (key : string) (ms : list (string * json)) : option json :=
  match ms with
  | [] => None
  | (k, v) :: ms' =>
      match member key ms' with
      | Some v' => Some v'
      | None => if String.eqb k key then Some v else None
      end
  end.

End Json.

(** Ready, as the spec has it: the body parses and its "data" is a
    listing with at least one entry. *)
Definition spec_ready (text : string) : bool :=
  match Json.parse text with
  | Some (Json.JObject ms) =>
      match Json.member "data" ms with
      | Some (Json.JArray (_ :: _)) => true
      | _ => false
      end
  | _ => false
  end.

(** Ready, as the script has it (line 37). *)
Definition code_ready (text : string) : bool := str_in "data" text.

(** [s] between double quotes. *)
Definition quoted (s : string) : string := dquote +:+ s +:+ dquote.

(** The body of a server with one model loaded,
    [{"object":"list","data":[{"id":"m","object":"model"}]}]. *)
Definition models_listing : string :=
  "{" +:+ quoted "object" +:+ ":" +:+ quoted "list" +:+ "," +:+
  quoted "data" +:+ ":[{" +:+ quoted "id" +:+ ":" +:+ quoted "m" +:+ "," +:+
  quoted "object" +:+ ":" +:+ quoted "model" +:+ "}]}".

(** The body of a server with nothing to serve,
    [{"object":"list","data":[]}]. *)
Definition empty_listing : string :=
  "{" +:+ quoted "object" +:+ ":" +:+ quoted "list" +:+ "," +:+
  quoted "data" +:+ ":[]}".

(** A body that is no JSON at all. *)
Definition error_page : string := "<html>503: model data is loading</html>".

(** A server that answers every request with [text], 5 ms later. *)
Definition serving (status : Z) (text : string) : Oracle :=
  mkOracle (λ _, (5%N, Response status text)) (λ _, Exited 0)
           (λ _, Some Running) (λ _ _, false).

(** ** Concrete worlds *)

(** A world with nothing running and nothing logged, at time 0. *)
Definition idle_world (o : Oracle) (env : gmap string string) : World :=
  mkWorld o env 0 0 ∅ [].

(** Every command succeeds and the server answers at once. *)
Definition healthy : Oracle := serving 200 models_listing.

(** Every command succeeds, but each request to the server hangs for the
    whole second that [requests.get(url, timeout=1)] allows and then
    raises. *)
Definition hanging : Oracle :=
  mkOracle (λ _, (1000%N, RequestRaises (RequestException ConnectTimeout)))
           (λ _, Exited 0) (λ _, Some Running)
           (λ _ _, false).

(** The server answers, but installing vllm fails with exit status 1. *)
Definition broken_install : Oracle :=
  mkOracle (endpoint healthy)
           (λ argv, if bool_decide (argv = vllm_install_cmd)
                    then Exited 1 else Exited 0)
           (λ _, Some Running) (λ _ _, false).

(** The job objects that [main] builds, for the default arguments. *)
Definition default_cfg : Config :=
  mkConfig 8080 "meta-llama/Llama-3.1-8B-Instruct" "".

Definition vllm_self : BaseJob :=
  BaseJob_init "vllm" default_cfg "/bench" "/bench/logs".

Definition sglang_self : BaseJob :=
  BaseJob_init "sglang" default_cfg "/bench" "/bench/logs".

(** A run with [--cuda-device 1] from a shell that exports device 0. *)
Definition shell_env : gmap string string :=
  <["CUDA_VISIBLE_DEVICES" := "0"]> (<["PATH" := "/usr/bin"]> ∅).

Definition gpu_self : BaseJob :=
  BaseJob_init "sglang"
    (mkConfig 8080 "meta-llama/Llama-3.1-8B-Instruct" "1")
    "/bench" "/bench/logs".

(** The jobs of [main], in order. *)
Definition vllm_job : Job :=
  VLLMJob 100 "vllm" default_cfg "/bench" "/bench/logs".

Definition sglang_job : Job :=
  SGLangJob 100 "sglang" default_cfg "/bench" "/bench/logs".

Definition main_jobs : list Job := [vllm_job; sglang_job].

(** The server answers, but the vllm benchmark script exits with
    status 1. *)
Definition broken_benchmark : Oracle :=
  mkOracle (endpoint healthy)
           (λ argv, if bool_decide
                         (argv = ["bash"; "-c"; bench_cmd vllm_self "vllm"])
                    then Exited 1 else Exited 0)
           (λ _, Some Running) (λ _ _, false).

(** Every command succeeds and the port is closed: each request is
    refused at once. *)
Definition refusing : Oracle :=
  mkOracle (λ _, (0%N, RequestRaises (RequestException ConnectionRefused)))
           (λ _, Exited 0) (λ _, Some Running)
           (λ _ _, false).

(** * The start-up code (lines 15-21, 45-76, 243-260) *)

(** [os.getenv(key, default)]. *)
Definition os_getenv (key dflt : string) : M string := λ w,
  Some (w, Return (default dflt (environ w !! key))).

(** ** parse_args (lines 15-21)

    [argparse] itself is not embedded.  [parse_args_defaults] is
    [parse_args()] on a command line without options: every option takes
    its default, and the default of [--cuda-device] is read from the
    environment when the parser is built (line 19). *)
Definition parse_args_defaults : M Config :=
  dev <- os_getenv "CUDA_VISIBLE_DEVICES" "" ;;
  ret (mkConfig 8080 "meta-llama/Llama-3.1-8B-Instruct" dev).

(** ** ensure_uv (lines 45-48)

    [which_uv] is what [shutil.which("uv")] finds: the path of the
    executable, or [None]. *)
Definition install_uv_cmd : list string :=
  ["bash"; "-c"; "curl -LsSf https://astral.sh/uv/install.sh | sh"].

Definition ensure_uv (which_uv : option string) (logger : string) : M unit :=
  match which_uv with
  | None =>
      logger_info logger "`uv` not found; installing via astral.sh..." ;;
      run_cmd install_uv_cmd None (Some logger)
  | Some _ => ret tt
  end.

(** ** global_setup (lines 51-76) *)

(** [for x in xs: body x]. *)
Fixpoint for_each {A} (xs : list A) (body : A → M unit) : M unit :=
  match xs with
  | [] => ret tt
  | x :: xs' => body x ;; for_each xs' body
  end.

(** [shutil.rmtree(p, ignore_errors=True)] never raises; the file system
    is outside the model. *)
Definition shutil_rmtree_ignore_errors (p : string) : M unit := ret tt.

Definition to_remove (root_dir : string) : list string :=
  [path_join root_dir "benchmark-compare";
   path_join root_dir "venv-vllm";
   path_join root_dir "venv-vllm-src";
   path_join root_dir "venv-sgl"].

Definition clone_benchmark_cmd (root_dir : string) : list string :=
  ["git"; "clone";
   "https://github.com/neuralmagic/benchmark-compare.git";
   path_join root_dir "benchmark-compare"].

Definition vllm_dir (root_dir : string) : string :=
  path_join (path_join root_dir "benchmark-compare") "vllm".

Definition clone_vllm_cmd (root_dir : string) : list string :=
  ["git"; "clone"; "https://github.com/vllm-project/vllm.git";
   vllm_dir root_dir].

Definition checkout_cmd (root_dir : string) : list string :=
  ["git"; "-C"; vllm_dir root_dir; "checkout"; "benchmark-output"].

Definition global_setup (which_uv : option string) (root_dir : string)
    (logger : string) : M unit :=
  for_each (to_remove root_dir)
    (λ p, logger_info logger ("Removing " +:+ p) ;;
          shutil_rmtree_ignore_errors p) ;;
  ensure_uv which_uv logger ;;
  (* clone benchmark-compare *)
  run_cmd (clone_benchmark_cmd root_dir) None (Some logger) ;;
  (* clone vllm@benchmark-output *)
  run_cmd (clone_vllm_cmd root_dir) None (Some logger) ;;
  run_cmd (checkout_cmd root_dir) None (Some logger).

(** ** main (lines 243-260)

    [cfg] is what [parse_args()] returned, [root] is [Path.cwd()] and
    [which_uv] what [shutil.which("uv")] finds.  Making the logs directory
    and opening the log files of the jobs act on the file system only. *)
Definition results_line : string :=
  "✅ Benchmark results are in benchmark-compare/results.json".

Definition main (fuel : nat) (which_uv : option string) (cfg : Config)
    (root : string) : M unit :=
  let logs := path_join root "logs" in
  logger_info "main" ("Using port: " +:+ str_int (cfg_port cfg)) ;;
  global_setup which_uv root "main" ;;
  let jobs := [VLLMJob fuel "vllm" cfg root logs;
               SGLangJob fuel "sglang" cfg root logs] in
  run_jobs jobs "main" ;;
  logger_info "main" results_line.

(** A job object of the base class itself, whose [run] is not
    implemented (lines 93-94). *)
Definition BaseJob_job (name : string) (cfg : Config)
    (root_dir logs_dir : string) : Job :=
  mkJob name (BaseJob_run (BaseJob_init name cfg root_dir logs_dir)).

(** * Vocabulary of the further properties *)

(** The commands that were run, oldest first, in a trace (newest
    first). *)
Fixpoint argv_run (t : list Event) : list (list string) :=
  match t with
  | [] => []
  | EvRun argv _ _ :: t' => argv_run t' ++ [argv]
  | _ :: t' => argv_run t'
  end.

(** The command exits with status 0. *)
Definition exits_ok (o : Oracle) (c : list string) : Prop :=
  command o c = Exited 0.

(** What a script does that starts the commands [cmds] one after the
    other and goes on only after an exit status of 0.

    [script_runs] lists the children it runs: those of the commands
    before the first failing one, all of which exit with 0, and the child
    of the failing command itself when it could be started.  No command
    after the first failing one is started. *)
Fixpoint script_runs (o : Oracle) (cmds : list (list string))
  : list (list string) :=
  match cmds with
  | [] => []
  | c :: rest =>
      match command o c with
      | Exited rc => c :: (if (rc =? 0)%Z then script_runs o rest else [])
      | NotStarted _ => []
      end
  end.

(** [script_result] is how it ends: it returns when every command exits
    with 0, and raises the error of the first failing command
    otherwise. *)
Fixpoint script_result (o : Oracle) (cmds : list (list string))
  : result unit :=
  match cmds with
  | [] => Return tt
  | c :: rest =>
      match command o c with
      | Exited rc =>
          if (rc =? 0)%Z then script_result o rest
          else Raise (CalledProcessError rc c)
      | NotStarted err => Raise (OSError_of err)
      end
  end.

(** [m] is a fail-fast script over the commands [cmds]: it always ends,
    and ends as [script_result] says; the children it runs are those of
    [script_runs], in that order, so it stops at the first command that
    fails; it does nothing else than run commands and log, and touches
    neither the process table nor [os.environ]. *)
Definition fail_fast (cmds : list (list string)) (m : M unit) : Prop :=
  ∀ w, ∃ w' evs,
    m w = Some (w', script_result (oracle w) cmds) ∧
    trace w' = evs ++ trace w ∧
    oracle w' = oracle w ∧ environ w' = environ w ∧ procs w' = procs w ∧
    only commands_only evs ∧
    argv_run evs = script_runs (oracle w) cmds.

(** The commands of [global_setup], in the order they run. *)
Definition setup_cmds (which_uv : option string) (root_dir : string)
  : list (list string) :=
  match which_uv with
  | None => [install_uv_cmd]
  | Some _ => []
  end ++
  [clone_benchmark_cmd root_dir; clone_vllm_cmd root_dir;
   checkout_cmd root_dir].

(** [m] returns only if the commands [cmds] all exit with 0; it leaves
    the oracle alone. *)
Definition requires (cmds : list (list string)) {A} (m : M A) : Prop :=
  ∀ w w' a, m w = Some (w', Return a) →
    oracle w' = oracle w ∧ Forall (exits_ok (oracle w)) cmds.

(** All the commands a job runs with [run_cmd] or [check=True], in the
    order they run. *)
Definition job_cmds (fw : framework) (self : BaseJob) : list (list string) :=
  match fw with
  | Vllm =>
      [vllm_venv_cmd; vllm_install_cmd;
       ["uv"; "venv"; "venv-vllm-src"; "--python"; "3.12"];
       ["bash"; "-c"; vllm_deps_cmd];
       ["bash"; "-c"; bench_cmd self "vllm"]]
  | Sglang =>
      [sglang_venv_cmd; ["bash"; "-c"; sglang_install_cmd];
       ["bash"; "-c"; bench_cmd self "sgl"]]
  end.

(** The time at which the [k]-th poll of a probe begins, counted from the
    start of the probe, when the polls before it were not ready: each of
    them took its request and then the sleep.  [first] is the number of
    requests issued before the probe. *)
Fixpoint poll_start (o : Oracle) (interval : Z) (first k : nat) : Z :=
  match k with
  | O => 0
  | S k' =>
      Z.of_N (fst (endpoint o first)) + interval +
      poll_start o interval (S first) k'
  end.

(** A server that refuses the first [k] requests and answers with the
    listing of its model from then on. *)
Definition ready_after (k : nat) : Oracle :=
  mkOracle (λ j, if j <? k
                 then (0%N, RequestRaises (RequestException ConnectionRefused))
                 else (5%N, Response 200 models_listing))
           (λ _, Exited 0) (λ _, Some Running) (λ _ _, false).

(** Cloning vllm fails with exit status 128. *)
Definition broken_clone : Oracle :=
  mkOracle (endpoint healthy)
           (λ argv, if bool_decide (argv = clone_vllm_cmd "/bench")
                    then Exited 128 else Exited 0)
           (λ _, Some Running) (λ _ _, false).

(** The events that leave the process table alone. *)
Definition quiet (k : kind) : bool :=
  match k with KLog | KRun | KGet | KSleep => true | _ => false end.

(** The endpoint is interrupted from the keyboard at the first request. *)
Definition interrupted : Oracle :=
  mkOracle (λ _, (0%N, RequestRaises KeyboardInterrupt))
           (λ _, Exited 0) (λ _, Some Running) (λ _ _, false).

(** Every command succeeds and the server answers at once, but [pkill]
    may not be executed. *)
Definition no_pkill : Oracle :=
  mkOracle (endpoint healthy)
           (λ argv, if bool_decide (argv = pkill_cmd)
                    then NotStarted (EACCES "pkill") else Exited 0)
           (λ _, Some Running) (λ _ _, false).

(** [uv] is not installed: no command that starts with it can be
    started. *)
Definition no_uv : Oracle :=
  mkOracle (endpoint healthy)
           (λ argv, if bool_decide (head argv = Some "uv")
                    then NotStarted (ENOENT "uv") else Exited 0)
           (λ _, Some Running) (λ _ _, false).

(** The port is closed, and the sum of line 33 is rounded up. *)
Definition refusing_rounded_up : Oracle :=
  mkOracle (endpoint refusing) (command refusing) (shell_spawns refusing)
           (λ _ _, true).

(** The server exits by itself, with status 1, before it ever listens:
    the port stays closed. *)
Definition crashing : Oracle :=
  mkOracle (endpoint refusing) (λ _, Exited 0) (λ _, Some (Zombie 1))
           (λ _ _, false).

(** A world with nothing running and nothing logged, whose clock reads
    [t]. *)
Definition world_at (t : Z) (o : Oracle) : World := mkWorld o ∅ t 0 ∅ [].

(** [m] issues no request. *)
Definition keeps_requests {A} (m : M A) : Prop :=
  ∀ w w' r, m w = Some (w', r) → requests w' = requests w.

(** The command line of the benchmark script of a job. *)
Definition bench_argv (fw : framework) (self : BaseJob) : list string :=
  match fw with
  | Vllm => ["bash"; "-c"; bench_cmd self "vllm"]
  | Sglang => ["bash"; "-c"; bench_cmd self "sgl"]
  end.
(** * Reasoning about runs *)

(** ** Inversion of the monad *)

Lemma bind_inv {A B} (m : M A) (k : A → M B) w w' r :
  bind m k w = Some (w', r) →
  (∃ w1 a, m w = Some (w1, Return a) ∧ k a w1 = Some (w', r)) ∨
  (∃ e, m w = Some (w', Raise e) ∧ r = Raise e).
Proof.
  unfold bind. destruct (m w) as [[w1 [a|e]]|]; intros H.
  - left. eauto.
  - right. exists e. by inversion H.
  - discriminate.
Qed.

Lemma bind_Return {A B} (m : M A) (k : A → M B) w w1 a :
  m w = Some (w1, Return a) → bind m k w = k a w1.
Proof. unfold bind. by intros ->. Qed.

Lemma bind_Raise {A B} (m : M A) (k : A → M B) w w1 e :
  m w = Some (w1, Raise e) → bind m k w = Some (w1, Raise e).
Proof. unfold bind. by intros ->. Qed.

Lemma count_kind_app k t1 t2 :
  count_kind k (t1 ++ t2) = count_kind k t1 + count_kind k t2.
Proof. induction t1 as [|ev t1 IH]; simpl; [done|]. rewrite IH. lia. Qed.

Lemma count_kind_only ok k evs :
  only ok evs → ok k = false → count_kind k evs = 0.
Proof.
  induction 1 as [|ev evs Hev _ IH]; intros Hk; simpl; [done|].
  rewrite IH by done. case_bool_decide; [congruence|done].
Qed.

Lemma extends_count ok k w w' :
  extends ok w w' → ok k = false →
  count_kind k (trace w') = count_kind k (trace w).
Proof.
  intros [_ _ (evs & -> & Hevs) _] Hk.
  rewrite count_kind_app, (count_kind_only ok) by done. done.
Qed.

Lemma extends_refl ok w : extends ok w w.
Proof. split; try done. exists []. split; [done|constructor]. Qed.

Lemma extends_trans ok w1 w2 w3 :
  extends ok w1 w2 → extends ok w2 w3 → extends ok w1 w3.
Proof.
  intros [Ho1 He1 (evs1 & Ht1 & H1) Hp1] [Ho2 He2 (evs2 & Ht2 & H2) Hp2].
  split; try congruence.
  - exists (evs2 ++ evs1). rewrite Ht2, Ht1, app_assoc. split; [done|].
    unfold only in *. by apply Forall_app.
  - intros. rewrite Hp2, Hp1 by done. done.
Qed.

Lemma extends_push ok ev w :
  ok (kind_of ev) = true → extends ok w (push ev w).
Proof.
  intros Hev. split; try done. exists [ev]. split; [done|].
  by repeat constructor.
Qed.

Lemma extends_elapse ok ms w : extends ok w (elapse ms w).
Proof. split; try done. exists []. split; [done|constructor]. Qed.

Lemma extends_count_request ok w : extends ok w (count_request w).
Proof. split; try done. exists []. split; [done|constructor]. Qed.

Lemma behaves_ret {A} ok ex (a : A) : behaves ok ex (ret a).
Proof.
  intros w w' r [= <- <-]. split; [apply extends_refl|discriminate].
Qed.

Lemma behaves_raise {A} ok ex e : ex e = true → behaves ok ex (@raise A e).
Proof.
  intros He w w' r [= <- <-]. split; [apply extends_refl|].
  by intros ? [= <-].
Qed.

Lemma behaves_bind {A B} ok ex (m : M A) (k : A → M B) :
  behaves ok ex m → (∀ a, behaves ok ex (k a)) → behaves ok ex (bind m k).
Proof.
  intros Hm Hk w w' r H.
  apply bind_inv in H as [(w1 & a & H1 & H2)|(e & H1 & ->)].
  - destruct (Hm _ _ _ H1) as [E1 _]. destruct (Hk _ _ _ _ H2) as [E2 Hr].
    split; [by eapply extends_trans|done].
  - destruct (Hm _ _ _ H1) as [E1 Hr]. split; [done|].
    intros e' [= <-]. by apply Hr.
Qed.

Lemma behaves_emit ok ex ev :
  ok (kind_of ev) = true → behaves ok ex (emit ev).
Proof.
  intros Hev w w' r [= <- <-]. split; [by apply extends_push|discriminate].
Qed.

Lemma behaves_logger_info ok ex logger s :
  ok KLog = true → behaves ok ex (logger_info logger s).
Proof. intros. by apply behaves_emit. Qed.

Lemma behaves_self_info ok ex self s :
  ok KLog = true → behaves ok ex (self_info self s).
Proof. intros. by apply behaves_emit. Qed.

Lemma behaves_time_time ok ex : behaves ok ex time_time.
Proof.
  intros w w' r [= <- <-]. split; [apply extends_refl|discriminate].
Qed.

Lemma behaves_time_sleep ok ex ms :
  ok KSleep = true → ex ValueError = true → behaves ok ex (time_sleep ms).
Proof.
  intros Hok Hex w w' r. unfold time_sleep.
  destruct (ms <? 0)%Z; intros [= <- <-].
  - split; [apply extends_refl|]. by intros ? [= <-].
  - split; [|discriminate].
    eapply extends_trans; [apply extends_elapse|by apply extends_push].
Qed.

Lemma behaves_subprocess_run ok ex argv cwd check :
  ok KRun = true →
  (∀ rc, ex (CalledProcessError rc argv) = true) →
  (∀ err, ex (OSError_of err) = true) →
  behaves ok ex (subprocess_run argv cwd check).
Proof.
  intros Hok Hex1 Hex2 w w' r. unfold subprocess_run.
  destruct (command _ _) as [rc|err]; [destruct (check && _)|];
    intros [= <- <-].
  - split; [by apply extends_push|]. by intros ? [= <-].
  - split; [by apply extends_push|discriminate].
  - split; [apply extends_refl|]. by intros ? [= <-].
Qed.

Lemma behaves_run_cmd ok ex cmd cwd logger :
  ok KLog = true → ok KRun = true →
  (∀ rc, ex (CalledProcessError rc cmd) = true) →
  (∀ err, ex (OSError_of err) = true) →
  behaves ok ex (run_cmd cmd cwd logger).
Proof.
  intros. unfold run_cmd. apply behaves_bind.
  { destruct logger; [by apply behaves_logger_info|apply behaves_ret]. }
  intros _. apply behaves_bind; [by apply behaves_subprocess_run|].
  intros rc. destruct (rc =? 0)%Z; [apply behaves_ret|by apply behaves_raise].
Qed.

Lemma behaves_spawn_env ok ex self : behaves ok ex (spawn_env self).
Proof.
  intros w w' r [= <- <-]. split; [apply extends_refl|discriminate].
Qed.

Lemma extends_set_procs ok ev ps w :
  ok (kind_of ev) = true →
  kind_of ev = KPopen ∨ kind_of ev = KKillpg ∨ kind_of ev = KReap →
  extends ok w (push ev (set_procs ps w)).
Proof.
  intros Hev Hk. split; try done.
  - exists [ev]. split; [done|]. by repeat constructor.
  - intros. destruct Hk as [Hk|[Hk|Hk]]; rewrite Hk in Hev; congruence.
Qed.

Lemma behaves_subprocess_Popen ok ex cmdline cwd env :
  ok KPopen = true → ex OSError = true →
  behaves ok ex (subprocess_Popen cmdline cwd env).
Proof.
  intros Hok Hex w w' r. unfold subprocess_Popen.
  destruct (shell_spawns _ _); intros [= <- <-].
  - split; [|discriminate]. apply extends_set_procs; auto.
  - split; [apply extends_refl|]. by intros ? [= <-].
Qed.

Lemma behaves_os_getpgid ok ex p :
  ex ProcessLookupError = true → behaves ok ex (os_getpgid p).
Proof.
  intros Hex w w' r. unfold os_getpgid.
  destruct (procs w !! p); intros [= <- <-].
  - split; [apply extends_refl|discriminate].
  - split; [apply extends_refl|]. by intros ? [= <-].
Qed.

Lemma behaves_os_killpg ok ex pg :
  ok KKillpg = true → ex ProcessLookupError = true →
  behaves ok ex (os_killpg pg).
Proof.
  intros Hok Hex w w' r. unfold os_killpg.
  destruct (existsb _ _); intros [= <- <-].
  - split; [|discriminate]. apply extends_set_procs; auto.
  - split; [apply extends_refl|]. by intros ? [= <-].
Qed.

Lemma behaves_Popen_wait ok ex h :
  ok KReap = true → behaves ok ex (Popen_wait h).
Proof.
  intros Hok w w' r. unfold Popen_wait.
  destruct (returncode h); [|destruct (procs w !! pid h) as [[pg [|st]]|]];
    simpl; intros [= <- <-].
  - split; [apply extends_refl|discriminate].
  - split; [|discriminate]. apply extends_set_procs; auto.
  - split; [apply extends_refl|discriminate].
Qed.

Lemma behaves_terminate ok ex proc :
  ok KKillpg = true → ok KReap = true → ex ProcessLookupError = true →
  behaves ok ex (terminate proc).
Proof.
  intros. unfold terminate.
  apply behaves_bind; [by apply behaves_os_getpgid|intros pg].
  apply behaves_bind; [by apply behaves_os_killpg|intros _].
  by apply behaves_Popen_wait.
Qed.

(** The readiness probe only polls and sleeps; whatever the endpoint
    raises, it can only end by returning or by raising [TimeoutError],
    [ValueError] (a negative interval) or an exception that is not an
    [Exception]. *)
Lemma behaves_wait_loop ok ex fuel url deadline interval :
  ok KGet = true → ok KSleep = true →
  (∀ msg, ex (TimeoutError msg) = true) → ex ValueError = true →
  ex KeyboardInterrupt = true →
  behaves ok ex (wait_loop fuel url deadline interval).
Proof.
  intros Hget Hsleep Hto Hve Hki.
  induction fuel as [|fuel IH]; [by intros w w' r|].
  simpl. apply behaves_bind; [apply behaves_time_time|intros t].
  destruct (t <? deadline)%Z; [|by apply behaves_raise].
  apply behaves_bind.
  - intros w w' r. unfold try_except_Exception, bind, requests_get.
    destruct (endpoint _ _) as [d [st text|e]].
    + intros [= <- <-]. split; [|discriminate].
      eapply extends_trans; [apply extends_elapse|].
      eapply extends_trans; [apply extends_count_request|].
      by apply extends_push.
    + assert (extends ok w (push (EvGet url)
                (count_request (elapse (Z.of_N d) w)))) as Hext.
      { eapply extends_trans; [apply extends_elapse|].
        eapply extends_trans; [apply extends_count_request|].
        by apply extends_push. }
      destruct e; simpl; intros [= <- <-]; split;
        try done; try discriminate.
      by intros ? [= <-].
  - intros [|]; [apply behaves_ret|].
    apply behaves_bind; [by apply behaves_time_sleep|done].
Qed.

Lemma behaves_float_add ok ex t0 timeout :
  behaves ok ex (float_add t0 timeout).
Proof.
  intros w w' r [= <- <-]. split; [apply extends_refl|discriminate].
Qed.

Lemma behaves_wait_for_server ok ex fuel host port timeout interval :
  ok KGet = true → ok KSleep = true →
  (∀ msg, ex (TimeoutError msg) = true) → ex ValueError = true →
  ex KeyboardInterrupt = true →
  behaves ok ex (wait_for_server fuel host port timeout interval).
Proof.
  intros. unfold wait_for_server.
  apply behaves_bind; [apply behaves_time_time|intros t0].
  apply behaves_bind; [apply behaves_float_add|intros deadline].
  by apply behaves_wait_loop.
Qed.

(** ** The parts of the two jobs *)

Ltac behaves_step :=
  first
    [ apply behaves_ret
    | apply behaves_self_info; assumption
    | apply behaves_logger_info; assumption
    | apply behaves_spawn_env
    | apply behaves_run_cmd; (assumption || (intros; auto))
    | apply behaves_subprocess_run; (assumption || (intros; auto))
    | apply behaves_subprocess_Popen; assumption
    | apply behaves_wait_for_server; (assumption || (intros; auto))
    | apply behaves_terminate; assumption
    | apply behaves_bind; [|intros ?] ].

Section Parts.
Variables (ok : kind → bool) (ex : exn → bool).
Hypothesis ok_log : ok KLog = true.

Section Commands.
Hypothesis ok_run : ok KRun = true.
Hypothesis ex_called : ∀ rc cmd, ex (CalledProcessError rc cmd) = true.
Hypothesis ex_os_error : ∀ err, ex (OSError_of err) = true.

Lemma behaves_vllm_provision self : behaves ok ex (vllm_provision self).
Proof. unfold vllm_provision. repeat behaves_step. Qed.

Lemma behaves_vllm_setup_src self : behaves ok ex (vllm_setup_src self).
Proof. unfold vllm_setup_src. repeat behaves_step. Qed.

Lemma behaves_vllm_benchmark self : behaves ok ex (vllm_benchmark self).
Proof. unfold vllm_benchmark. repeat behaves_step. Qed.

Lemma behaves_sglang_provision self :
  behaves ok ex (sglang_provision self).
Proof. unfold sglang_provision. repeat behaves_step. Qed.

Lemma behaves_sglang_benchmark self :
  behaves ok ex (sglang_benchmark self).
Proof. unfold sglang_benchmark. repeat behaves_step. Qed.
End Commands.

Section Launch.
Hypothesis ok_popen : ok KPopen = true.
Hypothesis ex_os : ex OSError = true.

Lemma behaves_vllm_launch self : behaves ok ex (vllm_launch self).
Proof. unfold vllm_launch. repeat behaves_step. Qed.

Lemma behaves_sglang_launch self : behaves ok ex (sglang_launch self).
Proof. unfold sglang_launch. repeat behaves_step. Qed.
End Launch.

Section Ready.
Hypothesis ok_get : ok KGet = true.
Hypothesis ok_sleep : ok KSleep = true.
Hypothesis ex_timeout : ∀ msg, ex (TimeoutError msg) = true.
Hypothesis ex_value : ex ValueError = true.
Hypothesis ex_interrupt : ex KeyboardInterrupt = true.

Lemma behaves_vllm_wait_ready fuel self :
  behaves ok ex (vllm_wait_ready fuel self).
Proof. unfold vllm_wait_ready. repeat behaves_step. Qed.

Lemma behaves_sglang_wait_ready fuel self :
  behaves ok ex (sglang_wait_ready fuel self).
Proof. unfold sglang_wait_ready. repeat behaves_step. Qed.
End Ready.

Section Teardown.
Hypothesis ok_killpg : ok KKillpg = true.
Hypothesis ok_reap : ok KReap = true.
Hypothesis ex_lookup : ex ProcessLookupError = true.

Lemma behaves_vllm_teardown self proc :
  behaves ok ex (vllm_teardown self proc).
Proof. unfold vllm_teardown. repeat behaves_step. Qed.

Lemma behaves_sglang_teardown self proc :
  behaves ok ex (sglang_teardown self proc).
Proof. unfold sglang_teardown. repeat behaves_step. Qed.
End Teardown.
End Parts.

(** * The readiness probe *)

Lemma wait_loop_unfold fuel url deadline interval w :
  (now w < deadline)%Z →
  wait_loop (S fuel) url deadline interval w =
    match endpoint (oracle w) (requests w) with
    | (d, Response _ text) =>
        if str_in "data" text
        then Some (after_request url d w, Return tt)
        else (time_sleep interval ;; wait_loop fuel url deadline interval)
               (after_request url d w)
    | (d, RequestRaises e) =>
        if is_Exception e
        then (time_sleep interval ;; wait_loop fuel url deadline interval)
               (after_request url d w)
        else Some (after_request url d w, Raise e)
    end.
Proof.
  intros Hlt. apply Z.ltb_lt in Hlt.
  cbn [wait_loop]. unfold bind at 1. unfold time_time. rewrite Hlt.
  unfold bind at 1. unfold try_except_Exception, bind at 1, requests_get.
  destruct (endpoint _ _) as [d [st text|e]]; fold (after_request url d w).
  - unfold ret. by destruct (str_in "data" text).
  - by destruct (is_Exception e).
Qed.

Lemma wait_loop_expired fuel url deadline interval w :
  (deadline ≤ now w)%Z →
  wait_loop (S fuel) url deadline interval w =
    Some (w, Raise (TimeoutError ("Timeout waiting for server at " +:+ url))).
Proof.
  intros Hge. apply Z.ltb_ge in Hge.
  cbn [wait_loop]. unfold bind, time_time. by rewrite Hge.
Qed.

(** The probe is the loop, run against the rounded deadline. *)
Lemma wait_for_server_eq fuel host port timeout interval w :
  wait_for_server fuel host port timeout interval w =
    wait_loop fuel (models_url host port)
              (float_sum (oracle w) (now w) timeout) interval w.
Proof. reflexivity. Qed.

Lemma float_sum_bounds o t0 timeout :
  (t0 + timeout ≤ float_sum o t0 timeout ≤ t0 + timeout + 1)%Z.
Proof. unfold float_sum. destruct (_ && _); lia. Qed.

Lemma float_sum_nonpositive o t0 timeout :
  (timeout ≤ 0)%Z → (float_sum o t0 timeout ≤ t0)%Z.
Proof.
  intros Ht. unfold float_sum.
  destruct (Z.eqb_spec timeout 0) as [->|Hne];
    [rewrite andb_false_r|destruct (_ && _)]; lia.
Qed.

(** [str_in] is the substring relation. *)
Lemma append_cons a (s t : string) : String a s +:+ t = String a (s +:+ t).
Proof. reflexivity. Qed.

Lemma append_nil (s : string) : "" +:+ s = s.
Proof. reflexivity. Qed.

Lemma prefix_spec (needle hay : string) :
  String.prefix needle hay = true ↔ ∃ post, hay = needle +:+ post.
Proof.
  revert hay. induction needle as [|a needle IH]; intros hay.
  - split; [by exists hay|by destruct hay].
  - destruct hay as [|b hay]; simpl; [split; [done|by intros [? ?]]|].
    setoid_rewrite append_cons.
    destruct (Ascii.ascii_dec a b) as [->|Hne].
    + rewrite IH. split; intros [post H]; exists post; congruence.
    + split; [done|]. intros [post H]. congruence.
Qed.

Lemma str_in_spec (needle hay : string) :
  str_in needle hay = true ↔ ∃ pre post, hay = pre +:+ needle +:+ post.
Proof.
  induction hay as [|b hay IH]; cbn [str_in].
  - rewrite orb_false_r, prefix_spec. split.
    + intros [post H]. by exists "", post.
    + intros ([|c pre] & post & H); [by exists post|discriminate].
  - rewrite orb_true_iff, prefix_spec, IH. split.
    + intros [[post H]|(pre & post & H)].
      * by exists "", post.
      * exists (String b pre), post. rewrite append_cons. congruence.
    + intros ([|c pre] & post & H).
      * left. by exists post.
      * right. exists pre, post. rewrite append_cons in H. congruence.
Qed.

(** C9: with a timeout of zero or less, [wait_for_server] raises
    [TimeoutError] at once and leaves the world as it found it: no request
    was issued, the clock did not move, nothing was logged. *)
Theorem wait_for_server_nonpositive_timeout
    fuel host port timeout interval w :
  (timeout ≤ 0)%Z →
  wait_for_server (S fuel) host port timeout interval w =
    Some (w, Raise (TimeoutError (timeout_message host port))).
Proof.
  intros Ht. rewrite wait_for_server_eq.
  apply wait_loop_expired. by apply float_sum_nonpositive.
Qed.

Lemma wait_for_server_nonpositive_timeout_witness :
  (-5 ≤ 0)%Z ∧
  wait_for_server 1 "localhost" 8080 (-5) 2000 (idle_world healthy ∅) =
    Some (idle_world healthy ∅,
          Raise (TimeoutError (timeout_message "localhost" 8080))).
Proof.
  split; [lia|].
  apply (wait_for_server_nonpositive_timeout 0 "localhost" 8080 (-5) 2000).
  lia.
Defined.

(** With a positive interval every turn of the loop moves the clock on
    by at least the interval, so the loop ends, given fuel for the polls
    that fit before the deadline; it ends by returning, by
    [TimeoutError], or by an exception of a request that is not an
    [Exception]. *)
Lemma wait_loop_total url interval :
  (0 < interval)%Z →
  ∀ fuel deadline w,
    1 ≤ fuel →
    (deadline - now w ≤ (Z.of_nat fuel - 1) * interval)%Z →
    ∃ w' r,
      wait_loop fuel url deadline interval w = Some (w', r) ∧
      (r = Return tt ∨
       r = Raise (TimeoutError ("Timeout waiting for server at " +:+ url)) ∨
       r = Raise KeyboardInterrupt).
Proof.
  intros Hpos. induction fuel as [|fuel IH]; intros deadline w Hfuel Hbound;
    [lia|].
  destruct (Z.lt_ge_cases (now w) deadline) as [Hlt|Hge].
  2:{ rewrite wait_loop_expired by done.
      eexists _, _. split; [reflexivity|]. auto. }
  rewrite wait_loop_unfold by done.
  destruct (endpoint (oracle w) (requests w)) as [d out].
  set (w1 := after_request url d w).
  assert ((time_sleep interval ;; wait_loop fuel url deadline interval) w1 =
          wait_loop fuel url deadline interval
            (push (EvSleep interval) (elapse interval w1))) as Hsleep.
  { unfold bind, time_sleep.
    by destruct (Z.ltb_spec interval 0) as [?|_]; [lia|]. }
  assert (∃ w' r,
            (time_sleep interval ;; wait_loop fuel url deadline interval) w1 =
              Some (w', r) ∧
            (r = Return tt ∨
             r = Raise (TimeoutError
                          ("Timeout waiting for server at " +:+ url)) ∨
             r = Raise KeyboardInterrupt)) as Hnext.
  { rewrite Hsleep. apply IH; simpl; nia. }
  destruct out as [st text|e].
  - destruct (str_in "data" text); [|done].
    eexists _, _. split; [reflexivity|]. auto.
  - destruct (is_Exception e) eqn:He; [done|].
    destruct e; try discriminate.
    eexists _, _. split; [reflexivity|]. auto.
Qed.

Lemma wait_for_server_total fuel host port timeout interval w :
  (0 < interval)%Z →
  Z.to_nat (timeout / interval) + 2 ≤ fuel →
  ∃ w' r,
    wait_for_server fuel host port timeout interval w = Some (w', r) ∧
    (r = Return tt ∨ r = Raise (TimeoutError (timeout_message host port)) ∨
     r = Raise KeyboardInterrupt).
Proof.
  intros Hpos Hfuel. rewrite wait_for_server_eq.
  apply wait_loop_total; [done|lia|].
  destruct (Z.le_gt_cases timeout 0) as [Hle|Hgt].
  { pose proof (float_sum_nonpositive (oracle w) (now w) timeout Hle). nia. }
  pose proof (float_sum_bounds (oracle w) (now w) timeout) as Hsum.
  assert (timeout / interval < Z.of_nat fuel - 1)%Z as Hq.
  { pose proof (Z.div_pos timeout interval). lia. }
  pose proof (Z.mod_pos_bound timeout interval Hpos).
  pose proof (Z.div_mod timeout interval). nia.
Qed.

(** C7: when a request raises a transport error (or any other
    [Exception]) before the deadline, the loop goes on exactly as after a
    response that is not ready: it sleeps for the interval and polls
    again.  The call then ends, and never with the error of that request:
    it returns (readiness), or raises [TimeoutError], or ends with an
    exception that [except Exception] does not cover. *)
Theorem transport_error_is_not_fatal fuel url deadline interval w d e :
  (now w < deadline)%Z →
  endpoint (oracle w) (requests w) = (d, RequestRaises e) →
  is_Exception e = true →
  (0 < interval)%Z →
  (deadline - now w ≤ Z.of_nat fuel * interval)%Z →
  wait_loop (S fuel) url deadline interval w =
    (time_sleep interval ;; wait_loop fuel url deadline interval)
      (after_request url d w) ∧
  ∃ w' r,
    wait_loop (S fuel) url deadline interval w = Some (w', r) ∧
    (r = Return tt ∨
     r = Raise (TimeoutError ("Timeout waiting for server at " +:+ url)) ∨
     r = Raise KeyboardInterrupt).
Proof.
  intros Hlt Hreq He Hpos Hfuel. split.
  - rewrite wait_loop_unfold, Hreq, He by done. done.
  - apply wait_loop_total; [done|lia|lia].
Qed.

Lemma transport_error_is_not_fatal_witness :
  (now (idle_world refusing ∅) < 120000)%Z ∧
  wait_loop 62 "u" 120000 2000 (idle_world refusing ∅) =
    (time_sleep 2000 ;; wait_loop 61 "u" 120000 2000)
      (after_request "u" 0 (idle_world refusing ∅)) ∧
  ∃ w' r,
    wait_loop 62 "u" 120000 2000 (idle_world refusing ∅) = Some (w', r) ∧
    (r = Return tt ∨
     r = Raise (TimeoutError ("Timeout waiting for server at " +:+ "u")) ∨
     r = Raise KeyboardInterrupt).
Proof.
  split; [simpl; lia|].
  apply (transport_error_is_not_fatal 61 "u" 120000 2000
           (idle_world refusing ∅) 0
           (RequestException ConnectionRefused)).
  - simpl. lia.
  - reflexivity.
  - reflexivity.
  - lia.
  - simpl. lia.
Defined.

(** C4 (amended): a response is taken as ready exactly when its text
    contains the substring "data"; the probe then returns at once.  A
    response whose text lacks the substring is not ready: the loop sleeps
    for the interval and polls again.  Nothing is parsed, and the status
    code is not looked at. *)
Theorem ready_iff_text_mentions_data
    fuel url deadline interval w d status text :
  (now w < deadline)%Z →
  endpoint (oracle w) (requests w) = (d, Response status text) →
  ((∃ pre post, text = pre +:+ "data" +:+ post) →
   wait_loop (S fuel) url deadline interval w =
     Some (after_request url d w, Return tt)) ∧
  ((¬ ∃ pre post, text = pre +:+ "data" +:+ post) →
   wait_loop (S fuel) url deadline interval w =
     (time_sleep interval ;; wait_loop fuel url deadline interval)
       (after_request url d w)).
Proof.
  intros Hlt Hreq. rewrite wait_loop_unfold, Hreq by done.
  destruct (str_in "data" text) eqn:Hin.
  - apply str_in_spec in Hin. split; [done|]. by intros [].
  - split; [|done]. intros Hsub%str_in_spec. congruence.
Qed.

Lemma ready_iff_text_mentions_data_witness :
  (now (idle_world healthy ∅) < 120000)%Z ∧
  wait_loop 1 "u" 120000 2000 (idle_world healthy ∅) =
    Some (after_request "u" 5 (idle_world healthy ∅), Return tt).
Proof.
  split; [simpl; lia|].
  eapply (ready_iff_text_mentions_data 0 "u" 120000 2000
            (idle_world healthy ∅)).
  - simpl. lia.
  - reflexivity.
  - apply str_in_spec. reflexivity.
Defined.

(** C4 as stated fails.  An error page that is no JSON at all but
    mentions "data" is taken as ready, whatever its status code; and so is
    a well-formed listing that is empty.  In both cases the probe returns
    on that first poll. *)
Lemma ready_classification_counterexample :
  (Json.parse error_page = None ∧
   spec_ready error_page = false ∧
   wait_for_server 1 "localhost" 8080 default_timeout default_interval
                   (idle_world (serving 503 error_page) ∅) =
     Some (after_request (models_url "localhost" 8080) 5
             (idle_world (serving 503 error_page) ∅), Return tt)) ∧
  (Json.parse empty_listing =
     Some (Json.JObject [("object", Json.JString "list");
                         ("data", Json.JArray [])]) ∧
   spec_ready empty_listing = false ∧
   wait_for_server 1 "localhost" 8080 default_timeout default_interval
                   (idle_world (serving 200 empty_listing) ∅) =
     Some (after_request (models_url "localhost" 8080) 5
             (idle_world (serving 200 empty_listing) ∅), Return tt)).
Proof. repeat split; vm_compute; reflexivity. Qed.

(** On the listing of a server with a model loaded the two readings
    agree. *)
Lemma models_listing_ready :
  spec_ready models_listing = true ∧ code_ready models_listing = true.
Proof. split; vm_compute; reflexivity. Qed.

(** Against a service that never gets ready the loop ends with
    [TimeoutError], given fuel for the polls that fit before the
    deadline. *)
Lemma wait_loop_never_ready url interval D :
  (0 < interval)%Z →
  ∀ fuel deadline w,
    never_ready (oracle w) D →
    1 ≤ fuel →
    (deadline - now w ≤ (Z.of_nat fuel - 1) * interval)%Z →
    ∃ w',
      wait_loop fuel url deadline interval w =
        Some (w', Raise (TimeoutError
                           ("Timeout waiting for server at " +:+ url))) ∧
      (deadline ≤ now w')%Z ∧
      ((now w < deadline)%Z → (now w' < deadline + interval + Z.of_N D)%Z) ∧
      ((deadline ≤ now w)%Z → w' = w).
Proof.
  intros Hpos. induction fuel as [|fuel IH]; intros deadline w Hnever Hfuel Hbound;
    [lia|].
  destruct (Z.lt_ge_cases (now w) deadline) as [Hlt|Hge].
  2:{ exists w. rewrite wait_loop_expired by done. repeat split; [done|lia]. }
  rewrite wait_loop_unfold by done.
  destruct (Hnever (requests w)) as [Hd Hnot].
  destruct (endpoint (oracle w) (requests w)) as [d out]. simpl in Hd, Hnot.
  set (w1 := after_request url d w).
  assert ((time_sleep interval ;; wait_loop fuel url deadline interval) w1 =
          wait_loop fuel url deadline interval
            (push (EvSleep interval) (elapse interval w1))) as Hsleep.
  { unfold bind, time_sleep.
    by destruct (Z.ltb_spec interval 0) as [?|_]; [lia|]. }
  destruct (IH deadline (push (EvSleep interval) (elapse interval w1)))
    as (w' & Hrun & Hdl & Hlate & Hsame).
  { done. }
  { simpl in *. nia. }
  { simpl in *. nia. }
  exists w'. split.
  { destruct out as [st text|e]; simpl in Hnot.
    - apply negb_true_iff in Hnot. by rewrite Hnot, Hsleep.
    - by rewrite Hnot, Hsleep. }
  split; [done|]. split; [|lia]. intros _.
  destruct (Z.lt_ge_cases (now w + Z.of_N d + interval) deadline) as [Hl|Hg].
  - apply Hlate. simpl. lia.
  - rewrite Hsame by (simpl; lia). simpl. lia.
Qed.

(** C3 (amended): for 0 < I < T, against a service that never responds
    successfully and whose requests take at most D each, the probe raises
    [TimeoutError] at an elapsed time no earlier than T and no later than
    T + I + D: the deadline is only checked before a poll, and the last
    poll and the sleep after it run to their end.  The upper bound is
    reached when the sum of line 33 is rounded up and a poll begins
    exactly T after the start. *)
Theorem wait_for_server_timeout_window
    fuel host port timeout interval D w :
  (0 < interval < timeout)%Z →
  never_ready (oracle w) D →
  Z.to_nat (timeout / interval) + 2 ≤ fuel →
  ∃ w',
    wait_for_server fuel host port timeout interval w =
      Some (w', Raise (TimeoutError (timeout_message host port))) ∧
    (timeout ≤ now w' - now w ≤ timeout + interval + Z.of_N D)%Z.
Proof.
  intros [Hpos Hlt] Hnever Hfuel. rewrite wait_for_server_eq.
  pose proof (float_sum_bounds (oracle w) (now w) timeout) as Hsum.
  destruct (wait_loop_never_ready (models_url host port) interval D Hpos
              fuel (float_sum (oracle w) (now w) timeout) w)
    as (w' & Hrun & Hdl & Hlate & _); [done|lia| |].
  { assert (timeout / interval < Z.of_nat fuel - 1)%Z as Hq.
    { pose proof (Z.div_pos timeout interval). lia. }
    pose proof (Z.mod_pos_bound timeout interval Hpos).
    pose proof (Z.div_mod timeout interval). nia. }
  exists w'. split; [done|]. lia.
Qed.

Lemma wait_for_server_timeout_window_witness :
  (0 < 500 < 2000)%Z ∧ never_ready hanging 1000 ∧
  ∃ w',
    wait_for_server 6 "localhost" 8080 2000 500 (idle_world hanging ∅) =
      Some (w', Raise (TimeoutError (timeout_message "localhost" 8080))) ∧
    (2000 ≤ now w' - now (idle_world hanging ∅) ≤ 2000 + 500 + 1000)%Z.
Proof.
  assert (never_ready hanging 1000) as Hnever.
  { intros k. split; [simpl; lia|reflexivity]. }
  split; [lia|]. split; [exact Hnever|].
  apply (wait_for_server_timeout_window 6 "localhost" 8080 2000 500 1000
           (idle_world hanging ∅)).
  - lia.
  - exact Hnever.
  - vm_compute. lia.
Defined.

(** C3 as stated fails: with T = 2 s and I = 0.5 s, against a server whose
    every request hangs for the second that [timeout=1] allows, the polls
    start at 0 and 1.5 s, and [TimeoutError] is raised at 3 s, later than
    T + I = 2.5 s. *)
Lemma timeout_window_counterexample :
  (500 < 2000)%Z ∧ never_ready hanging 1000 ∧
  ∃ w',
    wait_for_server 6 "localhost" 8080 2000 500 (idle_world hanging ∅) =
      Some (w', Raise (TimeoutError (timeout_message "localhost" 8080))) ∧
    (now w' - now (idle_world hanging ∅) = 3000)%Z ∧
    ¬ (now w' - now (idle_world hanging ∅) ≤ 2000 + 500)%Z.
Proof.
  split; [lia|]. split.
  { intros k. split; [simpl; lia|reflexivity]. }
  eexists. split; [vm_compute; reflexivity|]. simpl. lia.
Qed.

(** * The jobs *)

Lemma run_of_eq fw fuel self :
  run_of fw fuel self =
    (self_info self (banner_of fw) ;;
     provision_of fw self ;;
     proc <- launch_of fw self ;;
     wait_ready_of fw fuel self ;;
     finish_of fw self proc).
Proof. by destruct fw. Qed.

Lemma provision_commands_only fw self :
  behaves commands_only any_exn (provision_of fw self).
Proof.
  destruct fw; [apply behaves_vllm_provision|apply behaves_sglang_provision];
    done.
Qed.

Lemma wait_ready_polls_only fw fuel self :
  behaves polls_only any_exn (wait_ready_of fw fuel self).
Proof.
  destruct fw;
    [apply behaves_vllm_wait_ready|apply behaves_sglang_wait_ready]; done.
Qed.

Lemma wait_ready_no_spawn fw fuel self :
  behaves no_spawn any_exn (wait_ready_of fw fuel self).
Proof.
  destruct fw;
    [apply behaves_vllm_wait_ready|apply behaves_sglang_wait_ready]; done.
Qed.

Lemma finish_behaves ok ex fw self proc :
  ok KLog = true → ok KRun = true → ok KKillpg = true → ok KReap = true →
  (∀ rc cmd, ex (CalledProcessError rc cmd) = true) →
  (∀ err, ex (OSError_of err) = true) →
  ex ProcessLookupError = true →
  behaves ok ex (finish_of fw self proc).
Proof.
  intros. destruct fw; simpl.
  - apply behaves_bind; [by apply behaves_vllm_setup_src|intros _].
    apply behaves_bind; [by apply behaves_vllm_benchmark|intros _].
    by apply behaves_vllm_teardown.
  - apply behaves_bind; [by apply behaves_sglang_benchmark|intros _].
    by apply behaves_sglang_teardown.
Qed.

(** The launch either fails to start the shell, or adds one process,
    leader of its own group, under a pid that was free. *)
Lemma launch_inv fw self w w' r :
  launch_of fw self w = Some (w', r) →
  environ w' = environ w ∧ oracle w' = oracle w ∧
  ((∃ l1, r = Raise OSError ∧ trace w' = l1 :: trace w ∧
          kind_of l1 = KLog ∧ procs w' = procs w) ∨
   (∃ p st l1 l2 cmdline,
      r = Return (mkPopen p None) ∧ procs w !! p = None ∧
      procs w' = <[p := mkProcess p st]> (procs w) ∧
      trace w' =
        l2 :: EvPopen cmdline (root_dir self)
                (server_env self (environ w)) p :: l1 :: trace w ∧
      kind_of l1 = KLog ∧ kind_of l2 = KLog)).
Proof.
  destruct fw; simpl;
    unfold vllm_launch, sglang_launch, bind, spawn_env, self_info,
      logger_info, emit, subprocess_Popen, ret; simpl;
    destruct (shell_spawns _ _); simpl; intros [= <- <-]; simpl;
    (split; [done|]); (split; [done|]).
  1,3: right; eexists (fresh (dom (procs w))), _, _, _, _;
       repeat split; try done;
       apply not_elem_of_dom, is_fresh.
  all: left; eexists; repeat split; done.
Qed.

(** What [run_cmd] with a logger does, by the outcome of the command. *)
Lemma run_cmd_eq cmd cwd l w :
  run_cmd cmd cwd (Some l) w =
    let w1 := push (EvLog l INFO (Text ("▶ " +:+ join " " cmd))) w in
    match command (oracle w) cmd with
    | Exited rc =>
        if (rc =? 0)%Z
        then Some (push (EvRun cmd cwd rc) w1, Return tt)
        else Some (push (EvRun cmd cwd rc) w1,
                   Raise (CalledProcessError rc cmd))
    | NotStarted err => Some (w1, Raise (OSError_of err))
    end.
Proof.
  unfold run_cmd, bind, logger_info, emit, subprocess_run; simpl.
  destruct (command (oracle w) cmd) as [rc|err]; [|done].
  by destruct (rc =? 0)%Z.
Qed.

Lemma run_cmd_fails cmd cwd l w :
  command (oracle w) cmd ≠ Exited 0 →
  ∃ w' e, run_cmd cmd cwd (Some l) w = Some (w', Raise e) ∧
    ((∃ rc, rc ≠ 0%Z ∧ e = CalledProcessError rc cmd) ∨
     (∃ err, e = OSError_of err)).
Proof.
  intros Hne. rewrite run_cmd_eq. simpl.
  destruct (command (oracle w) cmd) as [rc|err]; [|eauto 7].
  destruct (Z.eqb_spec rc 0) as [->|Hrc]; [done|]. eauto 7.
Qed.

Lemma run_cmd_cases cmd cwd l w :
  (∃ w', run_cmd cmd cwd (Some l) w = Some (w', Return tt) ∧
         oracle w' = oracle w ∧ command (oracle w) cmd = Exited 0) ∨
  (∃ w' e, run_cmd cmd cwd (Some l) w = Some (w', Raise e) ∧
     ((∃ rc, rc ≠ 0%Z ∧ e = CalledProcessError rc cmd) ∨
      (∃ err, e = OSError_of err))).
Proof.
  destruct (command (oracle w) cmd) as [rc|err] eqn:Hc;
    [destruct (Z.eqb_spec rc 0) as [->|Hrc]|].
  - left. rewrite run_cmd_eq, Hc. simpl. eauto.
  - right. apply run_cmd_fails. congruence.
  - right. apply run_cmd_fails. congruence.
Qed.

Lemma elem_of_two {A} (x a b : A) : x ∈ [a; b] ↔ x = a ∨ x = b.
Proof. rewrite !elem_of_cons, elem_of_nil. tauto. Qed.

(** When one of its commands fails, the provisioning part raises the
    error of the first command that fails. *)
Lemma provision_fails fw self w :
  provisioning_fails fw (oracle w) →
  ∃ w' e, provision_of fw self w = Some (w', Raise e) ∧
          provisioning_error fw e.
Proof.
  intros (c & Hc & Hne). unfold provisioning_error.
  destruct fw; simpl in *; unfold vllm_provision, sglang_provision.
  - destruct (run_cmd_cases vllm_venv_cmd (Some (root_dir self))
                (name self) w) as [(w1 & H1 & Ho & Hok)|(w1 & e & H1 & He)].
    + rewrite (bind_Return _ _ _ _ _ H1).
      apply elem_of_two in Hc as [->| ->]; [congruence|].
      destruct (run_cmd_fails vllm_install_cmd (Some (root_dir self))
                  (name self) w1) as (w2 & e & H2 & He); [by rewrite Ho|].
      exists w2, e. rewrite (bind_Raise _ _ _ _ _ H2).
      split; [done|]. exists vllm_install_cmd. split; [apply elem_of_two; auto|done].
    + exists w1, e. rewrite (bind_Raise _ _ _ _ _ H1).
      split; [done|]. exists vllm_venv_cmd. split; [apply elem_of_two; auto|done].
  - destruct (run_cmd_cases sglang_venv_cmd (Some (root_dir self))
                (name self) w) as [(w1 & H1 & Ho & Hok)|(w1 & e & H1 & He)].
    + rewrite (bind_Return _ _ _ _ _ H1).
      apply elem_of_two in Hc as [->| ->]; [congruence|].
      unfold bind at 1, self_info, logger_info, emit.
      destruct (run_cmd_fails ["bash"; "-c"; sglang_install_cmd]
                  (Some (root_dir self)) (name self)
                  (push (EvLog (name self) INFO
                           (Text ("▶ " +:+ sglang_install_cmd))) w1))
        as (w2 & e & H2 & He); [by rewrite <- Ho in Hne|].
      exists w2, e. rewrite (bind_Raise _ _ _ _ _ H2).
      split; [done|]. eexists. split; [|done]. apply elem_of_two; auto.
    + exists w1, e. rewrite (bind_Raise _ _ _ _ _ H1).
      split; [done|]. exists sglang_venv_cmd. split; [apply elem_of_two; auto|done].
Qed.

(** C8: when provisioning fails, the run of the job ends there, raising
    the error of the failed provisioning command: no server is spawned, no
    process group is signalled, no process is reaped, and the process
    table is as before. *)
Theorem provisioning_failure_skips_spawn fw fuel self w :
  provisioning_fails fw (oracle w) →
  ∃ w' e,
    run_of fw fuel self w = Some (w', Raise e) ∧
    provision_of fw self (push (EvLog (name self) INFO
                                  (Text (banner_of fw))) w) =
      Some (w', Raise e) ∧
    provisioning_error fw e ∧
    count_kind KPopen (trace w') = count_kind KPopen (trace w) ∧
    count_kind KKillpg (trace w') = count_kind KKillpg (trace w) ∧
    count_kind KReap (trace w') = count_kind KReap (trace w) ∧
    procs w' = procs w.
Proof.
  intros Hfails.
  set (w1 := push (EvLog (name self) INFO (Text (banner_of fw))) w).
  destruct (provision_fails fw self w1 Hfails) as (w' & e & Hprov & He).
  exists w', e. split.
  { rewrite run_of_eq. unfold bind at 1, self_info, logger_info, emit.
    fold w1. by rewrite (bind_Raise _ _ _ _ _ Hprov). }
  split; [done|]. split; [done|].
  destruct (provision_commands_only fw self _ _ _ Hprov) as [Hext _].
  rewrite !(extends_count _ _ _ _ Hext) by done.
  by rewrite (ext_procs _ _ _ Hext).
Qed.

Lemma provisioning_failure_skips_spawn_witness :
  provisioning_fails Vllm (oracle (idle_world broken_install ∅)) ∧
  ∃ w' e,
    run_of Vllm 100 vllm_self (idle_world broken_install ∅) =
      Some (w', Raise e) ∧
    provision_of Vllm vllm_self
      (push (EvLog (name vllm_self) INFO (Text (banner_of Vllm)))
            (idle_world broken_install ∅)) = Some (w', Raise e) ∧
    provisioning_error Vllm e ∧
    count_kind KPopen (trace w') =
      count_kind KPopen (trace (idle_world broken_install ∅)) ∧
    count_kind KKillpg (trace w') =
      count_kind KKillpg (trace (idle_world broken_install ∅)) ∧
    count_kind KReap (trace w') =
      count_kind KReap (trace (idle_world broken_install ∅)) ∧
    procs w' = procs (idle_world broken_install ∅).
Proof.
  assert (provisioning_fails Vllm (oracle (idle_world broken_install ∅)))
    as Hfails.
  { exists vllm_install_cmd. split; [apply elem_of_two; auto|].
    vm_compute. discriminate. }
  split; [exact Hfails|].
  exact (provisioning_failure_skips_spawn Vllm 100 vllm_self
           (idle_world broken_install ∅) Hfails).
Defined.

Lemma self_info_inv {A} self s (k : unit → M A) w w' r :
  bind (self_info self s) k w = Some (w', r) →
  k tt (push (EvLog (name self) INFO (Text s)) w) = Some (w', r).
Proof. done. Qed.

Lemma count_kind_cons k ev t :
  count_kind k (ev :: t) =
    (if bool_decide (kind_of ev = k) then 1 else 0) + count_kind k t.
Proof. done. Qed.

(** The run up to the end of the launch: what has happened when the
    readiness wait begins. *)
Lemma run_of_inv fw fuel self w w' r :
  run_of fw fuel self w = Some (w', r) →
  let w1 := push (EvLog (name self) INFO (Text (banner_of fw))) w in
  (∃ e, provision_of fw self w1 = Some (w', Raise e) ∧ r = Raise e) ∨
  (∃ w2, provision_of fw self w1 = Some (w2, Return tt) ∧
     ((∃ e, launch_of fw self w2 = Some (w', Raise e) ∧ r = Raise e) ∨
      (∃ w3 proc, launch_of fw self w2 = Some (w3, Return proc) ∧
         ((∃ e, wait_ready_of fw fuel self w3 = Some (w', Raise e) ∧
                r = Raise e) ∨
          (∃ w4, wait_ready_of fw fuel self w3 = Some (w4, Return tt) ∧
                 finish_of fw self proc w4 = Some (w', r)))))).
Proof.
  rewrite run_of_eq. intros H%self_info_inv. simpl.
  apply bind_inv in H as [(w2 & [] & Hprov & H)|(e & Hprov & ->)];
    [right; exists w2; split; [done|]|left; eauto].
  apply bind_inv in H as [(w3 & proc & Hlaunch & H)|(e & Hlaunch & ->)];
    [right; exists w3, proc; split; [done|]|left; eauto].
  apply bind_inv in H as [(w4 & [] & Hwait & H)|(e & Hwait & ->)];
    [right; eauto|left; eauto].
Qed.

(** C1 as stated fails: the vllm job against a server that never gets
    ready spawns the server, times out after the 120 s of the probe, and
    ends with [TimeoutError] without a single [os.killpg] or [wait]: the
    server, pid 1, which has not exited by itself, is left running. *)
Lemma readiness_timeout_counterexample :
  ∃ w',
    run_of Vllm 100 vllm_self (idle_world hanging ∅) =
      Some (w', Raise (TimeoutError (timeout_message "localhost" 8080))) ∧
    count_kind KPopen (trace w') = 1 ∧
    count_kind KKillpg (trace w') = 0 ∧
    count_kind KReap (trace w') = 0 ∧
    procs w' !! 1%positive = Some (mkProcess 1 Running).
Proof. eexists. split; [vm_compute; reflexivity|]. by vm_compute. Qed.

(** The readiness wait is the probe, run after the line that announces
    it. *)
Lemma wait_ready_of_probe fw fuel self w w' e :
  wait_for_server fuel "localhost" (port self) default_timeout
                  default_interval (probing fw self w) = Some (w', Raise e) →
  wait_ready_of fw fuel self w = Some (w', Raise e).
Proof.
  intros Hprobe.
  destruct fw; simpl; unfold vllm_wait_ready, sglang_wait_ready;
    unfold bind at 1, self_info, logger_info, emit;
    exact (bind_Raise _ _ _ _ _ Hprobe).
Qed.

(** C1 (amended): for every job whose readiness probe times out after a
    successful spawn (the provisioning part has returned, the launch has
    returned the handle of the server, and [wait_for_server] raises
    [TimeoutError]), that [TimeoutError] is the outcome of the job's
    [run], and no teardown is performed: the server was spawned exactly
    once, and [os.killpg] and [wait] are invoked zero times. *)
Theorem readiness_timeout_skips_teardown
    fw fuel self w w2 w3 proc w' msg :
  provision_of fw self
    (push (EvLog (name self) INFO (Text (banner_of fw))) w) =
    Some (w2, Return tt) →
  launch_of fw self w2 = Some (w3, Return proc) →
  wait_for_server fuel "localhost" (port self) default_timeout
                  default_interval (probing fw self w3) =
    Some (w', Raise (TimeoutError msg)) →
  run_of fw fuel self w = Some (w', Raise (TimeoutError msg)) ∧
  count_kind KPopen (trace w') = S (count_kind KPopen (trace w)) ∧
  count_kind KKillpg (trace w') = count_kind KKillpg (trace w) ∧
  count_kind KReap (trace w') = count_kind KReap (trace w).
Proof.
  intros Hprov Hlaunch Hprobe.
  pose proof (wait_ready_of_probe _ _ _ _ _ _ Hprobe) as Hwait.
  split.
  { rewrite run_of_eq. unfold bind at 1, self_info, logger_info, emit.
    rewrite (bind_Return _ _ _ _ _ Hprov), (bind_Return _ _ _ _ _ Hlaunch).
    exact (bind_Raise _ _ _ _ _ Hwait). }
  destruct (provision_commands_only fw self _ _ _ Hprov) as [Hext2 _].
  assert (extends commands_only w w2) as Hext.
  { eapply extends_trans; [|exact Hext2]. by apply extends_push. }
  apply launch_inv in Hlaunch
    as (_ & _ & [(? & ? & _)|
                 (p & st & l1 & l2 & c & _ & _ & _ & Htr & Hl1 & Hl2)]);
    [discriminate|].
  destruct (wait_ready_polls_only fw fuel self _ _ _ Hwait) as [Hext3 _].
  rewrite !(extends_count _ _ _ _ Hext3) by done.
  rewrite Htr, !count_kind_cons, Hl1, Hl2. simpl.
  by rewrite !(extends_count _ _ _ _ Hext) by done.
Qed.

Lemma readiness_timeout_skips_teardown_witness :
  ∃ w2 w3 proc w' msg,
    provision_of Vllm vllm_self
      (push (EvLog (name vllm_self) INFO (Text (banner_of Vllm)))
            (idle_world hanging ∅)) = Some (w2, Return tt) ∧
    launch_of Vllm vllm_self w2 = Some (w3, Return proc) ∧
    wait_for_server 100 "localhost" (port vllm_self) default_timeout
                    default_interval (probing Vllm vllm_self w3) =
      Some (w', Raise (TimeoutError msg)) ∧
    run_of Vllm 100 vllm_self (idle_world hanging ∅) =
      Some (w', Raise (TimeoutError msg)) ∧
    count_kind KPopen (trace w') =
      S (count_kind KPopen (trace (idle_world hanging ∅))) ∧
    count_kind KKillpg (trace w') =
      count_kind KKillpg (trace (idle_world hanging ∅)) ∧
    count_kind KReap (trace w') =
      count_kind KReap (trace (idle_world hanging ∅)).
Proof.
  eexists _, _, _, _, _.
  split; [vm_compute; reflexivity|].
  split; [vm_compute; reflexivity|].
  split; [vm_compute; reflexivity|].
  eapply (readiness_timeout_skips_teardown Vllm 100 vllm_self
            (idle_world hanging ∅)); vm_compute; reflexivity.
Defined.

(** ** The first tear-down *)

Lemma group_has_member pg (ps : gmap positive process) p pr :
  ps !! p = Some pr → pgid pr = pg →
  existsb (λ kv, in_group pg (snd kv)) (map_to_list ps) = true.
Proof.
  intros Hp Hpg. apply existsb_exists. exists (p, pr). split.
  - apply list_elem_of_In. by apply elem_of_map_to_list.
  - unfold in_group. simpl. rewrite Hpg. apply Pos.eqb_refl.
Qed.

Lemma sigkill_own_group pr :
  ∃ st, sigkill (pgid pr) pr = mkProcess (pgid pr) (Zombie st).
Proof.
  unfold sigkill, in_group. rewrite Pos.eqb_refl.
  destruct pr as [pg [|st]]; simpl; eauto.
Qed.

(** The first tear-down of a server that is in the process table kills
    its group and reaps it. *)
Lemma terminate_first proc pr w :
  returncode proc = None →
  procs w !! pid proc = Some pr →
  ∃ st,
    terminate proc w =
      Some (push (EvReap (pid proc))
              (set_procs (delete (pid proc) (sigkill (pgid pr) <$> procs w))
                 (push (EvKillpg (pgid pr)) w)),
            Return (mkPopen (pid proc) (Some st))).
Proof.
  intros Hrc Hp. destruct (sigkill_own_group pr) as [st Hst]. exists st.
  unfold terminate, bind, os_getpgid, os_killpg, Popen_wait. rewrite Hp.
  rewrite (group_has_member _ _ _ _ Hp eq_refl). simpl.
  by rewrite Hrc, lookup_fmap, Hp; simpl; rewrite Hst.
Qed.

(** ** Every run of a job ends *)

Lemma ends_bind {A B} (m : M A) (k : A → M B) w :
  ends m w →
  (∀ w1 a, m w = Some (w1, Return a) → ends (k a) w1) →
  ends (bind m k) w.
Proof.
  intros (w1 & [a|e] & Hm) Hk.
  - unfold ends. rewrite (bind_Return _ _ _ _ _ Hm). by apply Hk.
  - exists w1, (Raise e). by apply bind_Raise.
Qed.

Lemma ends_self_info self s w : ends (self_info self s) w.
Proof. by eexists _, _. Qed.

Lemma ends_run_cmd cmd cwd l w : ends (run_cmd cmd cwd (Some l)) w.
Proof.
  destruct (run_cmd_cases cmd cwd l w) as [(w' & H & _)|(w' & e & H & _)];
    by eexists _, _.
Qed.

Lemma ends_subprocess_run argv cwd check w :
  ends (subprocess_run argv cwd check) w.
Proof.
  unfold ends, subprocess_run.
  destruct (command _ _) as [rc|]; [destruct (check && _)|]; by eexists _, _.
Qed.

Ltac ends_step :=
  first
    [ apply ends_self_info
    | apply ends_run_cmd
    | apply ends_subprocess_run
    | apply ends_bind; [|intros ? ? _] ].

Lemma ends_provision fw self w : ends (provision_of fw self) w.
Proof.
  destruct fw; simpl; unfold vllm_provision, sglang_provision;
    repeat ends_step.
Qed.

Lemma ends_launch fw self w : ends (launch_of fw self) w.
Proof.
  destruct fw; simpl;
    unfold ends, vllm_launch, sglang_launch, bind, spawn_env, self_info,
      logger_info, emit, subprocess_Popen, ret; simpl;
    destruct (shell_spawns _ _); by eexists _, _.
Qed.

Lemma ends_wait_ready fw fuel self w :
  enough_fuel ≤ fuel → ends (wait_ready_of fw fuel self) w.
Proof.
  intros Hfuel.
  assert (∀ w1, ends (wait_for_server fuel "localhost" (port self)
                        default_timeout default_interval) w1) as Hwait.
  { intros w1.
    destruct (wait_for_server_total fuel "localhost" (port self)
                default_timeout default_interval w1) as (w' & r & H & _);
      [done|exact Hfuel|by eexists _, _]. }
  destruct fw; simpl; unfold vllm_wait_ready, sglang_wait_ready;
    (apply ends_bind; [apply ends_self_info|intros ? ? _]);
    (apply ends_bind; [apply Hwait|intros ? ? _]);
    apply ends_self_info.
Qed.

Lemma ends_terminate proc w :
  returncode proc = None → is_Some (procs w !! pid proc) →
  ends (terminate proc) w.
Proof.
  intros Hrc [pr Hp]. destruct (terminate_first proc pr w Hrc Hp) as [st H].
  by eexists _, _.
Qed.

(** The steps between the readiness wait and the tear-down leave the
    process table alone, so the server is still there to be torn down. *)
Lemma ends_finish fw self proc w :
  returncode proc = None → is_Some (procs w !! pid proc) →
  ends (finish_of fw self proc) w.
Proof.
  intros Hrc Hp.
  assert (∀ w1, procs w1 = procs w →
            ends (match fw with
                  | Vllm => vllm_teardown self proc
                  | Sglang => sglang_teardown self proc
                  end) w1) as Hdown.
  { intros w1 Hw1. destruct fw; unfold vllm_teardown, sglang_teardown;
      (apply ends_bind; [apply ends_self_info|intros w2 ? [= <- _]]);
      (apply ends_bind; [|intros ? ? _; apply ends_self_info]);
      apply ends_terminate; simpl; by rewrite ?Hw1. }
  destruct fw; simpl.
  - apply ends_bind; [unfold vllm_setup_src; repeat ends_step|].
    intros w1 [] H1.
    destruct (behaves_vllm_setup_src commands_only any_exn eq_refl eq_refl
                (λ _ _, eq_refl) (λ _, eq_refl) self _ _ _ H1) as [E1 _].
    apply ends_bind; [unfold vllm_benchmark; repeat ends_step|].
    intros w2 [] H2.
    destruct (behaves_vllm_benchmark commands_only any_exn eq_refl eq_refl
                (λ _ _, eq_refl) (λ _, eq_refl) self _ _ _ H2) as [E2 _].
    apply Hdown.
    by rewrite (ext_procs _ _ _ E2), (ext_procs _ _ _ E1).
  - apply ends_bind; [unfold sglang_benchmark; repeat ends_step|].
    intros w2 [] H2.
    destruct (behaves_sglang_benchmark commands_only any_exn eq_refl eq_refl
                (λ _ _, eq_refl) (λ _, eq_refl) self _ _ _ H2) as [E2 _].
    apply Hdown. by rewrite (ext_procs _ _ _ E2).
Qed.

(** With fuel for the polls of the readiness wait, every run of a job
    ends: it returns or it raises. *)
Lemma run_of_total fw fuel self w :
  enough_fuel ≤ fuel → ends (run_of fw fuel self) w.
Proof.
  intros Hfuel. rewrite run_of_eq.
  apply ends_bind; [apply ends_self_info|intros w1 ? _].
  apply ends_bind; [apply ends_provision|intros w2 ? _].
  apply ends_bind; [apply ends_launch|intros w3 proc Hlaunch].
  apply launch_inv in Hlaunch
    as (_ & _ & [(? & ? & _)|(p & ? & ? & ? & ? & [= ->] & _ & Hprocs & _)]);
    [discriminate|].
  apply ends_bind; [by apply ends_wait_ready|intros w4 [] Hwait].
  destruct (wait_ready_polls_only fw fuel self _ _ _ Hwait) as [E _].
  apply ends_finish; [done|]. simpl.
  rewrite (ext_procs _ _ _ E), Hprocs, lookup_insert_eq by done. eauto.
Qed.

Lemma only_elem_of ok evs ev :
  only ok evs → ev ∈ evs → ok (kind_of ev) = true.
Proof. unfold only. rewrite Forall_forall. auto. Qed.

(** What [server_env] does to the copy of [os.environ]. *)
Lemma server_env_spec self (env : gmap string string) :
  (cuda_dev self = "" → server_env self env = env) ∧
  (cuda_dev self ≠ "" →
   server_env self env !! "CUDA_VISIBLE_DEVICES" = Some (cuda_dev self)) ∧
  (∀ k, k ≠ "CUDA_VISIBLE_DEVICES" → server_env self env !! k = env !! k).
Proof.
  unfold server_env. destruct (cuda_dev self) as [|a s]; simpl.
  - done.
  - split; [done|]. split; [intros _; apply lookup_insert_eq|].
    intros k Hk. by apply lookup_insert_ne.
Qed.

(** Every spawn of a run is the one of the launch part, with the
    environment computed from [os.environ] as it was when the run began. *)
Lemma run_of_spawns fw fuel self w w' r :
  run_of fw fuel self w = Some (w', r) →
  environ w' = environ w ∧
  ∃ evs, trace w' = evs ++ trace w ∧
    ∀ ev, ev ∈ evs → kind_of ev = KPopen →
      ∃ cmdline p,
        ev = EvPopen cmdline (root_dir self)
               (server_env self (environ w)) p.
Proof.
  intros H%run_of_inv. simpl in H.
  set (w1 := push (EvLog (name self) INFO (Text (banner_of fw))) w) in H.
  assert (extends commands_only w w1) as Hext1 by by apply extends_push.
  destruct H as [(e & Hprov & _)|(w2 & Hprov & H)].
  { destruct (provision_commands_only fw self _ _ _ Hprov) as [Hext2 _].
    destruct (extends_trans _ _ _ _ Hext1 Hext2)
      as [_ Henv (evs & Htr & Hevs) _].
    split; [done|]. exists evs. split; [done|]. intros ev Hin Hk.
    apply (only_elem_of _ _ _ Hevs) in Hin. by rewrite Hk in Hin. }
  destruct (provision_commands_only fw self _ _ _ Hprov) as [Hext2 _].
  destruct (extends_trans _ _ _ _ Hext1 Hext2)
    as [_ Henv (evs & Htr & Hevs) _].
  clear Hext1 Hext2 Hprov.
  destruct H as [(e & Hlaunch & _)|(w3 & proc & Hlaunch & H)].
  { apply launch_inv in Hlaunch
      as (Henv' & _ & [(l1 & _ & Htr' & Hl1 & _)|(? & ? & ? & ? & ? & ? & _)]);
      [|discriminate].
    split; [congruence|]. exists (l1 :: evs).
    split; [by rewrite Htr', Htr|]. intros ev Hin Hk.
    apply elem_of_cons in Hin as [->|Hin]; [congruence|].
    apply (only_elem_of _ _ _ Hevs) in Hin. by rewrite Hk in Hin. }
  apply launch_inv in Hlaunch
    as (Henv' & _ & [(? & ? & _)|
                     (p & ? & l1 & l2 & c & _ & _ & _ & Htr' & Hl1 & Hl2)]);
    [discriminate|].
  assert (extends no_spawn w3 w') as [_ Henv'' (evs' & Htr'' & Hevs') _].
  { destruct H as [(e & Hwait & _)|(w4 & Hwait & Hfin)].
    - by destruct (wait_ready_no_spawn fw fuel self _ _ _ Hwait).
    - destruct (wait_ready_no_spawn fw fuel self _ _ _ Hwait) as [E1 _].
      destruct (finish_behaves no_spawn any_exn fw self proc
                  eq_refl eq_refl eq_refl eq_refl (λ _ _, eq_refl)
                  (λ _, eq_refl) eq_refl _ _ _ Hfin) as [E2 _].
      by eapply extends_trans. }
  split; [congruence|].
  rewrite Henv in Htr'.
  exists (evs' ++ l2 :: EvPopen c (root_dir self)
                          (server_env self (environ w)) p :: l1 :: evs).
  split.
  { rewrite Htr'', Htr', Htr, <- app_assoc. done. }
  intros ev Hin Hk.
  apply elem_of_app in Hin as [Hin|Hin].
  { apply (only_elem_of _ _ _ Hevs') in Hin. by rewrite Hk in Hin. }
  apply elem_of_cons in Hin as [->|Hin]; [congruence|].
  apply elem_of_cons in Hin as [->|Hin]; [eauto|].
  apply elem_of_cons in Hin as [->|Hin]; [congruence|].
  apply (only_elem_of _ _ _ Hevs) in Hin. by rewrite Hk in Hin.
Qed.

(** C10: every run of a job ends, and the environment handed to a
    server it spawns is [os.environ] itself when the device override is
    the empty string; otherwise it maps CUDA_VISIBLE_DEVICES to the
    override; in both cases every other variable is as in [os.environ],
    which the run leaves unchanged. *)
Theorem spawn_environment fw fuel self w :
  enough_fuel ≤ fuel →
  ∃ w' r,
    run_of fw fuel self w = Some (w', r) ∧
    environ w' = environ w ∧
    ∃ evs, trace w' = evs ++ trace w ∧
      ∀ cmdline cwd env p, EvPopen cmdline cwd env p ∈ evs →
        (cuda_dev self = "" → env = environ w) ∧
        (cuda_dev self ≠ "" →
         env !! "CUDA_VISIBLE_DEVICES" = Some (cuda_dev self)) ∧
        (∀ k, k ≠ "CUDA_VISIBLE_DEVICES" → env !! k = environ w !! k).
Proof.
  intros Hfuel. destruct (run_of_total fw fuel self w Hfuel) as (w' & r & Hrun).
  exists w', r. split; [done|].
  destruct (run_of_spawns _ _ _ _ _ _ Hrun) as (Henv & evs & Htr & Hspawn).
  split; [done|]. exists evs. split; [done|].
  intros cmdline cwd env p Hin.
  destruct (Hspawn _ Hin eq_refl) as (c' & p' & [= _ _ -> _]).
  apply server_env_spec.
Qed.

Lemma spawn_environment_witness :
  enough_fuel ≤ 100 ∧
  ∃ w' r,
    run_of Sglang 100 gpu_self (idle_world healthy shell_env) =
      Some (w', r) ∧
    environ w' = environ (idle_world healthy shell_env) ∧
    ∃ evs, trace w' = evs ++ trace (idle_world healthy shell_env) ∧
      ∀ cmdline cwd env p, EvPopen cmdline cwd env p ∈ evs →
        (cuda_dev gpu_self = "" →
         env = environ (idle_world healthy shell_env)) ∧
        (cuda_dev gpu_self ≠ "" →
         env !! "CUDA_VISIBLE_DEVICES" = Some (cuda_dev gpu_self)) ∧
        (∀ k, k ≠ "CUDA_VISIBLE_DEVICES" →
              env !! k = environ (idle_world healthy shell_env) !! k).
Proof.
  split; [unfold enough_fuel; lia|].
  apply (spawn_environment Sglang 100 gpu_self
           (idle_world healthy shell_env)).
  unfold enough_fuel. lia.
Defined.

(** The same run, seen in its trace: the sglang server of a run with
    [--cuda-device 1] is spawned once, with device 1 and the PATH of the
    orchestrator. *)
Example spawn_environment_example :
  ∃ w',
    run_of Sglang 100 gpu_self (idle_world healthy shell_env) =
      Some (w', Return tt) ∧
    List.filter (λ ev, bool_decide (kind_of ev = KPopen)) (trace w') =
      [EvPopen ("bash -c 'source venv-sgl/bin/activate && " +:+
                join " " (sglang_serve_cmd gpu_self) +:+ "'")
               "/bench"
               (<["CUDA_VISIBLE_DEVICES" := "1"]>
                  (<["PATH" := "/usr/bin"]> ∅))
               1].
Proof. eexists. split; [vm_compute; reflexivity|]. by vm_compute. Qed.

(** * The runner *)

(** One turn of the loop, by how the job's [run] ends. *)
Lemma run_jobs_body_eq logger job w :
  run_jobs_body logger job w =
    match job_run job (push (running_line logger job) w) with
    | None => None
    | Some (w1, Return _) =>
        let w2 := push (completed_line logger job) w1 in
        if String.eqb (job_name job) "vllm" then
          match command (oracle w2) pkill_cmd with
          | Exited rc =>
              Some (push (EvRun pkill_cmd None rc)
                         (push (killing_line logger) w2), Return Next)
          | NotStarted err =>
              Some (push (killing_line logger) w2, Raise (OSError_of err))
          end
        else Some (w2, Return Next)
    | Some (w1, Raise e) =>
        if is_Exception e
        then Some (push (failed_line logger job e) w1, Return Returned)
        else Some (w1, Raise e)
    end.
Proof.
  unfold run_jobs_body, bind at 1, logger_info, emit.
  fold (running_line logger job).
  unfold bind at 1, try_except_Exception, bind at 1.
  destruct (job_run job _) as [[w1 [[]|e]]|]; [| |done].
  - unfold bind at 1, logger_info, emit, ret.
    fold (completed_line logger job).
    destruct (String.eqb _ _); [|done].
    unfold bind, subprocess_run, logger_info, emit; simpl.
    fold (killing_line logger).
    by destruct (command _ _).
  - destruct (is_Exception e); [|done].
    unfold bind, emit, ret. done.
Qed.

Lemma run_jobs_loop_app logger pre post w w1 :
  run_jobs_loop logger pre w = Some (w1, Return Next) →
  run_jobs_loop logger (pre ++ post) w = run_jobs_loop logger post w1.
Proof.
  revert w. induction pre as [|job pre IH]; intros w; simpl.
  - by intros [= ->].
  - intros H.
    apply bind_inv in H as [(w2 & [|] & Hbody & H)|(e & _ & [=])];
      [|discriminate].
    rewrite (bind_Return _ _ _ _ _ Hbody). by apply IH.
Qed.

(** C2: when the loop has reached the job at index [i] and that job's
    [run] raises an exception, [run_jobs] logs the failure and returns:
    the world it leaves is the one the failed job left plus the error
    line, whatever jobs follow index [i] in the sequence, so none of them
    is started. *)
Theorem run_jobs_stops_at_first_failure jobs logger i job w wi w' e :
  jobs !! i = Some job →
  run_jobs_loop logger (take i jobs) w = Some (wi, Return Next) →
  job_run job (push (running_line logger job) wi) = Some (w', Raise e) →
  is_Exception e = true →
  run_jobs jobs logger w =
    Some (push (failed_line logger job e) w', Return tt) ∧
  ∀ later,
    run_jobs (take i jobs ++ job :: later) logger w =
      Some (push (failed_line logger job e) w', Return tt).
Proof.
  intros Hi Hpre Hrun He.
  assert (∀ later, run_jobs (take i jobs ++ job :: later) logger w =
            Some (push (failed_line logger job e) w', Return tt)) as Hany.
  { intros later. unfold run_jobs.
    assert (run_jobs_loop logger (take i jobs ++ job :: later) w =
              Some (push (failed_line logger job e) w', Return Returned))
      as Hloop.
    { rewrite (run_jobs_loop_app _ _ _ _ _ Hpre). simpl.
      assert (run_jobs_body logger job wi =
                Some (push (failed_line logger job e) w', Return Returned))
        as Hbody by by rewrite run_jobs_body_eq, Hrun, He.
      by rewrite (bind_Return _ _ _ _ _ Hbody). }
    by rewrite (bind_Return _ _ _ _ _ Hloop). }
  split; [|done].
  rewrite <- (take_drop_middle jobs i job Hi) at 1. apply Hany.
Qed.

Lemma run_jobs_stops_at_first_failure_witness :
  ∃ w' e,
    main_jobs !! 0 = Some vllm_job ∧
    run_jobs_loop "main" (take 0 main_jobs) (idle_world broken_benchmark ∅) =
      Some (idle_world broken_benchmark ∅, Return Next) ∧
    job_run vllm_job (push (running_line "main" vllm_job)
                           (idle_world broken_benchmark ∅)) =
      Some (w', Raise e) ∧
    is_Exception e = true ∧
    run_jobs main_jobs "main" (idle_world broken_benchmark ∅) =
      Some (push (failed_line "main" vllm_job e) w', Return tt) ∧
    ∀ later,
      run_jobs (take 0 main_jobs ++ vllm_job :: later) "main"
               (idle_world broken_benchmark ∅) =
        Some (push (failed_line "main" vllm_job e) w', Return tt).
Proof.
  eexists _, _.
  split; [reflexivity|]. split; [reflexivity|].
  split; [vm_compute; reflexivity|]. split; [reflexivity|].
  apply (run_jobs_stops_at_first_failure main_jobs "main" 0 vllm_job
           (idle_world broken_benchmark ∅) (idle_world broken_benchmark ∅)).
  - reflexivity.
  - reflexivity.
  - vm_compute. reflexivity.
  - reflexivity.
Defined.

(** C5 (amended): after a job whose [run] returns, the runner logs its
    completion and, only when the job is named "vllm", runs
    [pkill -f "vllm serve"] once, ignoring its exit status, before it goes
    on to the next job; a job of any other name gets no cleanup pass.
    After a job whose [run] raises an exception the runner logs the
    failure and returns, with no cleanup pass. *)
Theorem cleanup_only_after_successful_vllm logger job w w1 r :
  job_run job (push (running_line logger job) w) = Some (w1, r) →
  let w2 := push (completed_line logger job) w1 in
  (r = Return tt → job_name job = "vllm" →
   ∀ rc, command (oracle w1) pkill_cmd = Exited rc →
     run_jobs_body logger job w =
       Some (push (EvRun pkill_cmd None rc) (push (killing_line logger) w2),
             Return Next)) ∧
  (r = Return tt → job_name job ≠ "vllm" →
   run_jobs_body logger job w = Some (w2, Return Next)) ∧
  (∀ e, r = Raise e → is_Exception e = true →
   run_jobs_body logger job w =
     Some (push (failed_line logger job e) w1, Return Returned)).
Proof.
  intros Hrun w2. rewrite run_jobs_body_eq, Hrun. repeat split.
  - intros -> Hname rc Hrc. rewrite Hname. simpl. by rewrite Hrc.
  - intros -> Hname. apply String.eqb_neq in Hname. by rewrite Hname.
  - intros e -> He. by rewrite He.
Qed.

Lemma cleanup_only_after_successful_vllm_witness :
  ∃ w1,
    job_run vllm_job (push (running_line "main" vllm_job)
                           (idle_world healthy ∅)) =
      Some (w1, Return tt) ∧
    run_jobs_body "main" vllm_job (idle_world healthy ∅) =
      Some (push (EvRun pkill_cmd None 0)
              (push (killing_line "main")
                 (push (completed_line "main" vllm_job) w1)),
            Return Next).
Proof.
  eexists. split; [vm_compute; reflexivity|].
  eapply (cleanup_only_after_successful_vllm "main" vllm_job
            (idle_world healthy ∅)).
  - vm_compute. reflexivity.
  - reflexivity.
  - reflexivity.
  - reflexivity.
Defined.

(** C5 as stated fails twice over.  The sglang job completes with
    success and no cleanup pass follows it; and the vllm job, failing
    because its installation fails, is followed by no cleanup pass
    either: the runner logs the failure and returns. *)
Lemma cleanup_counterexample :
  (∃ w',
     run_jobs [sglang_job] "main" (idle_world healthy ∅) =
       Some (w', Return tt) ∧
     head (trace w') =
       Some (EvLog "main" INFO (Text "✓ sglang completed")) ∧
     cleanup_passes (trace w') = 0) ∧
  (∃ w' e,
     run_jobs main_jobs "main" (idle_world broken_install ∅) =
       Some (w', Return tt) ∧
     head (trace w') = Some (EvLog "main" ERROR (JobFailed "vllm" e)) ∧
     cleanup_passes (trace w') = 0).
Proof.
  split.
  - eexists. split; [vm_compute; reflexivity|]. by vm_compute.
  - eexists _, _. split; [vm_compute; reflexivity|]. by vm_compute.
Qed.

(** * Tearing a server down *)

(** C6 (amended): the first tear-down of a server that is in the process
    table does not raise and removes the server from the table.  A second
    tear-down on the same handle is not a no-op: [os.getpgid] finds no
    such process and raises [ProcessLookupError]; it leaves the world
    unchanged. *)
Theorem second_terminate_raises proc pr w :
  returncode proc = None →
  procs w !! pid proc = Some pr →
  ∃ w1 proc1,
    terminate proc w = Some (w1, Return proc1) ∧
    pid proc1 = pid proc ∧
    procs w1 !! pid proc = None ∧
    terminate proc1 w1 = Some (w1, Raise ProcessLookupError).
Proof.
  intros Hrc Hp. destruct (terminate_first proc pr w Hrc Hp) as [st Hfirst].
  eexists _, _. split; [exact Hfirst|]. split; [done|].
  split; [apply lookup_delete_eq|].
  unfold terminate, bind, os_getpgid. simpl. by rewrite lookup_delete_eq.
Qed.

Lemma second_terminate_raises_witness :
  ∃ w1 proc1,
    terminate (mkPopen 7 None)
      (set_procs {[7%positive := mkProcess 7 Running]}
                 (idle_world healthy ∅)) = Some (w1, Return proc1) ∧
    pid proc1 = 7%positive ∧
    procs w1 !! 7%positive = None ∧
    terminate proc1 w1 = Some (w1, Raise ProcessLookupError).
Proof.
  apply (second_terminate_raises (mkPopen 7 None) (mkProcess 7 Running)
           (set_procs {[7%positive := mkProcess 7 Running]}
                      (idle_world healthy ∅))).
  - reflexivity.
  - vm_compute. reflexivity.
Defined.

(** C6 as stated fails: spawn a server, tear it down, and tear it down
    again on the same handle; the second call raises. *)
Lemma terminate_twice_counterexample :
  ∃ w1 proc w2 proc',
    subprocess_Popen "bash -c 'vllm serve'" "/bench" ∅
                     (idle_world healthy ∅) = Some (w1, Return proc) ∧
    terminate proc w1 = Some (w2, Return proc') ∧
    terminate proc' w2 = Some (w2, Raise ProcessLookupError).
Proof.
  eexists _, _, _, _.
  split; [vm_compute; reflexivity|].
  split; [vm_compute; reflexivity|].
  vm_compute. reflexivity.
Qed.

(** Scenario A of the spec, on the jobs of [main]: the vllm benchmark
    script fails, the runner ends on the error line of the vllm job, and
    the sglang job has logged nothing and was never announced. *)
Example scenario_A :
  ∃ w',
    run_jobs main_jobs "main" (idle_world broken_benchmark ∅) =
      Some (w', Return tt) ∧
    head (trace w') =
      Some (EvLog "main" ERROR
              (JobFailed "vllm"
                 (CalledProcessError 1
                    ["bash"; "-c"; bench_cmd vllm_self "vllm"]))) ∧
    Forall (λ ev, match ev with
                  | EvLog l _ m =>
                      l ≠ "sglang" ∧ m ≠ Text "▶ Running sglang"
                  | _ => True
                  end) (trace w').
Proof.
  eexists. split; [vm_compute; reflexivity|]. split; [by vm_compute|].
  vm_compute. repeat constructor; discriminate.
Qed.

(** * Further properties of the readiness probe *)

Lemma sleep_then_loop fuel url deadline interval w :
  (0 ≤ interval)%Z →
  (time_sleep interval ;; wait_loop fuel url deadline interval) w =
    wait_loop fuel url deadline interval
      (push (EvSleep interval) (elapse interval w)).
Proof.
  intros Hpos. unfold bind, time_sleep.
  by destruct (Z.ltb_spec interval 0) as [?|_]; [lia|].
Qed.

(** The loop only returns on a response that mentions "data", and that
    response is the last thing that happened. *)
Lemma wait_loop_returns_ready fuel url deadline interval :
  ∀ w w',
    wait_loop fuel url deadline interval w = Some (w', Return tt) →
    requests w < requests w' ∧
    (∃ d status text,
       endpoint (oracle w) (requests w' - 1) = (d, Response status text) ∧
       str_in "data" text = true) ∧
    head (trace w') = Some (EvGet url).
Proof.
  induction fuel as [|fuel IH]; intros w w' Hrun; [done|].
  destruct (Z.lt_ge_cases (now w) deadline) as [Hlt|Hge].
  2:{ by rewrite wait_loop_expired in Hrun. }
  rewrite wait_loop_unfold in Hrun by done.
  assert (∀ d,
            (time_sleep interval ;; wait_loop fuel url deadline interval)
              (after_request url d w) = Some (w', Return tt) →
            requests w < requests w' ∧
            (∃ d status text,
               endpoint (oracle w) (requests w' - 1) =
                 (d, Response status text) ∧
               str_in "data" text = true) ∧
            head (trace w') = Some (EvGet url)) as Hnext.
  { intros d H. unfold bind at 1, time_sleep in H.
    destruct (interval <? 0)%Z; [done|].
    apply IH in H as (Hreq & Hlast & Hhead). simpl in *.
    split; [lia|done]. }
  destruct (endpoint (oracle w) (requests w)) as [d [st text|e]] eqn:Hreq.
  - destruct (str_in "data" text) eqn:Hin; [|by apply (Hnext d)].
    injection Hrun as <-. simpl. split; [lia|]. split; [|done].
    exists d, st, text. by rewrite Nat.sub_0_r.
  - destruct (is_Exception e); [by apply (Hnext d)|done].
Qed.

(** X1: [wait_for_server] never reports readiness on its own account:
    when it returns, it has issued at least one request, and the last one
    it issued was answered by a response whose text contains "data"; that
    request is the last thing it did (it does not sleep or poll again). *)
Theorem wait_for_server_returns_on_ready
    fuel host port timeout interval w w' :
  wait_for_server fuel host port timeout interval w = Some (w', Return tt) →
  requests w < requests w' ∧
  (∃ d status text pre post,
     endpoint (oracle w) (requests w' - 1) = (d, Response status text) ∧
     text = pre +:+ "data" +:+ post) ∧
  head (trace w') = Some (EvGet (models_url host port)).
Proof.
  rewrite wait_for_server_eq.
  intros (Hreq & (d & st & text & Hlast & Hin) & Hhead)%wait_loop_returns_ready.
  split; [done|]. split; [|done].
  apply str_in_spec in Hin as (pre & post & ->).
  by exists d, st, (pre +:+ "data" +:+ post), pre, post.
Qed.

Lemma wait_for_server_returns_on_ready_witness :
  ∃ w',
    wait_for_server 62 "localhost" 8080 default_timeout default_interval
                    (idle_world (ready_after 3) ∅) = Some (w', Return tt) ∧
    requests (idle_world (ready_after 3) ∅) < requests w' ∧
    (∃ d status text pre post,
       endpoint (oracle (idle_world (ready_after 3) ∅)) (requests w' - 1) =
         (d, Response status text) ∧
       text = pre +:+ "data" +:+ post) ∧
    head (trace w') = Some (EvGet (models_url "localhost" 8080)).
Proof.
  eexists. split; [vm_compute; reflexivity|].
  apply (wait_for_server_returns_on_ready 62 "localhost" 8080
           default_timeout default_interval (idle_world (ready_after 3) ∅)).
  vm_compute. reflexivity.
Defined.

Lemma poll_start_nonneg o interval :
  (0 ≤ interval)%Z → ∀ k first, (0 ≤ poll_start o interval first k)%Z.
Proof.
  intros Hpos. induction k as [|k IH]; intros first; simpl; [done|].
  specialize (IH (S first)). lia.
Qed.

Lemma wait_loop_first_ready url deadline interval :
  (0 ≤ interval)%Z →
  ∀ k fuel w d status text,
    (∀ j, j < k →
          not_ready (snd (endpoint (oracle w) (requests w + j))) = true) →
    endpoint (oracle w) (requests w + k) = (d, Response status text) →
    str_in "data" text = true →
    (now w + poll_start (oracle w) interval (requests w) k < deadline)%Z →
    k < fuel →
    ∃ w',
      wait_loop fuel url deadline interval w = Some (w', Return tt) ∧
      requests w' = requests w + k + 1 ∧
      now w' =
        (now w + poll_start (oracle w) interval (requests w) k + Z.of_N d)%Z.
Proof.
  intros Hpos. induction k as [|k IH];
    intros fuel w d st text Hbefore Hready Hin Htime Hfuel;
    (destruct fuel as [|fuel]; [lia|]).
  - simpl in Htime. rewrite Nat.add_0_r in Hready.
    rewrite wait_loop_unfold, Hready, Hin by lia.
    eexists. split; [done|]. simpl. split; lia.
  - pose proof (poll_start_nonneg (oracle w) interval Hpos k
                  (S (requests w))) as Hnn.
    simpl in Htime.
    pose proof (Hbefore 0 ltac:(lia)) as H0. rewrite Nat.add_0_r in H0.
    destruct (endpoint (oracle w) (requests w)) as [d0 out] eqn:Hreq.
    simpl in H0, Htime.
    set (w2 := push (EvSleep interval)
                 (elapse interval (after_request url d0 w))).
    destruct (IH fuel w2 d st text) as (w' & Hrun & Hn & Ht).
    { intros j Hj. simpl. replace (S (requests w + j))
        with (requests w + S j) by lia. apply Hbefore. lia. }
    { simpl. by replace (S (requests w + k)) with (requests w + S k) by lia. }
    { done. }
    { simpl. lia. }
    { lia. }
    exists w'. split.
    { rewrite wait_loop_unfold, Hreq by lia.
      destruct out as [st0 text0|e]; simpl in H0.
      - apply negb_true_iff in H0. by rewrite H0, sleep_then_loop.
      - by rewrite H0, sleep_then_loop. }
    subst w2. simpl in *. rewrite Hreq. simpl. split; lia.
Qed.

(** X2: [wait_for_server] returns on the first poll that finds the server
    ready and does not poll again.  When the first [k] requests of the
    probe are not ready, the next one is answered with "data" in its
    text, and that poll begins before the deadline, the probe returns
    after exactly [k + 1] requests, at the moment that request ends. *)
Theorem wait_for_server_first_ready
    fuel host port timeout interval w k d status text :
  (0 ≤ interval)%Z →
  (∀ j, j < k →
        not_ready (snd (endpoint (oracle w) (requests w + j))) = true) →
  endpoint (oracle w) (requests w + k) = (d, Response status text) →
  str_in "data" text = true →
  (poll_start (oracle w) interval (requests w) k < timeout)%Z →
  k < fuel →
  ∃ w',
    wait_for_server fuel host port timeout interval w =
      Some (w', Return tt) ∧
    requests w' = requests w + k + 1 ∧
    (now w' - now w =
       poll_start (oracle w) interval (requests w) k + Z.of_N d)%Z.
Proof.
  intros Hpos Hbefore Hready Hin Htime Hfuel.
  pose proof (float_sum_bounds (oracle w) (now w) timeout) as Hsum.
  destruct (wait_loop_first_ready (models_url host port)
              (float_sum (oracle w) (now w) timeout) interval Hpos k fuel w
              d status text)
    as (w' & Hrun & Hn & Ht); try done; [lia|].
  exists w'. split; [done|]. split; [done|lia].
Qed.

Lemma wait_for_server_first_ready_witness :
  ∃ w',
    wait_for_server 62 "localhost" 8080 default_timeout default_interval
                    (idle_world (ready_after 3) ∅) = Some (w', Return tt) ∧
    requests w' = requests (idle_world (ready_after 3) ∅) + 3 + 1 ∧
    (now w' - now (idle_world (ready_after 3) ∅) =
       poll_start (oracle (idle_world (ready_after 3) ∅)) default_interval
                  (requests (idle_world (ready_after 3) ∅)) 3 + Z.of_N 5)%Z.
Proof.
  apply (wait_for_server_first_ready 62 "localhost" 8080 default_timeout
           default_interval (idle_world (ready_after 3) ∅) 3 5 200
           models_listing).
  - vm_compute. discriminate.
  - intros j Hj. simpl.
    destruct j as [|[|[|j]]]; [reflexivity..|lia].
  - reflexivity.
  - vm_compute. reflexivity.
  - vm_compute. reflexivity.
  - lia.
Defined.

Lemma wait_loop_bounded url interval D :
  (0 < interval)%Z →
  ∀ fuel deadline w,
    (∀ k, (fst (endpoint (oracle w) k) ≤ D)%N) →
    1 ≤ fuel →
    (deadline - now w ≤ (Z.of_nat fuel - 1) * interval)%Z →
    ∃ w' r,
      wait_loop fuel url deadline interval w = Some (w', r) ∧
      (now w ≤ now w')%Z ∧
      ((now w < deadline)%Z →
       (now w' < deadline + interval + Z.of_N D)%Z ∧
       (r = Return tt → (now w' < deadline + Z.of_N D)%Z)) ∧
      ((deadline ≤ now w)%Z → w' = w).
Proof.
  intros Hpos. induction fuel as [|fuel IH];
    intros deadline w Hdur Hfuel Hbound; [lia|].
  destruct (Z.lt_ge_cases (now w) deadline) as [Hlt|Hge].
  2:{ rewrite wait_loop_expired by done. eexists _, _.
      split; [done|]. split; [lia|]. split; [lia|done]. }
  rewrite wait_loop_unfold by done.
  pose proof (Hdur (requests w)) as Hd.
  destruct (endpoint (oracle w) (requests w)) as [d out]. simpl in Hd.
  assert (∃ w' r,
            (time_sleep interval ;; wait_loop fuel url deadline interval)
              (after_request url d w) = Some (w', r) ∧
            (now w ≤ now w')%Z ∧
            ((now w < deadline)%Z →
             (now w' < deadline + interval + Z.of_N D)%Z ∧
             (r = Return tt → (now w' < deadline + Z.of_N D)%Z)) ∧
            ((deadline ≤ now w)%Z → w' = w)) as Hnext.
  { rewrite sleep_then_loop by lia.
    set (w2 := push (EvSleep interval)
                 (elapse interval (after_request url d w))).
    destruct (IH deadline w2) as (w' & r & Hrun & Hmono & Hin & Hout).
    { done. }
    { simpl. nia. }
    { simpl. nia. }
    exists w', r. split; [done|]. simpl in Hmono, Hin, Hout.
    split; [lia|]. split; [|lia]. intros _.
    destruct (Z.lt_ge_cases (now w + Z.of_N d + interval) deadline)
      as [Hl|Hg].
    - destruct (Hin Hl) as [H1 H2]. done.
    - specialize (Hout Hg). subst w'. subst w2. simpl. split; [lia|].
      intros ->. destruct fuel as [|fuel']; [done|].
      rewrite wait_loop_expired in Hrun by (simpl; lia). done. }
  assert (∀ r,
            (now w ≤ now (after_request url d w))%Z ∧
            ((now w < deadline)%Z →
             (now (after_request url d w) <
                deadline + interval + Z.of_N D)%Z ∧
             (r = @Return unit tt →
              (now (after_request url d w) < deadline + Z.of_N D)%Z)) ∧
            ((deadline ≤ now w)%Z → after_request url d w = w)) as Hhere.
  { intros r. simpl. split; [lia|]. split; [|lia]. intros _. split; lia. }
  destruct out as [st text|e].
  - destruct (str_in "data" text); [|done]. by eexists _, _.
  - destruct (is_Exception e); [done|]. by eexists _, _.
Qed.

(** X3: whatever the server answers, the probe does not hold its caller
    longer than the timeout, one interval and one request: with a
    positive interval, a timeout of at least zero and requests that take
    at most D each, [wait_for_server] ends no later than T + I + D after
    it began, and when it returns (the server is ready) no later than
    T + D.  Both bounds are reached when the sum of line 33 is rounded
    up and the last poll begins exactly T after the start. *)
Theorem wait_for_server_bounded fuel host port timeout interval D w :
  (0 < interval)%Z → (0 ≤ timeout)%Z →
  (∀ k, (fst (endpoint (oracle w) k) ≤ D)%N) →
  Z.to_nat (timeout / interval) + 2 ≤ fuel →
  ∃ w' r,
    wait_for_server fuel host port timeout interval w = Some (w', r) ∧
    (0 ≤ now w' - now w ≤ timeout + interval + Z.of_N D)%Z ∧
    (r = Return tt → (now w' - now w ≤ timeout + Z.of_N D)%Z).
Proof.
  intros Hpos Ht Hdur Hfuel. rewrite wait_for_server_eq.
  pose proof (float_sum_bounds (oracle w) (now w) timeout) as Hsum.
  set (deadline := float_sum (oracle w) (now w) timeout) in *.
  destruct (wait_loop_bounded (models_url host port) interval D Hpos
              fuel deadline w)
    as (w' & r & Hrun & Hmono & Hin & Hout); [done|lia| |].
  { assert (timeout / interval < Z.of_nat fuel - 1)%Z as Hq.
    { pose proof (Z.div_pos timeout interval). lia. }
    pose proof (Z.mod_pos_bound timeout interval Hpos).
    pose proof (Z.div_mod timeout interval). nia. }
  exists w', r. split; [done|].
  destruct (Z.lt_ge_cases (now w) deadline) as [Hl|Hg].
  - destruct (Hin Hl) as [H1 H2]. split; [lia|]. intros Hr.
    specialize (H2 Hr). lia.
  - pose proof (N2Z.is_nonneg D). rewrite (Hout Hg).
    split; [lia|]. intros ->. destruct fuel as [|fuel']; [lia|].
    by rewrite wait_loop_expired in Hrun.
Qed.

Lemma wait_for_server_bounded_witness :
  (0 < 2000)%Z ∧ (0 ≤ 120000)%Z ∧
  ∃ w' r,
    wait_for_server 62 "localhost" 8080 120000 2000
                    (idle_world (ready_after 3) ∅) = Some (w', r) ∧
    (0 ≤ now w' - now (idle_world (ready_after 3) ∅) ≤
       120000 + 2000 + Z.of_N 5)%Z ∧
    (r = Return tt →
     (now w' - now (idle_world (ready_after 3) ∅) ≤ 120000 + Z.of_N 5)%Z).
Proof.
  split; [lia|]. split; [lia|].
  apply (wait_for_server_bounded 62 "localhost" 8080 120000 2000 5
           (idle_world (ready_after 3) ∅)).
  - lia.
  - lia.
  - intros k. simpl. destruct (k <? 3); simpl; lia.
  - vm_compute. lia.
Defined.

Lemma wait_loop_requests url deadline interval :
  (0 < interval)%Z →
  ∀ fuel w w' r,
    wait_loop fuel url deadline interval w = Some (w', r) →
    requests w ≤ requests w' ∧
    (requests w' = requests w ∨
     ((Z.of_nat (requests w' - requests w) - 1) * interval <
        deadline - now w)%Z).
Proof.
  intros Hpos. induction fuel as [|fuel IH]; intros w w' r Hrun; [done|].
  destruct (Z.lt_ge_cases (now w) deadline) as [Hlt|Hge].
  2:{ rewrite wait_loop_expired in Hrun by done. injection Hrun as <- _.
      auto. }
  rewrite wait_loop_unfold in Hrun by done.
  assert (∀ d,
            (time_sleep interval ;; wait_loop fuel url deadline interval)
              (after_request url d w) = Some (w', r) →
            requests w ≤ requests w' ∧
            (requests w' = requests w ∨
             ((Z.of_nat (requests w' - requests w) - 1) * interval <
                deadline - now w)%Z)) as Hnext.
  { intros d H. rewrite sleep_then_loop in H by lia.
    apply IH in H as [Hle Hn]. simpl in Hle, Hn.
    split; [lia|]. right. destruct Hn as [Hn|Hn].
    - rewrite Hn.
      replace (Z.of_nat (S (requests w) - requests w) - 1)%Z with 0%Z by lia.
      lia.
    - replace (Z.of_nat (requests w' - requests w) - 1)%Z
        with (Z.of_nat (requests w' - S (requests w)) - 1 + 1)%Z by lia.
      nia. }
  assert (requests w ≤ requests (after_request url 0 w) ∧
          (Z.of_nat (requests (after_request url 0 w) - requests w) - 1 = 0)%Z)
    as [Hone1 Hone2] by (simpl; lia).
  destruct (endpoint (oracle w) (requests w)) as [d [st text|e]].
  - destruct (str_in "data" text); [|by apply (Hnext d)].
    injection Hrun as <- _. simpl in *. split; [lia|]. right.
    rewrite Hone2. lia.
  - destruct (is_Exception e); [by apply (Hnext d)|].
    injection Hrun as <- _. simpl in *. split; [lia|]. right.
    rewrite Hone2. lia.
Qed.

(** X4: the probe polls at most once per interval.  With a positive
    interval, if [wait_for_server] has issued n requests when it ends,
    then n = 0 or (n - 1) * I <= T: the n-th poll began no later than T
    after the start.  Equality is reached when the sum of line 33 is
    rounded up. *)
Theorem wait_for_server_request_budget
    fuel host port timeout interval w w' r :
  (0 < interval)%Z →
  wait_for_server fuel host port timeout interval w = Some (w', r) →
  requests w ≤ requests w' ∧
  (requests w' = requests w ∨
   ((Z.of_nat (requests w' - requests w) - 1) * interval ≤ timeout)%Z).
Proof.
  intros Hpos. rewrite wait_for_server_eq.
  pose proof (float_sum_bounds (oracle w) (now w) timeout) as Hsum.
  intros [Hle Hn]%wait_loop_requests; [|done].
  split; [done|]. destruct Hn as [Hn|Hn]; [by left|right; lia].
Qed.

Lemma wait_for_server_request_budget_witness :
  ∃ w' r,
    wait_for_server 6 "localhost" 8080 2000 500 (idle_world hanging ∅) =
      Some (w', r) ∧
    requests (idle_world hanging ∅) ≤ requests w' ∧
    (requests w' = requests (idle_world hanging ∅) ∨
     ((Z.of_nat (requests w' - requests (idle_world hanging ∅)) - 1) * 500 ≤
        2000)%Z).
Proof.
  eexists _, _. split; [vm_compute; reflexivity|].
  eapply (wait_for_server_request_budget 6 "localhost" 8080 2000 500
            (idle_world hanging ∅)).
  - lia.
  - vm_compute. reflexivity.
Defined.

(** The bounds of X3 and X4 are reached.  With T = 0.2 s, I = 0.1 s and
    a clock that reads 0.1 s at the start, against a closed port: when
    the sum of line 33 is exact the probe polls at 0.1 and 0.2 s and
    raises at 0.3 s; when it is rounded up (as [0.1 + 0.2] is in
    binary64) the clock value 0.3 s is still below the deadline, and the
    probe polls a third time and raises at 0.4 s, T + I after the
    start. *)
Example probe_at_rounded_deadline :
  (∃ w',
     wait_for_server 10 "localhost" 8080 200 100 (world_at 100 refusing) =
       Some (w', Raise (TimeoutError (timeout_message "localhost" 8080))) ∧
     requests w' = 2 ∧ now w' = 300%Z) ∧
  (∃ w',
     wait_for_server 10 "localhost" 8080 200 100
                     (world_at 100 refusing_rounded_up) =
       Some (w', Raise (TimeoutError (timeout_message "localhost" 8080))) ∧
     requests w' = 3 ∧ now w' = 400%Z).
Proof. split; eexists; (split; [vm_compute; reflexivity|done]). Qed.

Lemma wait_loop_events url deadline interval :
  ∀ fuel w w' r,
    wait_loop fuel url deadline interval w = Some (w', r) →
    ∃ evs,
      trace w' = evs ++ trace w ∧
      Forall (λ ev, ev = EvGet url ∨ ev = EvSleep interval) evs ∧
      count_kind KGet evs = requests w' - requests w ∧
      requests w ≤ requests w'.
Proof.
  induction fuel as [|fuel IH]; intros w w' r Hrun; [done|].
  destruct (Z.lt_ge_cases (now w) deadline) as [Hlt|Hge].
  2:{ rewrite wait_loop_expired in Hrun by done. injection Hrun as <- _.
      exists []. split; [done|]. split; [constructor|]. simpl. lia. }
  rewrite wait_loop_unfold in Hrun by done.
  assert (∀ d,
            (time_sleep interval ;; wait_loop fuel url deadline interval)
              (after_request url d w) = Some (w', r) →
            ∃ evs,
              trace w' = evs ++ trace w ∧
              Forall (λ ev, ev = EvGet url ∨ ev = EvSleep interval) evs ∧
              count_kind KGet evs = requests w' - requests w ∧
              requests w ≤ requests w') as Hnext.
  { intros d H. unfold bind at 1, time_sleep in H.
    destruct (interval <? 0)%Z.
    - injection H as <- _. exists [EvGet url]. split; [done|].
      split; [by apply Forall_cons; split; [left|constructor]|]. simpl. lia.
    - apply IH in H as (evs & Htr & Hall & Hcount & Hle). simpl in *.
      exists (evs ++ [EvSleep interval; EvGet url]).
      split; [by rewrite Htr, <- app_assoc|]. split.
      + apply Forall_app. split; [done|].
        apply Forall_cons. split; [by right|].
        apply Forall_cons. split; [by left|constructor].
      + rewrite count_kind_app. simpl. lia. }
  destruct (endpoint (oracle w) (requests w)) as [d [st text|e]].
  - destruct (str_in "data" text); [|by apply (Hnext d)].
    injection Hrun as <- _. exists [EvGet url]. split; [done|].
    split; [by apply Forall_cons; split; [left|constructor]|]. simpl. lia.
  - destruct (is_Exception e); [by apply (Hnext d)|].
    injection Hrun as <- _. exists [EvGet url]. split; [done|].
    split; [by apply Forall_cons; split; [left|constructor]|]. simpl. lia.
Qed.

(** X15: the probe does nothing but poll its one URL and sleep.
    However [wait_for_server] ends, every event it has added is a GET of
    [http://host:port/v1/models] or a sleep of exactly the interval, one
    GET per request it issued; it writes no log line, runs and signals no
    process, and leaves [os.environ] and the process table alone. *)
Theorem wait_for_server_only_polls fuel host port timeout interval w w' r :
  wait_for_server fuel host port timeout interval w = Some (w', r) →
  (∃ evs,
     trace w' = evs ++ trace w ∧
     Forall (λ ev, ev = EvGet (models_url host port) ∨
                   ev = EvSleep interval) evs ∧
     count_kind KGet evs = requests w' - requests w) ∧
  procs w' = procs w ∧ environ w' = environ w.
Proof.
  intros Hrun.
  destruct (behaves_wait_for_server
              (λ k, match k with KGet | KSleep => true | _ => false end)
              (λ _, true) fuel host port timeout interval
              eq_refl eq_refl (λ _, eq_refl) eq_refl eq_refl _ _ _ Hrun)
    as [[_ Henv _ Hprocs] _].
  rewrite wait_for_server_eq in Hrun.
  apply wait_loop_events in Hrun as (evs & Htr & Hall & Hcount & _).
  split; [by exists evs|]. split; [by apply Hprocs|done].
Qed.

Lemma wait_for_server_only_polls_witness :
  ∃ w' r,
    wait_for_server 6 "localhost" 8080 2000 500 (idle_world hanging ∅) =
      Some (w', r) ∧
    (∃ evs,
       trace w' = evs ++ trace (idle_world hanging ∅) ∧
       Forall (λ ev, ev = EvGet (models_url "localhost" 8080) ∨
                     ev = EvSleep 500) evs ∧
       count_kind KGet evs = requests w' - requests (idle_world hanging ∅)) ∧
    procs w' = procs (idle_world hanging ∅) ∧
    environ w' = environ (idle_world hanging ∅).
Proof.
  eexists _, _. split; [vm_compute; reflexivity|].
  eapply (wait_for_server_only_polls 6 "localhost" 8080 2000 500
            (idle_world hanging ∅)).
  vm_compute. reflexivity.
Defined.

(** * Fail-fast scripts *)

Lemma argv_run_app t1 t2 : argv_run (t1 ++ t2) = argv_run t2 ++ argv_run t1.
Proof.
  induction t1 as [|ev t1 IH]; simpl; [by rewrite app_nil_r|].
  destruct ev; try done. by rewrite IH, app_assoc.
Qed.

(** ** Fail-fast scripts *)

Lemma script_result_app o c1 c2 :
  script_result o (c1 ++ c2) =
    match script_result o c1 with
    | Return _ => script_result o c2
    | Raise e => Raise e
    end.
Proof.
  induction c1 as [|c c1 IH]; simpl; [done|].
  destruct (command o c) as [rc|err]; [|done].
  by destruct (rc =? 0)%Z.
Qed.

Lemma script_runs_app o c1 c2 :
  script_runs o (c1 ++ c2) =
    script_runs o c1 ++
    match script_result o c1 with
    | Return _ => script_runs o c2
    | Raise _ => []
    end.
Proof.
  induction c1 as [|c c1 IH]; simpl; [done|].
  destruct (command o c) as [rc|err]; [|done].
  destruct (rc =? 0)%Z; [by rewrite IH|done].
Qed.

(** A script returns exactly when all its commands exit with 0, and has
    then run them all. *)
Lemma script_result_ok o cmds :
  script_result o cmds = Return tt ↔ Forall (exits_ok o) cmds.
Proof.
  unfold exits_ok. induction cmds as [|c cmds IH]; simpl.
  - split; [constructor|done].
  - rewrite Forall_cons, <- IH.
    destruct (command o c) as [rc|err]; [|split; [done|by intros [? _]]].
    destruct (Z.eqb_spec rc 0) as [->|Hrc]; [tauto|].
    split; [done|]. intros [[= ?] _]. done.
Qed.

Lemma script_runs_ok o cmds :
  script_result o cmds = Return tt → script_runs o cmds = cmds.
Proof.
  induction cmds as [|c cmds IH]; simpl; [done|].
  destruct (command o c) as [rc|err]; [|done].
  destruct (rc =? 0)%Z; [|done]. intros H. by rewrite IH.
Qed.

(** A script that fails stops at its first failing command: it has run
    the commands before it, and the failing one if it could be started;
    it raises the error of that command. *)
Lemma script_stops o pre c post :
  Forall (exits_ok o) pre →
  command o c ≠ Exited 0 →
  script_runs o (pre ++ c :: post) =
    pre ++ match command o c with Exited _ => [c] | NotStarted _ => [] end ∧
  script_result o (pre ++ c :: post) =
    match command o c with
    | Exited rc => Raise (CalledProcessError rc c)
    | NotStarted err => Raise (OSError_of err)
    end.
Proof.
  intros Hpre Hc. apply script_result_ok in Hpre.
  rewrite script_runs_app, script_result_app, Hpre,
    (script_runs_ok _ _ Hpre). simpl.
  destruct (command o c) as [rc|err]; [|done].
  by destruct (Z.eqb_spec rc 0) as [->|Hrc].
Qed.

Lemma script_runs_prefix o cmds : script_runs o cmds `prefix_of` cmds.
Proof.
  induction cmds as [|c cmds IH]; simpl; [done|].
  destruct (command o c) as [rc|err]; [|apply prefix_nil].
  destruct (rc =? 0)%Z; [by apply prefix_cons|].
  apply prefix_cons, prefix_nil.
Qed.

Lemma fail_fast_ret : fail_fast [] (ret tt).
Proof.
  intros w. exists w, []. repeat split; try done.
  constructor.
Qed.

Lemma fail_fast_logger_info logger s : fail_fast [] (logger_info logger s).
Proof.
  intros w. eexists _, [_]. split; [reflexivity|].
  repeat split; try done. by repeat constructor.
Qed.

Lemma fail_fast_run_cmd cmd cwd l : fail_fast [cmd] (run_cmd cmd cwd (Some l)).
Proof.
  intros w. rewrite run_cmd_eq. simpl.
  destruct (command (oracle w) cmd) as [rc|err] eqn:Hc;
    [destruct (Z.eqb_spec rc 0) as [->|Hrc]|].
  - eexists _, [_; _]. split; [reflexivity|].
    repeat split; try done; by repeat constructor.
  - eexists _, [_; _]. split; [reflexivity|].
    repeat split; try done; by repeat constructor.
  - eexists _, [_]. split; [reflexivity|].
    repeat split; try done; by repeat constructor.
Qed.

Lemma fail_fast_bind c1 c2 (m k : M unit) :
  fail_fast c1 m → fail_fast c2 k → fail_fast (c1 ++ c2) (m ;; k).
Proof.
  intros Hm Hk w.
  destruct (Hm w) as (w1 & evs1 & H1 & Ht1 & Ho1 & He1 & Hp1 & Hon1 & Hrun1).
  rewrite script_result_app, script_runs_app.
  destruct (script_result (oracle w) c1) as [[]|e].
  - destruct (Hk w1)
      as (w2 & evs2 & H2 & Ht2 & Ho2 & He2 & Hp2 & Hon2 & Hrun2).
    exists w2, (evs2 ++ evs1).
    rewrite (bind_Return _ _ _ _ _ H1), <- Ho1. split; [done|].
    split; [by rewrite Ht2, Ht1, app_assoc|].
    split; [congruence|]. split; [congruence|]. split; [congruence|].
    split; [by apply Forall_app|].
    rewrite argv_run_app. congruence.
  - exists w1, evs1.
    rewrite (bind_Raise _ _ _ _ _ H1), app_nil_r. done.
Qed.

Lemma fail_fast_for_each {A} (xs : list A) (body : A → M unit) :
  (∀ x, fail_fast [] (body x)) → fail_fast [] (for_each xs body).
Proof.
  intros Hbody. induction xs as [|x xs IH]; simpl; [apply fail_fast_ret|].
  by apply (fail_fast_bind [] []).
Qed.

Lemma fail_fast_ensure_uv which_uv logger :
  fail_fast (match which_uv with None => [install_uv_cmd] | Some _ => [] end)
            (ensure_uv which_uv logger).
Proof.
  destruct which_uv; simpl; [apply fail_fast_ret|].
  apply (fail_fast_bind [] [_]);
    [apply fail_fast_logger_info|apply fail_fast_run_cmd].
Qed.

Ltac provision_steps fw :=
  destruct fw; simpl; unfold vllm_provision, sglang_provision;
  [ apply (fail_fast_bind [_] [_]); [apply fail_fast_run_cmd|];
    apply (fail_fast_bind [_] []);
    [apply fail_fast_run_cmd|apply fail_fast_logger_info]
  | apply (fail_fast_bind [_] [_]); [apply fail_fast_run_cmd|];
    apply (fail_fast_bind [] [_]); [apply fail_fast_logger_info|];
    apply (fail_fast_bind [_] []);
    [apply fail_fast_run_cmd|apply fail_fast_logger_info] ].

Lemma provision_script fw self :
  fail_fast (provision_cmds fw) (provision_of fw self).
Proof. provision_steps fw. Qed.

(** * Further properties of the jobs *)

Lemma teardown_eq fw self proc pr w :
  returncode proc = None →
  procs w !! pid proc = Some pr →
  ∃ l1 l2,
    kind_of l1 = KLog ∧ kind_of l2 = KLog ∧
    match fw with
    | Vllm => vllm_teardown self proc
    | Sglang => sglang_teardown self proc
    end w =
      Some (push l2
              (push (EvReap (pid proc))
                 (set_procs
                    (delete (pid proc) (sigkill (pgid pr) <$> procs w))
                    (push (EvKillpg (pgid pr)) (push l1 w)))),
            Return tt).
Proof.
  intros Hrc Hp.
  destruct fw; unfold vllm_teardown, sglang_teardown;
    (eexists _, _; split; [|split]; cycle 2;
     [ unfold bind at 1, self_info, logger_info, emit; cbn beta iota;
       match goal with
       | |- bind (terminate proc) _ ?w1 = _ =>
           destruct (terminate_first proc pr w1 Hrc Hp) as [st Hterm]
       end;
       rewrite (bind_Return _ _ _ _ _ Hterm); reflexivity
     | reflexivity
     | reflexivity ]).
Qed.

(** What follows the readiness wait either stops at a failing command,
    having touched no process, or goes through to the tear-down, which
    kills the group of the server and reaps it. *)
Lemma finish_inv fw self proc pr w w' r :
  returncode proc = None →
  procs w !! pid proc = Some pr →
  finish_of fw self proc w = Some (w', r) →
  (∃ e, r = Raise e ∧ extends commands_only w w') ∨
  (r = Return tt ∧
   ∃ w5 l1 l2,
     extends commands_only w w5 ∧ kind_of l1 = KLog ∧ kind_of l2 = KLog ∧
     trace w' =
       l2 :: EvReap (pid proc) :: EvKillpg (pgid pr) :: l1 :: trace w5 ∧
     procs w' = delete (pid proc) (sigkill (pgid pr) <$> procs w)).
Proof.
  intros Hrc Hp Hfin.
  assert (∀ w5, extends commands_only w w5 →
            match fw with
            | Vllm => vllm_teardown self proc
            | Sglang => sglang_teardown self proc
            end w5 = Some (w', r) →
            r = Return tt ∧
            ∃ w5 l1 l2,
              extends commands_only w w5 ∧
              kind_of l1 = KLog ∧ kind_of l2 = KLog ∧
              trace w' =
                l2 :: EvReap (pid proc) :: EvKillpg (pgid pr) :: l1
                   :: trace w5 ∧
              procs w' = delete (pid proc) (sigkill (pgid pr) <$> procs w))
    as Hdown.
  { intros w5 Hext Hrun.
    assert (procs w5 !! pid proc = Some pr) as Hp5
      by by rewrite (ext_procs _ _ _ Hext).
    destruct (teardown_eq fw self proc pr w5 Hrc Hp5)
      as (l1 & l2 & Hl1 & Hl2 & Heq).
    rewrite Heq in Hrun. injection Hrun as <- <-. split; [done|].
    exists w5, l1, l2. split; [done|]. split; [done|]. split; [done|].
    split; [done|]. cbn [procs push set_procs].
    by rewrite (ext_procs _ _ _ Hext). }
  destruct fw; simpl in Hfin.
  - apply bind_inv in Hfin as [(w1 & [] & H1 & Hfin)|(e & H1 & ->)].
    2:{ left. exists e. split; [done|].
        by destruct (behaves_vllm_setup_src commands_only any_exn eq_refl
                       eq_refl (λ _ _, eq_refl) (λ _, eq_refl) self
                       _ _ _ H1). }
    destruct (behaves_vllm_setup_src commands_only any_exn eq_refl eq_refl
                (λ _ _, eq_refl) (λ _, eq_refl) self _ _ _ H1) as [E1 _].
    apply bind_inv in Hfin as [(w2 & [] & H2 & Hfin)|(e & H2 & ->)].
    2:{ left. exists e. split; [done|]. eapply extends_trans; [exact E1|].
        by destruct (behaves_vllm_benchmark commands_only any_exn eq_refl
                       eq_refl (λ _ _, eq_refl) (λ _, eq_refl) self
                       _ _ _ H2). }
    destruct (behaves_vllm_benchmark commands_only any_exn eq_refl eq_refl
                (λ _ _, eq_refl) (λ _, eq_refl) self _ _ _ H2) as [E2 _].
    right. apply (Hdown w2); [by eapply extends_trans|done].
  - apply bind_inv in Hfin as [(w2 & [] & H2 & Hfin)|(e & H2 & ->)].
    2:{ left. exists e. split; [done|].
        by destruct (behaves_sglang_benchmark commands_only any_exn eq_refl
                       eq_refl (λ _ _, eq_refl) (λ _, eq_refl) self
                       _ _ _ H2). }
    destruct (behaves_sglang_benchmark commands_only any_exn eq_refl eq_refl
                (λ _ _, eq_refl) (λ _, eq_refl) self _ _ _ H2) as [E2 _].
    right. by apply (Hdown w2).
Qed.

(** X5: a job tears its server down exactly when its run returns.  A run
    that returns has spawned one server, signalled its group once and
    reaped it once, and leaves the process table as it was but for that
    signal.  A run that raises, at whatever step, has performed no
    tear-down: either no server was spawned and the process table is as
    before, or the server it spawned is left behind: its entry is still
    in the process table, under a pid that was free, in the state it has
    got into by itself (running, or a zombie if it has exited), and
    nothing else in the table has changed. *)
Theorem teardown_iff_success fw fuel self w w' r :
  run_of fw fuel self w = Some (w', r) →
  (r = Return tt →
   count_kind KPopen (trace w') = S (count_kind KPopen (trace w)) ∧
   count_kind KKillpg (trace w') = S (count_kind KKillpg (trace w)) ∧
   count_kind KReap (trace w') = S (count_kind KReap (trace w)) ∧
   ∃ p, procs w !! p = None ∧ procs w' = sigkill p <$> procs w) ∧
  (∀ e, r = Raise e →
   count_kind KKillpg (trace w') = count_kind KKillpg (trace w) ∧
   count_kind KReap (trace w') = count_kind KReap (trace w) ∧
   ((count_kind KPopen (trace w') = count_kind KPopen (trace w) ∧
     procs w' = procs w) ∨
    (count_kind KPopen (trace w') = S (count_kind KPopen (trace w)) ∧
     ∃ p st, procs w !! p = None ∧
             procs w' = <[p := mkProcess p st]> (procs w)))).
Proof.
  intros H%run_of_inv. simpl in H.
  set (w1 := push (EvLog (name self) INFO (Text (banner_of fw))) w) in H.
  assert (extends commands_only w w1) as Hext1 by by apply extends_push.
  destruct H as [(e & Hprov & ->)|(w2 & Hprov & H)].
  { destruct (provision_commands_only fw self _ _ _ Hprov) as [Hext2 _].
    pose proof (extends_trans _ _ _ _ Hext1 Hext2) as Hext.
    split; [done|]. intros ? _.
    rewrite !(extends_count _ _ _ _ Hext) by done.
    split; [done|]. split; [done|]. left.
    by rewrite (ext_procs _ _ _ Hext). }
  destruct (provision_commands_only fw self _ _ _ Hprov) as [Hext2 _].
  pose proof (extends_trans _ _ _ _ Hext1 Hext2) as Hext.
  clear Hext1 Hext2 Hprov.
  destruct H as [(e & Hlaunch & ->)|(w3 & proc & Hlaunch & H)].
  { apply launch_inv in Hlaunch
      as (_ & _ & [(l1 & _ & Htr & Hl1 & Hprocs)|(? & ? & ? & ? & ? & ? & _)]);
      [|discriminate].
    split; [done|]. intros ? _.
    rewrite Htr, !count_kind_cons, Hl1. simpl.
    rewrite !(extends_count _ _ _ _ Hext) by done.
    split; [done|]. split; [done|]. left.
    by rewrite Hprocs, (ext_procs _ _ _ Hext). }
  apply launch_inv in Hlaunch
    as (_ & _ & [(? & ? & _)|(p & st & l1 & l2 & c & [= ->] & Hfree & Hprocs
                               & Htr & Hl1 & Hl2)]);
    [discriminate|].
  rewrite (ext_procs _ _ _ Hext) in Hfree, Hprocs by done.
  assert (count_kind KPopen (trace w3) = S (count_kind KPopen (trace w)) ∧
          count_kind KKillpg (trace w3) = count_kind KKillpg (trace w) ∧
          count_kind KReap (trace w3) = count_kind KReap (trace w))
    as (Hc1 & Hc2 & Hc3).
  { rewrite Htr, !count_kind_cons, Hl1, Hl2. simpl.
    by rewrite !(extends_count _ _ _ _ Hext). }
  destruct H as [(e & Hwait & ->)|(w4 & Hwait & Hfin)].
  { destruct (wait_ready_polls_only fw fuel self _ _ _ Hwait) as [E _].
    split; [done|]. intros ? _.
    rewrite !(extends_count _ _ _ _ E), (ext_procs _ _ _ E) by done.
    split; [done|]. split; [done|]. right. split; [done|].
    by exists p, st. }
  destruct (wait_ready_polls_only fw fuel self _ _ _ Hwait) as [E _].
  apply (finish_inv fw self (mkPopen p None) (mkProcess p st)) in Hfin
    as [(e & -> & E')|(-> & w5 & m1 & m2 & E' & Hm1 & Hm2 & Htr' & Hprocs')];
    [| |done|by rewrite (ext_procs _ _ _ E), Hprocs, lookup_insert_eq].
  - split; [done|]. intros ? _.
    rewrite !(extends_count _ _ _ _ E'), (ext_procs _ _ _ E'),
      !(extends_count _ _ _ _ E), (ext_procs _ _ _ E) by done.
    split; [done|]. split; [done|]. right. split; [done|].
    by exists p, st.
  - split; [|done]. intros _.
    rewrite Htr', !count_kind_cons, Hm1, Hm2. simpl.
    rewrite !(extends_count _ _ _ _ E'), !(extends_count _ _ _ _ E) by done.
    split; [by rewrite Hc1|]. split; [by rewrite Hc2|].
    split; [by rewrite Hc3|]. exists p. split; [done|].
    rewrite Hprocs'. simpl.
    rewrite (ext_procs _ _ _ E), Hprocs, fmap_insert by done.
    apply delete_insert_id. by rewrite lookup_fmap, Hfree.
Qed.

Lemma teardown_iff_success_witness :
  ∃ w',
    run_of Sglang 100 sglang_self (idle_world healthy ∅) =
      Some (w', Return tt) ∧
    count_kind KPopen (trace w') =
      S (count_kind KPopen (trace (idle_world healthy ∅))) ∧
    count_kind KKillpg (trace w') =
      S (count_kind KKillpg (trace (idle_world healthy ∅))) ∧
    count_kind KReap (trace w') =
      S (count_kind KReap (trace (idle_world healthy ∅))) ∧
    ∃ p, procs (idle_world healthy ∅) !! p = None ∧
         procs w' = sigkill p <$> procs (idle_world healthy ∅).
Proof.
  eexists. split; [vm_compute; reflexivity|].
  eapply (teardown_iff_success Sglang 100 sglang_self
            (idle_world healthy ∅)).
  - vm_compute. reflexivity.
  - reflexivity.
Defined.

(** A server that has exited by itself is left behind all the same: the
    sglang job whose server crashes at once times out on the closed port
    and ends without having waited for its child, which stays in the
    process table as a zombie. *)
Example crashed_server_left_unreaped :
  ∃ w',
    run_of Sglang 100 sglang_self (idle_world crashing ∅) =
      Some (w', Raise (TimeoutError (timeout_message "localhost" 8080))) ∧
    procs w' = {[1%positive := mkProcess 1 (Zombie 1)]} ∧
    count_kind KKillpg (trace w') = 0 ∧
    count_kind KReap (trace w') = 0.
Proof. eexists. split; [vm_compute; reflexivity|]. by vm_compute. Qed.

(** The tear-down of a server that has exited by itself: the signal
    finds the zombie, and [wait] reaps it with its own exit status. *)
Example teardown_of_exited_server :
  ∃ w',
    terminate (mkPopen 7 None)
      (set_procs {[7%positive := mkProcess 7 (Zombie 1)]}
                 (idle_world healthy ∅)) =
      Some (w', Return (mkPopen 7 (Some 1%Z))) ∧
    procs w' = ∅ ∧
    trace w' = [EvReap 7; EvKillpg 7].
Proof. eexists. split; [vm_compute; reflexivity|]. by vm_compute. Qed.

Lemma requires_behaves {A} ok ex (m : M A) : behaves ok ex m → requires [] m.
Proof.
  intros Hm w w' a H. destruct (Hm _ _ _ H) as [[Ho _ _ _] _].
  split; [done|constructor].
Qed.

Lemma requires_bind {A B} c1 c2 (m : M A) (k : A → M B) :
  requires c1 m → (∀ a, requires c2 (k a)) → requires (c1 ++ c2) (bind m k).
Proof.
  intros Hm Hk w w' b H.
  apply bind_inv in H as [(w1 & a & H1 & H2)|(e & _ & [=])].
  destruct (Hm _ _ _ H1) as [Ho1 Hc1]. destruct (Hk _ _ _ _ H2) as [Ho2 Hc2].
  split; [congruence|]. apply Forall_app. split; [done|].
  by rewrite Ho1 in Hc2.
Qed.

Lemma requires_run_cmd cmd cwd l : requires [cmd] (run_cmd cmd cwd (Some l)).
Proof.
  intros w w' a. rewrite run_cmd_eq. simpl.
  destruct (command (oracle w) cmd) as [rc|err] eqn:Hc; [|done].
  destruct (Z.eqb_spec rc 0) as [->|_]; [|done].
  intros [= <-]. split; [done|]. by repeat constructor.
Qed.

Lemma requires_subprocess_run_check argv cwd :
  requires [argv] (subprocess_run argv cwd true).
Proof.
  intros w w' a. unfold subprocess_run.
  destruct (command (oracle w) argv) as [rc|err] eqn:Hc; [|done]. simpl.
  destruct (Z.eqb_spec rc 0) as [->|_]; [|done].
  intros [= <- _]. split; [done|]. by repeat constructor.
Qed.

Lemma requires_self_info self s : requires [] (self_info self s).
Proof.
  apply (requires_behaves (λ _, true) any_exn). by apply behaves_self_info.
Qed.

Lemma requires_job fw fuel self :
  requires (job_cmds fw self) (run_of fw fuel self).
Proof.
  rewrite run_of_eq.
  assert (requires [] (launch_of fw self)) as Hlaunch.
  { apply (requires_behaves (λ _, true) any_exn).
    destruct fw; [apply behaves_vllm_launch|apply behaves_sglang_launch];
      done. }
  assert (requires [] (wait_ready_of fw fuel self)) as Hwait
    by apply (requires_behaves _ _ _ (wait_ready_polls_only fw fuel self)).
  destruct fw; simpl.
  - apply (requires_bind [] _); [apply requires_self_info|intros _].
    apply (requires_bind [vllm_venv_cmd; vllm_install_cmd] _).
    { unfold vllm_provision.
      apply (requires_bind [_] [_]); [apply requires_run_cmd|intros _].
      apply (requires_bind [_] []); [apply requires_run_cmd|intros _].
      apply requires_self_info. }
    intros _. apply (requires_bind [] _); [done|intros proc].
    apply (requires_bind [] _); [done|intros _].
    apply (requires_bind [_; _] [_]).
    { unfold vllm_setup_src.
      apply (requires_bind [] _); [apply requires_self_info|intros _].
      apply (requires_bind [_] [_]); [apply requires_run_cmd|intros _].
      apply (requires_bind [] _); [apply requires_self_info|intros _].
      apply (requires_bind [_] []); [apply requires_run_cmd|intros _].
      apply requires_self_info. }
    intros _. apply (requires_bind [_] []).
    { unfold vllm_benchmark.
      apply (requires_bind [] _); [apply requires_self_info|intros _].
      apply (requires_bind [] _); [apply requires_self_info|intros _].
      apply (requires_bind [_] []);
        [apply requires_subprocess_run_check|intros _].
      apply requires_self_info. }
    intros _. apply (requires_behaves (λ _, true) any_exn).
    by apply behaves_vllm_teardown.
  - apply (requires_bind [] _); [apply requires_self_info|intros _].
    apply (requires_bind [sglang_venv_cmd; ["bash"; "-c"; sglang_install_cmd]]
                         _).
    { unfold sglang_provision.
      apply (requires_bind [_] [_]); [apply requires_run_cmd|intros _].
      apply (requires_bind [] _); [apply requires_self_info|intros _].
      apply (requires_bind [_] []); [apply requires_run_cmd|intros _].
      apply requires_self_info. }
    intros _. apply (requires_bind [] _); [done|intros proc].
    apply (requires_bind [] _); [done|intros _].
    apply (requires_bind [_] []).
    { unfold sglang_benchmark.
      apply (requires_bind [] _); [apply requires_self_info|intros _].
      apply (requires_bind [] _); [apply requires_self_info|intros _].
      apply (requires_bind [_] []);
        [apply requires_subprocess_run_check|intros _].
      apply requires_self_info. }
    intros _. apply (requires_behaves (λ _, true) any_exn).
    by apply behaves_sglang_teardown.
Qed.

(** X6: a job only reports success when every command it ran succeeded:
    if its run returns, both provisioning commands, for vllm the two
    commands that set up the benchmark client, and the benchmark script
    itself all exited with status 0. *)
Theorem success_means_every_command_succeeded fw fuel self w w' :
  run_of fw fuel self w = Some (w', Return tt) →
  Forall (exits_ok (oracle w)) (job_cmds fw self).
Proof. intros H. by destruct (requires_job fw fuel self _ _ _ H). Qed.

Lemma success_means_every_command_succeeded_witness :
  ∃ w',
    run_of Vllm 100 vllm_self (idle_world healthy ∅) =
      Some (w', Return tt) ∧
    Forall (exits_ok (oracle (idle_world healthy ∅)))
           (job_cmds Vllm vllm_self).
Proof.
  eexists. split; [vm_compute; reflexivity|].
  eapply (success_means_every_command_succeeded Vllm 100 vllm_self
            (idle_world healthy ∅)).
  vm_compute. reflexivity.
Defined.

Lemma keeps_requests_bind {A B} (m : M A) (k : A → M B) :
  keeps_requests m → (∀ a, keeps_requests (k a)) → keeps_requests (bind m k).
Proof.
  intros Hm Hk w w' r H.
  apply bind_inv in H as [(w1 & a & H1 & H2)|(e & H1 & ->)].
  - rewrite (Hk _ _ _ _ H2). by eapply Hm.
  - by eapply Hm.
Qed.

Lemma keeps_requests_self_info self s : keeps_requests (self_info self s).
Proof. by intros w w' r [= <- <-]. Qed.

Lemma keeps_requests_run_cmd cmd cwd l :
  keeps_requests (run_cmd cmd cwd (Some l)).
Proof.
  intros w w' r. rewrite run_cmd_eq. simpl.
  destruct (command _ _) as [rc|]; [destruct (rc =? 0)%Z|];
    by intros [= <- <-].
Qed.

Lemma keeps_requests_provision fw self :
  keeps_requests (provision_of fw self).
Proof.
  destruct fw; simpl; unfold vllm_provision, sglang_provision;
    repeat first
      [ apply keeps_requests_self_info
      | apply keeps_requests_run_cmd
      | apply keeps_requests_bind; [|intros ?] ].
Qed.

Lemma keeps_requests_launch fw self : keeps_requests (launch_of fw self).
Proof.
  intros w w' r. destruct fw; simpl;
    unfold vllm_launch, sglang_launch, bind, spawn_env, self_info,
      logger_info, emit, subprocess_Popen, ret; simpl;
    destruct (shell_spawns _ _); by intros [= <- <-].
Qed.

Lemma keeps_requests_subprocess_run argv cwd check :
  keeps_requests (subprocess_run argv cwd check).
Proof.
  intros w w' r. unfold subprocess_run.
  destruct (command _ _) as [rc|]; [destruct (check && _)|];
    by intros [= <- <-].
Qed.

Lemma keeps_requests_terminate proc : keeps_requests (terminate proc).
Proof.
  unfold terminate. apply keeps_requests_bind.
  { intros w w' r. unfold os_getpgid.
    destruct (procs w !! _); by intros [= <- <-]. }
  intros pg. apply keeps_requests_bind.
  { intros w w' r. unfold os_killpg.
    destruct (existsb _ _); by intros [= <- <-]. }
  intros _ w w' r. unfold Popen_wait.
  destruct (returncode proc); [by intros [= <- <-]|].
  destruct (procs w !! pid proc) as [[pg' [|st]]|]; simpl;
    by intros [= <- <-].
Qed.

Lemma keeps_requests_finish fw self proc :
  keeps_requests (finish_of fw self proc).
Proof.
  destruct fw; simpl;
    unfold vllm_setup_src, vllm_benchmark, vllm_teardown,
      sglang_benchmark, sglang_teardown;
    repeat first
      [ apply keeps_requests_self_info
      | apply keeps_requests_run_cmd
      | apply keeps_requests_subprocess_run
      | apply keeps_requests_terminate
      | apply keeps_requests_bind; [|intros ?] ].
Qed.

Lemma argv_run_quiet_cons ev t :
  kind_of ev ≠ KRun → argv_run (ev :: t) = argv_run t.
Proof. by destruct ev. Qed.

Lemma argv_run_only ok evs :
  only ok evs → ok KRun = false → argv_run evs = [].
Proof.
  induction 1 as [|ev evs Hev _ IH]; intros Hk; [done|].
  rewrite argv_run_quiet_cons; [by apply IH|]. intros Hrun.
  rewrite Hrun in Hev. congruence.
Qed.

(** The benchmark script is none of the provisioning commands. *)
Lemma bench_not_provision fw self : bench_argv fw self ∉ provision_cmds fw.
Proof.
  destruct fw; simpl; unfold vllm_venv_cmd, vllm_install_cmd,
    sglang_venv_cmd, sglang_install_cmd, bench_cmd;
    intros [H|H]%elem_of_two; vm_compute in H; discriminate.
Qed.

(** The readiness wait of a job only returns after a response with
    "data" in its text. *)
Lemma wait_ready_returns_ready fw fuel self w w' :
  wait_ready_of fw fuel self w = Some (w', Return tt) →
  ∃ k d status text,
    requests w ≤ k < requests w' ∧
    endpoint (oracle w) k = (d, Response status text) ∧
    str_in "data" text = true.
Proof.
  intros H.
  assert (∃ w1 w2,
            requests w1 = requests w ∧ oracle w1 = oracle w ∧
            requests w' = requests w2 ∧
            wait_for_server fuel "localhost" (port self) default_timeout
              default_interval w1 = Some (w2, Return tt))
    as (w1 & w2 & Hreq & Ho & Hreq' & Hwait).
  { destruct fw; simpl in H; unfold vllm_wait_ready, sglang_wait_ready in H;
      apply self_info_inv in H;
      (apply bind_inv in H as [(w2 & [] & Hwait & Hlog)|(e & _ & [=])]);
      injection Hlog as <- ;
      refine (ex_intro _ _ (ex_intro _ w2
                (conj _ (conj _ (conj _ Hwait)))));
      reflexivity. }
  rewrite wait_for_server_eq in Hwait.
  apply wait_loop_returns_ready in Hwait
    as (Hlt & (d & st & text & Hlast & Hin) & _).
  exists (requests w2 - 1), d, st, text.
  split; [lia|]. by rewrite <- Ho.
Qed.

(** X14: the benchmark never starts before the server has answered.  If
    the benchmark script of a job is among the commands its run has run,
    then one of the requests issued during that run was answered by a
    response with "data" in its text: a run whose readiness wait times
    out or is interrupted never reaches the benchmark. *)
Theorem benchmark_only_after_ready fw fuel self w w' r evs :
  run_of fw fuel self w = Some (w', r) →
  trace w' = evs ++ trace w →
  bench_argv fw self ∈ argv_run evs →
  ∃ k d status text,
    requests w ≤ k < requests w' ∧
    endpoint (oracle w) k = (d, Response status text) ∧
    str_in "data" text = true.
Proof.
  intros H%run_of_inv Htr Hbench. simpl in H.
  set (b := EvLog (name self) INFO (Text (banner_of fw))) in H.
  destruct (provision_script fw self (push b w))
    as (w2' & evs1 & Hprov' & Htr1 & Ho1 & _ & _ & Honly1 & Hrun1).
  assert (bench_argv fw self ∉ argv_run evs1) as Hnot1.
  { intros Hin. apply (bench_not_provision fw self).
    destruct (script_runs_prefix (oracle (push b w)) (provision_cmds fw))
      as [rest ->].
    apply elem_of_app. left. by rewrite <- Hrun1. }
  destruct H as [(e & Hprov & _)|(w2 & Hprov & H)].
  { rewrite Hprov in Hprov'. injection Hprov' as <- _.
    simpl in Htr1. rewrite Htr1 in Htr.
    assert (evs = evs1 ++ [b]) as ->.
    { apply (app_inv_tail (trace w)). by rewrite <- Htr, <- app_assoc. }
    rewrite argv_run_app in Hbench. simpl in Hbench. done. }
  rewrite Hprov in Hprov'. injection Hprov' as <- _. simpl in Htr1, Ho1.
  pose proof (keeps_requests_provision fw self _ _ _ Hprov) as Hreq2.
  simpl in Hreq2.
  destruct H as [(e & Hlaunch & _)|(w3 & proc & Hlaunch & H)].
  { apply launch_inv in Hlaunch
      as (_ & _ & [(l1 & _ & Htr' & Hl1 & _)|(? & ? & ? & ? & ? & ? & _)]);
      [|discriminate].
    rewrite Htr', Htr1 in Htr.
    assert (evs = l1 :: evs1 ++ [b]) as ->.
    { apply (app_inv_tail (trace w)). rewrite <- Htr. simpl.
      by rewrite <- app_assoc. }
    rewrite argv_run_quiet_cons, argv_run_app in Hbench by congruence.
    done. }
  pose proof (keeps_requests_launch fw self _ _ _ Hlaunch) as Hreq3.
  apply launch_inv in Hlaunch
    as (_ & Ho3 & [(? & ? & _)|(p & ? & l1 & l2 & c & _ & _ & _ & Htr3 & Hl1
                                 & Hl2)]);
    [discriminate|].
  destruct H as [(e & Hwait & _)|(w4 & Hwait & Hfin)].
  { destruct (wait_ready_polls_only fw fuel self _ _ _ Hwait)
      as [[_ _ (evs3 & Htr4 & Honly3) _] _].
    rewrite Htr4, Htr3, Htr1 in Htr.
    assert (evs = evs3 ++ l2 :: EvPopen c (root_dir self)
                     (server_env self (environ w2)) p :: l1 :: evs1 ++ [b])
      as ->.
    { apply (app_inv_tail (trace w)). rewrite <- Htr.
      rewrite <- !app_assoc. simpl. by rewrite <- app_assoc. }
    rewrite argv_run_app, (argv_run_only _ _ Honly3 eq_refl), app_nil_r
      in Hbench.
    rewrite argv_run_quiet_cons in Hbench by congruence.
    rewrite argv_run_quiet_cons in Hbench by done.
    rewrite argv_run_quiet_cons, argv_run_app in Hbench by congruence.
    done. }
  destruct (wait_ready_returns_ready fw fuel self _ _ Hwait)
    as (k & d & st & text & Hk & Hlast & Hin).
  pose proof (keeps_requests_finish fw self proc _ _ _ Hfin) as Hreq5.
  exists k, d, st, text. split; [lia|]. split; [|done]. congruence.
Qed.

Lemma benchmark_only_after_ready_witness :
  ∃ w' r evs,
    run_of Sglang 100 sglang_self (idle_world (ready_after 3) ∅) =
      Some (w', r) ∧
    trace w' = evs ++ trace (idle_world (ready_after 3) ∅) ∧
    bench_argv Sglang sglang_self ∈ argv_run evs ∧
    ∃ k d status text,
      requests (idle_world (ready_after 3) ∅) ≤ k < requests w' ∧
      endpoint (oracle (idle_world (ready_after 3) ∅)) k =
        (d, Response status text) ∧
      str_in "data" text = true.
Proof.
  eexists _, _, _.
  split; [vm_compute; reflexivity|].
  split; [symmetry; apply app_nil_r|].
  assert (∀ P Q : Prop, P → (P → Q) → P ∧ Q) as Hand by tauto.
  apply Hand; clear Hand.
  - apply list_elem_of_In. vm_compute. auto.
  - intros Hin.
    eapply (benchmark_only_after_ready Sglang 100 sglang_self
              (idle_world (ready_after 3) ∅)).
    + vm_compute. reflexivity.
    + symmetry. apply app_nil_r.
    + exact Hin.
Defined.

(** * Further properties of the runner *)

(** An exception that comes out of the loop is either one that
    [except Exception] lets through, or the [OSError] of line 108, whose
    [pkill] could not be started; the line that announces the cleanup is
    then the last thing logged. *)
Lemma run_jobs_loop_raises logger jobs :
  ∀ w w' e,
    run_jobs_loop logger jobs w = Some (w', Raise e) →
    is_Exception e = false ∨
    (∃ err, command (oracle w') pkill_cmd = NotStarted err ∧
            e = OSError_of err ∧
            head (trace w') = Some (killing_line logger)).
Proof.
  induction jobs as [|job jobs IH]; intros w w' e H; [done|]. simpl in H.
  apply bind_inv in H as [(w1 & [|] & Hbody & H)|(e' & Hbody & [= <-])].
  - by eapply IH.
  - done.
  - rewrite run_jobs_body_eq in Hbody.
    destruct (job_run job _) as [[w1 [[]|e0]]|]; [| |done]; simpl in Hbody.
    + destruct (String.eqb _ _); [|done].
      destruct (command _ _) as [rc|err] eqn:Hc; [done|].
      injection Hbody as <- <-. right. by exists err.
    + destruct (is_Exception e0) eqn:He0; [done|].
      injection Hbody as _ <-. by left.
Qed.

(** X7: the failure of a job never escapes the runner.  If [run_jobs]
    itself raises, then either the exception is not an [Exception] (it
    is of the kind of [KeyboardInterrupt], which [except Exception] lets
    through), or it was raised outside the [try], by the
    [subprocess.run] of line 108: it is the [OSError] of a [pkill] that
    could not be started, and the line announcing the cleanup is the last
    thing logged.  Every [Exception] raised by a job's [run] is caught
    and logged. *)
Theorem run_jobs_contains_failures jobs logger w w' e :
  run_jobs jobs logger w = Some (w', Raise e) →
  is_Exception e = false ∨
  (∃ err, command (oracle w') pkill_cmd = NotStarted err ∧
          e = OSError_of err ∧
          head (trace w') = Some (killing_line logger)).
Proof.
  unfold run_jobs. intros H.
  apply bind_inv in H as [(w1 & c & _ & [=])|(e' & Hloop & [= <-])].
  by eapply run_jobs_loop_raises.
Qed.

Lemma run_jobs_contains_failures_witness :
  ∃ w' e,
    run_jobs main_jobs "main" (idle_world no_pkill ∅) =
      Some (w', Raise e) ∧
    (is_Exception e = false ∨
     (∃ err, command (oracle w') pkill_cmd = NotStarted err ∧
             e = OSError_of err ∧
             head (trace w') = Some (killing_line "main"))).
Proof.
  eexists _, _. split; [vm_compute; reflexivity|].
  eapply (run_jobs_contains_failures main_jobs "main"
            (idle_world no_pkill ∅)).
  vm_compute. reflexivity.
Defined.

(** The two ways out, on runs: a Ctrl-C during the readiness wait of the
    first job goes through the [except Exception] clause; and where
    [pkill] may not be executed, the [PermissionError] of line 108 ends
    [run_jobs] after the vllm job has completed, before the sglang job is
    announced. *)
Example run_jobs_escapes :
  (∃ w',
     run_jobs main_jobs "main" (idle_world interrupted ∅) =
       Some (w', Raise KeyboardInterrupt)) ∧
  (∃ w' t,
     run_jobs main_jobs "main" (idle_world no_pkill ∅) =
       Some (w', Raise (PermissionError "pkill")) ∧
     trace w' =
       EvLog "main" INFO (Text "Killing vllm serve process group")
       :: EvLog "main" INFO (Text "✓ vllm completed") :: t).
Proof.
  split.
  - eexists. vm_compute. reflexivity.
  - eexists _, _. split; vm_compute; reflexivity.
Qed.

(** X8: a job object of the base class cannot be run: [BaseJob.run]
    raises [NotImplementedError], so [run_jobs] announces the job, logs
    its failure and returns at once, whatever jobs follow it. *)
Theorem run_jobs_base_job name cfg root_dir logs_dir rest logger w :
  run_jobs (BaseJob_job name cfg root_dir logs_dir :: rest) logger w =
    Some (push (failed_line logger (BaseJob_job name cfg root_dir logs_dir)
                  NotImplementedError)
            (push (running_line logger
                     (BaseJob_job name cfg root_dir logs_dir)) w),
          Return tt).
Proof.
  unfold run_jobs. cbn [run_jobs_loop].
  assert (run_jobs_body logger (BaseJob_job name cfg root_dir logs_dir) w =
            Some (push (failed_line logger
                          (BaseJob_job name cfg root_dir logs_dir)
                          NotImplementedError)
                    (push (running_line logger
                             (BaseJob_job name cfg root_dir logs_dir)) w),
                  Return Returned)) as Hbody
    by by rewrite run_jobs_body_eq.
  by rewrite (bind_Return _ _ _ _ _
                (bind_Return _ _ _ _ _ Hbody)).
Qed.

(** * The start-up code *)

(** X9: with no [--cuda-device] on the command line the servers get the
    environment of the orchestrator as it is.  The default of the option
    is the value of CUDA_VISIBLE_DEVICES in [os.environ], or the empty
    string when it is not set; writing that value back changes
    nothing. *)
Theorem default_device_keeps_environ w :
  ∃ cfg,
    parse_args_defaults w = Some (w, Return cfg) ∧
    ∀ name root_dir logs_dir,
      server_env (BaseJob_init name cfg root_dir logs_dir) (environ w) =
        environ w.
Proof.
  eexists. split; [reflexivity|]. intros name root_dir logs_dir.
  unfold server_env. simpl.
  destruct (environ w !! "CUDA_VISIBLE_DEVICES") as [v|] eqn:Hv; simpl;
    [|done].
  destruct v as [|a v]; simpl; [done|]. by apply insert_id.
Qed.

Ltac global_setup_steps :=
  unfold global_setup, setup_cmds;
  apply (fail_fast_bind [] _);
  [ apply fail_fast_for_each; intros ?;
    apply (fail_fast_bind [] []);
    [apply fail_fast_logger_info|apply fail_fast_ret]
  | apply fail_fast_bind; [apply fail_fast_ensure_uv|];
    apply (fail_fast_bind [_] [_; _]); [apply fail_fast_run_cmd|];
    apply (fail_fast_bind [_] [_]); apply fail_fast_run_cmd ].

(** X10: [global_setup] is a fail-fast script.  It always ends.  Its
    commands are the installer of uv (only when uv is not on the path),
    the two clones and the checkout, in that order.  It runs them one
    after the other and stops at the first that fails: the children it
    has run are exactly those of [script_runs] (the commands before the
    first failing one and, when it could be started, the failing one; no
    command after it), and it ends as [script_result] says (it returns
    when all of them exit with status 0, and raises the error of the
    first failing command otherwise).  It starts and signals no process
    and leaves [os.environ] alone.  The four removals before the commands
    cannot make it fail. *)
Theorem global_setup_fail_fast which_uv root_dir logger :
  fail_fast (setup_cmds which_uv root_dir)
            (global_setup which_uv root_dir logger).
Proof.
  unfold global_setup, setup_cmds.
  apply (fail_fast_bind [] _).
  { apply fail_fast_for_each. intros p.
    apply (fail_fast_bind [] []);
      [apply fail_fast_logger_info|apply fail_fast_ret]. }
  apply fail_fast_bind; [apply fail_fast_ensure_uv|].
  apply (fail_fast_bind [_] [_; _]); [apply fail_fast_run_cmd|].
  apply (fail_fast_bind [_] [_]); apply fail_fast_run_cmd.
Qed.

(** X11: the provisioning part of a job is a fail-fast script over its
    two commands, the creation of the virtual environment and the
    installation: it always ends, returns when both exit with status 0
    and raises the error of the first failing one otherwise, and the
    children it has run are exactly those of [script_runs].  When
    creating the virtual environment fails, the installation is not
    attempted: the provisioning part is then the failed [run_cmd] of that
    first command and nothing more, ending in the same world with the
    same error. *)
Theorem provision_fail_fast fw self :
  fail_fast (provision_cmds fw) (provision_of fw self) ∧
  ∀ w venv install,
    provision_cmds fw = [venv; install] →
    command (oracle w) venv ≠ Exited 0 →
    ∃ w' e,
      run_cmd venv (Some (root_dir self)) (Some (name self)) w =
        Some (w', Raise e) ∧
      provision_of fw self w = Some (w', Raise e).
Proof.
  split.
  { destruct fw; simpl; unfold vllm_provision, sglang_provision.
    - apply (fail_fast_bind [_] [_]); [apply fail_fast_run_cmd|].
      apply (fail_fast_bind [_] []);
        [apply fail_fast_run_cmd|apply fail_fast_logger_info].
    - apply (fail_fast_bind [_] [_]); [apply fail_fast_run_cmd|].
      apply (fail_fast_bind [] [_]); [apply fail_fast_logger_info|].
      apply (fail_fast_bind [_] []);
        [apply fail_fast_run_cmd|apply fail_fast_logger_info]. }
  intros w venv install Hcmds Hfail.
  destruct (run_cmd_fails venv (Some (root_dir self)) (name self) w Hfail)
    as (w' & e & Hrun & _).
  exists w', e. split; [exact Hrun|].
  destruct fw; simpl in Hcmds; injection Hcmds as <- <-; simpl;
    unfold vllm_provision, sglang_provision;
    exact (bind_Raise _ _ _ _ _ Hrun).
Qed.

Lemma provision_fail_fast_witness :
  provision_cmds Vllm = [vllm_venv_cmd; vllm_install_cmd] ∧
  command (oracle (idle_world no_uv ∅)) vllm_venv_cmd ≠ Exited 0 ∧
  ∃ w' e,
    run_cmd vllm_venv_cmd (Some (root_dir vllm_self))
            (Some (name vllm_self)) (idle_world no_uv ∅) =
      Some (w', Raise e) ∧
    provision_of Vllm vllm_self (idle_world no_uv ∅) = Some (w', Raise e).
Proof.
  assert (command (oracle (idle_world no_uv ∅)) vllm_venv_cmd ≠ Exited 0)
    as Hfail by (vm_compute; discriminate).
  split; [reflexivity|]. split; [exact Hfail|].
  exact (proj2 (provision_fail_fast Vllm vllm_self)
           (idle_world no_uv ∅) vllm_venv_cmd vllm_install_cmd
           eq_refl Hfail).
Defined.

(** The run of that witness: without [uv] the vllm job fails with the
    [FileNotFoundError] of [uv] before any child has run. *)
Example provision_without_uv :
  ∃ w',
    run_of Vllm 100 vllm_self (idle_world no_uv ∅) =
      Some (w', Raise (FileNotFoundError "uv")) ∧
    argv_run (trace w') = [] ∧
    count_kind KPopen (trace w') = 0.
Proof. eexists. split; [vm_compute; reflexivity|]. by vm_compute. Qed.

Lemma main_eq fuel which_uv cfg root w :
  main fuel which_uv cfg root w =
    ((logger_info "main" ("Using port: " +:+ str_int (cfg_port cfg)) ;;
      global_setup which_uv root "main") ;;
     run_jobs [VLLMJob fuel "vllm" cfg root (path_join root "logs");
               SGLangJob fuel "sglang" cfg root (path_join root "logs")]
              "main" ;;
     logger_info "main" results_line) w.
Proof. unfold main, bind. by destruct (logger_info _ _ w) as [[? [|]]|]. Qed.

(** X12: when a command of the set-up fails, [main] stops there, before
    any job is built or run.  Let [c] be the first command of the set-up
    that does not exit with status 0, [pre] the commands before it.
    Then [main] raises the error of [c]: the [CalledProcessError] of its
    exit status, or the [OSError] of the operating system when it could
    not be started.  All [main] has done is log and run commands: the
    children it has run are those of [pre], in order, and then [c] when
    it could be started; none of the set-up commands after [c] was
    started, no server was spawned, no request was sent, and the process
    table is as before. *)
Theorem main_stops_at_failed_setup fuel which_uv cfg root w pre c post :
  setup_cmds which_uv root = pre ++ c :: post →
  Forall (exits_ok (oracle w)) pre →
  command (oracle w) c ≠ Exited 0 →
  ∃ w' evs,
    main fuel which_uv cfg root w =
      Some (w', match command (oracle w) c with
                | Exited rc => Raise (CalledProcessError rc c)
                | NotStarted err => Raise (OSError_of err)
                end) ∧
    trace w' = evs ++ trace w ∧
    only commands_only evs ∧
    argv_run evs =
      pre ++ match command (oracle w) c with
             | Exited _ => [c]
             | NotStarted _ => []
             end ∧
    procs w' = procs w.
Proof.
  intros Hcmds Hpre Hfail.
  assert (fail_fast (setup_cmds which_uv root)
            (logger_info "main" ("Using port: " +:+ str_int (cfg_port cfg)) ;;
             global_setup which_uv root "main")) as Hscript.
  { apply (fail_fast_bind [] _); [apply fail_fast_logger_info|].
    global_setup_steps. }
  destruct (Hscript w)
    as (w' & evs & Hrun & Htr & _ & _ & Hprocs & Honly & Hran).
  destruct (script_stops (oracle w) pre c post Hpre Hfail) as [Hruns Hres].
  rewrite Hcmds, Hres in Hrun. rewrite Hcmds, Hruns in Hran.
  exists w', evs. rewrite main_eq.
  destruct (command (oracle w) c) as [rc|err];
    by rewrite (bind_Raise _ _ _ _ _ Hrun).
Qed.

Lemma main_stops_at_failed_setup_witness :
  setup_cmds (Some "/usr/bin/uv") "/bench" =
    [clone_benchmark_cmd "/bench"] ++
    clone_vllm_cmd "/bench" :: [checkout_cmd "/bench"] ∧
  Forall (exits_ok (oracle (idle_world broken_clone ∅)))
         [clone_benchmark_cmd "/bench"] ∧
  command (oracle (idle_world broken_clone ∅)) (clone_vllm_cmd "/bench") ≠
    Exited 0 ∧
  ∃ w' evs,
    main 100 (Some "/usr/bin/uv") default_cfg "/bench"
         (idle_world broken_clone ∅) =
      Some (w', match command (oracle (idle_world broken_clone ∅))
                        (clone_vllm_cmd "/bench") with
                | Exited rc =>
                    Raise (CalledProcessError rc (clone_vllm_cmd "/bench"))
                | NotStarted err => Raise (OSError_of err)
                end) ∧
    trace w' = evs ++ trace (idle_world broken_clone ∅) ∧
    only commands_only evs ∧
    argv_run evs =
      [clone_benchmark_cmd "/bench"] ++
      match command (oracle (idle_world broken_clone ∅))
              (clone_vllm_cmd "/bench") with
      | Exited _ => [clone_vllm_cmd "/bench"]
      | NotStarted _ => []
      end ∧
    procs w' = procs (idle_world broken_clone ∅).
Proof.
  assert (Forall (exits_ok (oracle (idle_world broken_clone ∅)))
            [clone_benchmark_cmd "/bench"]) as Hpre
    by (repeat constructor; reflexivity).
  assert (command (oracle (idle_world broken_clone ∅))
            (clone_vllm_cmd "/bench") ≠ Exited 0) as Hfail
    by (vm_compute; discriminate).
  split; [reflexivity|]. split; [exact Hpre|]. split; [exact Hfail|].
  exact (main_stops_at_failed_setup 100 (Some "/usr/bin/uv") default_cfg
           "/bench" (idle_world broken_clone ∅)
           [clone_benchmark_cmd "/bench"] (clone_vllm_cmd "/bench")
           [checkout_cmd "/bench"] eq_refl Hpre Hfail).
Defined.

(** The run of X12's witness: the second clone exits with status 128;
    [main] raises its [CalledProcessError], having run the two clones and
    not the checkout. *)
Example main_stops_at_failed_clone :
  ∃ w',
    main 100 (Some "/usr/bin/uv") default_cfg "/bench"
         (idle_world broken_clone ∅) =
      Some (w', Raise (CalledProcessError 128 (clone_vllm_cmd "/bench"))) ∧
    argv_run (trace w') =
      [clone_benchmark_cmd "/bench"; clone_vllm_cmd "/bench"].
Proof. eexists. split; vm_compute; reflexivity. Qed.

(** The paths of the set-up are those of [pathlib], also when the
    script is started in the root directory. *)
Example setup_paths :
  clone_benchmark_cmd "/" =
    ["git"; "clone"; "https://github.com/neuralmagic/benchmark-compare.git";
     "/benchmark-compare"] ∧
  vllm_dir "/" = "/benchmark-compare/vllm" ∧
  vllm_dir "/bench" = "/bench/benchmark-compare/vllm" ∧
  logpath (BaseJob_init "vllm" default_cfg "/" (path_join "/" "logs")) =
    "/logs/vllm.log".
Proof. repeat split; vm_compute; reflexivity. Qed.

(** X13: once the set-up has succeeded, no failure of a job makes [main]
    fail.  [main] then either returns, its last act being the log line
    that announces the results (also when a job has failed and the later
    jobs were skipped), or raises what [run_jobs] lets through: an
    exception that is not an [Exception], or the [OSError] of line 108,
    whose [pkill] could not be started. *)
Theorem main_survives_job_failures fuel which_uv cfg root w w' r :
  Forall (exits_ok (oracle w)) (setup_cmds which_uv root) →
  main fuel which_uv cfg root w = Some (w', r) →
  (r = Return tt ∧
   head (trace w') = Some (EvLog "main" INFO (Text results_line))) ∨
  (∃ e, r = Raise e ∧
     (is_Exception e = false ∨
      (∃ err, command (oracle w') pkill_cmd = NotStarted err ∧
              e = OSError_of err ∧
              head (trace w') = Some (killing_line "main")))).
Proof.
  intros Hok Hmain. rewrite main_eq in Hmain.
  assert (fail_fast (setup_cmds which_uv root)
            (logger_info "main" ("Using port: " +:+ str_int (cfg_port cfg)) ;;
             global_setup which_uv root "main")) as Hscript.
  { apply (fail_fast_bind [] _); [apply fail_fast_logger_info|].
    global_setup_steps. }
  destruct (Hscript w) as (w1 & evs & Hrun & _).
  apply script_result_ok in Hok. rewrite Hok in Hrun.
  rewrite (bind_Return _ _ _ _ _ Hrun) in Hmain.
  apply bind_inv in Hmain as [(w2 & [] & Hjobs & Hlast)|(e & Hjobs & ->)].
  - left. injection Hlast as <- <-. done.
  - right. exists e. split; [done|].
    unfold run_jobs in Hjobs.
    apply bind_inv in Hjobs as [(? & ? & _ & [=])|(e' & Hloop & [= <-])].
    by eapply run_jobs_loop_raises.
Qed.

Lemma main_survives_job_failures_witness :
  Forall (exits_ok (oracle (idle_world broken_benchmark ∅)))
         (setup_cmds (Some "/usr/bin/uv") "/bench") ∧
  ∃ w' r,
    main 100 (Some "/usr/bin/uv") default_cfg "/bench"
         (idle_world broken_benchmark ∅) = Some (w', r) ∧
    ((r = Return tt ∧
      head (trace w') = Some (EvLog "main" INFO (Text results_line))) ∨
     (∃ e, r = Raise e ∧
        (is_Exception e = false ∨
         (∃ err, command (oracle w') pkill_cmd = NotStarted err ∧
                 e = OSError_of err ∧
                 head (trace w') = Some (killing_line "main"))))).
Proof.
  assert (Forall (exits_ok (oracle (idle_world broken_benchmark ∅)))
            (setup_cmds (Some "/usr/bin/uv") "/bench")) as Hok
    by (repeat constructor; reflexivity).
  split; [exact Hok|].
  eexists _, _. split; [vm_compute; reflexivity|].
  eapply (main_survives_job_failures 100 (Some "/usr/bin/uv") default_cfg
            "/bench" (idle_world broken_benchmark ∅)).
  - exact Hok.
  - vm_compute. reflexivity.
Defined.

(** The run of X13's witness, seen in its trace: the vllm benchmark
    fails, the sglang job is skipped, and [main] still ends on the line
    that announces the results, right after the line of the failure. *)
Example main_announces_results_after_failure :
  ∃ w' t,
    main 100 (Some "/usr/bin/uv") default_cfg "/bench"
         (idle_world broken_benchmark ∅) = Some (w', Return tt) ∧
    trace w' =
      EvLog "main" INFO (Text results_line)
      :: EvLog "main" ERROR
           (JobFailed "vllm"
              (CalledProcessError 1
                 ["bash"; "-c"; bench_cmd vllm_self "vllm"]))
      :: t.
Proof. eexists _, _. split; vm_compute; reflexivity. Qed.
